(** * Threaded comment acquisition: a shallow embedding of the crawlers

    The repository holds four crawler scripts that harvest the comments of
    every video of a collection:

    - [crawl_mix_api.py]        (class [DouyinAPICrawler]),
    - [crawl_mix_complete.py]   (class [MixCrawler]),
    - [crawl_mix_drission.py]   (class [DrissionMixCrawler]),
    - [crawl_mix_playwright.py] (class [PlaywrightMixCrawler]).

    Each script is embedded in a module of its own.  The Python code is
    dynamically typed and works on decoded JSON, mutates local lists and sets
    inside [try/except] blocks, and talks to an upstream feed.  The embedding
    keeps all three aspects:

    - JSON data is a [pyval]; every Python operation that can raise on a value
      of the wrong type returns a [result];
    - a method body is a computation in the state monad [M], whose state
      survives an exception exactly like Python's mutable locals do;
    - the upstream feed is an oracle indexed by the number of the call, so
      that it may answer differently each time, whatever the request was.

    Scope of the data model: numbers are integers (JSON numbers with a
    fraction are left out), strings are sequences of code points below 256. *)

From Stdlib Require Import ZArith QArith String Ascii List Bool Lia FunctionalExtensionality.
From stdpp Require Import base gmap strings list pretty.

#[local] Open Scope string_scope.
#[local] Open Scope list_scope.
#[local] Open Scope Z_scope.

(** ** Python values *)

#[local] Unset Elimination Schemes.
Inductive pyval : Type :=
| PNone
| PBool (b : bool)
| PInt (z : Z)
| PStr (s : string)
| PList (l : list pyval)
| PDict (d : list (string * pyval)).
#[local] Set Elimination Schemes.

(** Exceptions derived from Python's [Exception]: the ones the data
    operations raise, and [UpstreamError] for whatever a feed call raises
    (time-out, connection error, HTTP error). *)
Inductive exn : Type :=
| AttributeError
| TypeError
| KeyError
| ValueError
| UpstreamError (msg : string).

(** What evaluating a piece of Python gives: a value, an exception, or no
    answer within the allotted number of loop iterations. *)
Inductive result (A : Type) : Type :=
| Ret (a : A)
| Raise (e : exn)
| OutOfFuel.
Arguments Ret {A} a.
Arguments Raise {A} e.
Arguments OutOfFuel {A}.

(** What a call into the outside world gives: it returns or it throws. *)
Inductive outcome (A : Type) : Type :=
| Returns (a : A)
| Throws (e : exn).
Arguments Returns {A} a.
Arguments Throws {A} e.

Definition result_of {A : Type} (o : outcome A) : result A :=
  match o with
  | Returns a => Ret a
  | Throws e => Raise e
  end.

Definition rbind {A B : Type} (r : result A) (k : A -> result B) : result B :=
  match r with
  | Ret a => k a
  | Raise e => Raise e
  | OutOfFuel => OutOfFuel
  end.

Notation "'let?' x := r 'in' k" := (rbind r (fun x => k))
  (at level 10, x name, r at level 100, k at level 200).

(** [bool(v)] *)
Definition truthy (v : pyval) : bool :=
  match v with
  | PNone => false
  | PBool b => b
  | PInt z => negb (z =? 0)
  | PStr s => negb (String.eqb s "")
  | PList l => match l with [] => false | _ => true end
  | PDict d => match d with [] => false | _ => true end
  end.

(** [a or b] on values already evaluated (callers keep the short circuit). *)
Definition py_or (a b : pyval) : pyval := if truthy a then a else b.

Fixpoint dict_lookup (k : string) (d : list (string * pyval)) : option pyval :=
  match d with
  | [] => None
  | (k', v) :: d' => if String.eqb k k' then Some v else dict_lookup k d'
  end.

(** [v.get(k, dflt)]: only a dict has the method. *)
Definition py_get (v : pyval) (k : string) (dflt : pyval) : result pyval :=
  match v with
  | PDict d => Ret (default dflt (dict_lookup k d))
  | _ => Raise AttributeError
  end.

(** [v[k]] with a string key. *)
Definition py_item (v : pyval) (k : string) : result pyval :=
  match v with
  | PDict d => match dict_lookup k d with Some x => Ret x | None => Raise KeyError end
  | _ => Raise TypeError
  end.

(** Booleans are integers in Python. *)
Definition as_num (v : pyval) : option Z :=
  match v with
  | PBool b => Some (if b then 1 else 0)
  | PInt z => Some z
  | _ => None
  end.

(** [v > n] and [v // n] for an integer literal [n]. *)
Definition py_gt (v : pyval) (n : Z) : result bool :=
  match as_num v with
  | Some z => Ret (n <? z)
  | None => Raise TypeError
  end.

Definition py_floordiv (v : pyval) (n : Z) : result pyval :=
  match as_num v with
  | Some z => Ret (PInt (z / n))
  | None => Raise TypeError
  end.

(** [min(v, 100)] *)
Definition py_min_100 (v : pyval) : result Z :=
  match as_num v with
  | Some z => Ret (Z.min z 100)
  | None => Raise TypeError
  end.

(** [a == b]: never raises; [True == 1]; dicts compare regardless of order. *)
Fixpoint py_eq (a b : pyval) {struct a} : bool :=
  match a, b with
  | PNone, PNone => true
  | PBool x, PBool y => Bool.eqb x y
  | PBool x, PInt z => (if x then 1 else 0) =? z
  | PInt z, PBool x => z =? (if x then 1 else 0)
  | PInt x, PInt y => x =? y
  | PStr s, PStr t => String.eqb s t
  | PList l, PList m =>
      (fix go (l m : list pyval) {struct l} : bool :=
         match l, m with
         | [], [] => true
         | x :: l', y :: m' => py_eq x y && go l' m'
         | _, _ => false
         end) l m
  | PDict d, PDict e =>
      Nat.eqb (length d) (length e) &&
      forallb (fun kv => match dict_lookup (fst kv) e with
                         | Some w => py_eq (snd kv) w
                         | None => false
                         end) d
  | _, _ => false
  end.

(** Members of a Python [set]: the hashable values, up to [==]. *)
Inductive key : Type :=
| KNone
| KNum (z : Z)
| KStr (s : string).

#[global] Instance key_eq_dec : EqDecision key.
Proof. solve_decision. Defined.

Definition key_enc (k : key) : unit + (Z + string) :=
  match k with
  | KNone => inl ()
  | KNum z => inr (inl z)
  | KStr s => inr (inr s)
  end.

Definition key_dec (x : unit + (Z + string)) : key :=
  match x with
  | inl _ => KNone
  | inr (inl z) => KNum z
  | inr (inr s) => KStr s
  end.

Definition key_dec_enc (k : key) : key_dec (key_enc k) = k :=
  match k with
  | KNone => eq_refl
  | KNum _ => eq_refl
  | KStr _ => eq_refl
  end.

#[global] Instance key_countable : Countable key :=
  inj_countable' key_enc key_dec key_dec_enc.

Definition key_of (v : pyval) : option key :=
  match v with
  | PNone => Some KNone
  | PBool b => Some (KNum (if b then 1 else 0))
  | PInt z => Some (KNum z)
  | PStr s => Some (KStr s)
  | PList _ | PDict _ => None
  end.

(** [hash(v)], as needed by [v in some_set] and [some_set.add(v)]. *)
Definition py_hash (v : pyval) : result key :=
  match key_of v with
  | Some k => Ret k
  | None => Raise TypeError
  end.

Fixpoint chars (s : string) : list pyval :=
  match s with
  | EmptyString => []
  | String c s' => PStr (String c EmptyString) :: chars s'
  end.

(** The elements a [for] loop visits. *)
Definition py_iter (v : pyval) : result (list pyval) :=
  match v with
  | PList l => Ret l
  | PStr s => Ret (chars s)
  | PDict d => Ret (map (fun kv => PStr (fst kv)) d)
  | PNone | PBool _ | PInt _ => Raise TypeError
  end.

Fixpoint is_prefix (p s : string) : bool :=
  match p, s with
  | EmptyString, _ => true
  | String a p', String b s' => Ascii.eqb a b && is_prefix p' s'
  | String _ _, EmptyString => false
  end.

Fixpoint is_substring (p s : string) : bool :=
  is_prefix p s || match s with
                   | EmptyString => false
                   | String _ s' => is_substring p s'
                   end.

(** ["k" in v] for a string literal [k]. *)
Definition py_contains (v : pyval) (k : string) : result bool :=
  match v with
  | PDict d => Ret (match dict_lookup k d with Some _ => true | None => false end)
  | PStr s => Ret (is_substring k s)
  | PList l => Ret (existsb (py_eq (PStr k)) l)
  | PNone | PBool _ | PInt _ => Raise TypeError
  end.

(** [str.strip()]: the white space among the code points below 256. *)
Definition is_space (c : ascii) : bool :=
  let n := N_of_ascii c in
  ((9 <=? n) && (n <=? 13) || (28 <=? n) && (n <=? 32) || (n =? 133) || (n =? 160))%N.

Fixpoint lstrip (s : string) : string :=
  match s with
  | EmptyString => EmptyString
  | String c s' => if is_space c then lstrip s' else s
  end.

Fixpoint rstrip (s : string) : string :=
  match s with
  | EmptyString => EmptyString
  | String c s' =>
      match rstrip s' with
      | EmptyString => if is_space c then EmptyString else String c EmptyString
      | r => String c r
      end
  end.

Definition py_strip (v : pyval) : result pyval :=
  match v with
  | PStr s => Ret (PStr (rstrip (lstrip s)))
  | _ => Raise AttributeError
  end.

(** The parts of the Python run time the crawlers call and this development
    leaves open: [str(v)], [int(s)] on a string, the rendering of a time
    stamp by [datetime.fromtimestamp(t).strftime('%Y-%m-%d %H:%M:%S')]
    ([None] when either call raises) and the built-in [hash] of a string
    (salted per process). *)
Record runtime : Type := {
  py_str : pyval -> string;
  int_of_str : string -> option Z;
  strftime_local : pyval -> option string;
  str_hash : string -> Z
}.

(** ** Stateful code

    A method body is a state transformer.  The state outlives an exception:
    what was appended to a list before the [raise] is still there in the
    handler. *)

Definition M (S A : Type) : Type := S -> S * result A.

Definition ret {S A : Type} (a : A) : M S A := fun s => (s, Ret a).

Definition bind {S A B : Type} (m : M S A) (k : A -> M S B) : M S B :=
  fun s =>
    match m s with
    | (s', Ret a) => k a s'
    | (s', Raise e) => (s', Raise e)
    | (s', OutOfFuel) => (s', OutOfFuel)
    end.

Notation "x <- m ;; k" := (bind m (fun x => k))
  (at level 100, m at level 99, k at level 200, right associativity).
Notation "m ;;; k" := (bind m (fun _ => k))
  (at level 100, k at level 200, right associativity).

Definition lift {S A : Type} (r : result A) : M S A := fun s => (s, r).
Definition gets {S A : Type} (f : S -> A) : M S A := fun s => (s, Ret (f s)).
Definition modify {S : Type} (f : S -> S) : M S unit := fun s => (f s, Ret tt).

(** [try: m except Exception: h] *)
Definition try_except {S A : Type} (m : M S A) (h : exn -> M S A) : M S A :=
  fun s =>
    match m s with
    | (s', Raise e) => h e s'
    | other => other
    end.

(** How one pass through a loop body ends: fall through (or [continue]) to
    the next pass, or [break]. *)
Inductive ctl : Type := Next | Break.

(** [for x in items: body] *)
Fixpoint for_each {S X : Type} (body : X -> M S ctl) (items : list X) : M S unit :=
  match items with
  | [] => ret tt
  | x :: rest =>
      c <- body x ;;
      match c with
      | Next => for_each body rest
      | Break => ret tt
      end
  end.

(** [while cond: body], cut off after [fuel] passes. *)
Fixpoint while_loop {S : Type} (fuel : nat) (cond : S -> bool) (body : M S ctl) : M S unit :=
  fun s =>
    if cond s then
      match fuel with
      | O => (s, OutOfFuel)
      | Datatypes.S n =>
          (c <- body ;;
           match c with
           | Next => while_loop n cond body
           | Break => ret tt
           end) s
      end
    else (s, Ret tt).

(** A method call: the callee runs on the shared world [W] with locals of
    its own; the caller's locals are untouched. *)
Definition call {W L L' A : Type} (init : L') (m : M (W * L') A) : M (W * L) A :=
  fun '(w, l) =>
    match m (w, init) with
    | ((w', _), r) => ((w', l), r)
    end.

Definition len {A : Type} (l : list A) : Z := Z.of_nat (length l).

(** ** The upstream comment feed

    [DouyinWebCrawler.fetch_video_comments] and
    [DouyinWebCrawler.fetch_video_comments_reply] live outside the scripts.
    The n-th call of either end point is answered by the oracle at [n]: a
    decoded JSON value, or an exception (every call answers: the client has
    a time-out).  The answer does not look at the
    cursor sent: a feed that does is one particular oracle, and the crawlers
    are studied for all of them. *)

Record feed : Type := {
  api_fetch_video_comments : nat -> outcome pyval;
  api_fetch_video_comments_reply : nat -> outcome pyval
}.

(** How many calls each end point has received so far. *)
Record world : Type := {
  root_calls : nat;
  reply_calls : nat
}.

Definition fresh_world : world := {| root_calls := 0; reply_calls := 0 |}.

Definition await_fetch_video_comments {L : Type} (api : feed) : M (world * L) pyval :=
  fun '(w, l) =>
    (({| root_calls := S (root_calls w); reply_calls := reply_calls w |}, l),
     result_of (api_fetch_video_comments api (root_calls w))).

Definition await_fetch_video_comments_reply {L : Type} (api : feed) : M (world * L) pyval :=
  fun '(w, l) =>
    (({| root_calls := root_calls w; reply_calls := S (reply_calls w) |}, l),
     result_of (api_fetch_video_comments_reply api (reply_calls w))).

(** Access to the locals of the running method. *)
Definition local {W L A : Type} (f : L -> A) : M (W * L) A := gets (fun s => f (snd s)).
Definition assign {W L : Type} (f : L -> L) : M (W * L) unit :=
  modify (fun s => (fst s, f (snd s))).

(** ** crawl_mix_api.py *)

Module Api.

(** The dictionary built by [_parse_comment]. *)
Record comment_row : Type := {
  comment_id : pyval;
  text : pyval;
  user : pyval;
  user_id : pyval;
  digg_count : pyval;
  reply_count : pyval;
  create_time : pyval;
  ip_label : pyval;
  level : Z;
  reply_to : pyval
}.

(** Locals of [fetch_video_comments] and of [fetch_comment_replies]. *)
Record root_vars : Type := {
  comments : list comment_row;
  comment_ids : gset key;
  cursor : pyval
}.

Record reply_vars : Type := {
  replies : list comment_row;
  reply_ids : gset key;
  reply_cursor : pyval
}.

Section Crawler.

(** [self.max_comments], [self.fetch_replies], [self.api], and the bound on
    the passes of each [while]. *)
Context (rt : runtime) (max_comments : Z) (fetch_replies : bool)
        (api : feed) (fuel : nat).

(** The [try] block of [_parse_comment]. *)
Definition _parse_comment_try (comment : pyval) (level : Z) : result comment_row :=
  let? comment_id := py_get comment "cid" (PStr "") in
  let? raw_text := py_get comment "text" (PStr "") in
  let? text := py_strip raw_text in
  let? create_time := py_get comment "create_time" (PInt 0) in
  let? millis := py_gt create_time 10000000000 in
  let? create_time := (if millis then py_floordiv create_time 1000 else Ret create_time) in
  let time_str := default "" (strftime_local rt create_time) in
  let? user := py_get comment "user" (PDict []) in
  let? nickname := py_get user "nickname" (PStr "") in
  let? uid := py_get user "uid" (PStr "") in
  let? user_id := (if truthy uid then Ret uid else py_get user "sec_uid" (PStr "")) in
  let? ip_label := py_get comment "ip_label" (PStr "") in
  let? target := py_get comment "reply_to_userid" PNone in
  let? reply_to :=
    (if truthy target then
       let? name := py_get comment "reply_to_username" (PStr "") in
       if truthy name then Ret name
       else let? uid := py_get comment "reply_to_userid" (PStr "") in
            Ret (PStr (py_str rt uid))
     else Ret (PStr "")) in
  let? digg_count := py_get comment "digg_count" (PInt 0) in
  let? reply_count := py_get comment "reply_comment_total" (PInt 0) in
  Ret {| comment_id := comment_id;
         text := text;
         user := nickname;
         user_id := user_id;
         digg_count := digg_count;
         reply_count := reply_count;
         create_time := PStr time_str;
         ip_label := ip_label;
         level := level;
         reply_to := reply_to |}.

(** [_parse_comment(comment, level)]: the [except Exception] branch builds a
    bare row from the two fields it can still read. *)
Definition _parse_comment (comment : pyval) (level : Z) : result comment_row :=
  match _parse_comment_try comment level with
  | Raise _ =>
      let? comment_id := py_get comment "cid" (PStr "") in
      let? text := py_get comment "text" (PStr "") in
      Ret {| comment_id := comment_id;
             text := text;
             user := PStr "";
             user_id := PStr "";
             digg_count := PInt 0;
             reply_count := PInt 0;
             create_time := PStr "";
             ip_label := PStr "";
             level := level;
             reply_to := PStr "" |}
  | other => other
  end.

(** *** [fetch_comment_replies] *)

(** Body of [for reply in comment_list]. *)
Definition reply_item (max_replies : Z) (reply : pyval) : M (world * reply_vars) ctl :=
  reply_id <- lift (py_get reply "cid" (PStr "")) ;;
  if negb (truthy reply_id) then ret Next else
  k <- lift (py_hash reply_id) ;;
  seen <- local reply_ids ;;
  if bool_decide (k ∈ seen) then ret Next else
  assign (fun v => {| replies := replies v;
                      reply_ids := {[k]} ∪ reply_ids v;
                      reply_cursor := reply_cursor v |}) ;;;
  parsed <- lift (_parse_comment reply 2) ;;
  assign (fun v => {| replies := replies v ++ [parsed];
                      reply_ids := reply_ids v;
                      reply_cursor := reply_cursor v |}) ;;;
  n <- local (fun v => len (replies v)) ;;
  if max_replies <=? n then ret Break else ret Next.

(** The [try] block inside [while len(replies) < max_replies]. *)
Definition reply_page_try (max_replies : Z) : M (world * reply_vars) ctl :=
  resp <- await_fetch_video_comments_reply api ;;
  if negb (truthy resp) then ret Break else
  comment_list <- lift (py_get resp "comments" (PList [])) ;;
  if negb (truthy comment_list) then ret Break else
  items <- lift (py_iter comment_list) ;;
  for_each (reply_item max_replies) items ;;;
  has_more <- lift (py_get resp "has_more" (PInt 0)) ;;
  new_cursor <- lift (py_get resp "cursor" (PInt 0)) ;;
  cur <- local reply_cursor ;;
  if negb (truthy has_more) || py_eq new_cursor cur then ret Break else
  assign (fun v => {| replies := replies v;
                      reply_ids := reply_ids v;
                      reply_cursor := new_cursor |}) ;;;
  ret Next.

(** ... with its [except Exception: break]. *)
Definition reply_page (max_replies : Z) : M (world * reply_vars) ctl :=
  try_except (reply_page_try max_replies) (fun _ => ret Break).

Definition fetch_comment_replies_body (max_replies : Z) : M (world * reply_vars) (list comment_row) :=
  while_loop fuel (fun s => len (replies (snd s)) <? max_replies) (reply_page max_replies) ;;;
  local replies.

Definition fetch_comment_replies {L : Type} (expected_count : pyval) : M (world * L) (list comment_row) :=
  max_replies <- lift (py_min_100 expected_count) ;;
  call {| replies := []; reply_ids := ∅; reply_cursor := PInt 0 |}
       (fetch_comment_replies_body max_replies).

(** *** [fetch_video_comments] *)

(** Body of [for reply in replies]. *)
Definition attach_reply (reply : comment_row) : M (world * root_vars) ctl :=
  k <- lift (py_hash (comment_id reply)) ;;
  seen <- local comment_ids ;;
  if bool_decide (k ∈ seen) then ret Next else
  assign (fun v => {| comments := comments v;
                      comment_ids := {[k]} ∪ comment_ids v;
                      cursor := cursor v |}) ;;;
  assign (fun v => {| comments := comments v ++ [reply];
                      comment_ids := comment_ids v;
                      cursor := cursor v |}) ;;;
  ret Next.

(** Body of [for comment in comment_list]. *)
Definition root_item (comment : pyval) : M (world * root_vars) ctl :=
  cid <- lift (py_get comment "cid" (PStr "")) ;;
  if negb (truthy cid) then ret Next else
  k <- lift (py_hash cid) ;;
  seen <- local comment_ids ;;
  if bool_decide (k ∈ seen) then ret Next else
  assign (fun v => {| comments := comments v;
                      comment_ids := {[k]} ∪ comment_ids v;
                      cursor := cursor v |}) ;;;
  parsed <- lift (_parse_comment comment 1) ;;
  assign (fun v => {| comments := comments v ++ [parsed];
                      comment_ids := comment_ids v;
                      cursor := cursor v |}) ;;;
  reply_count <- lift (py_get comment "reply_comment_total" (PInt 0)) ;;
  wanted <- (if fetch_replies then lift (py_gt reply_count 0) else ret false) ;;
  (if wanted : bool then
     replies <- fetch_comment_replies reply_count ;;
     for_each attach_reply replies
   else ret tt) ;;;
  n <- local (fun v => len (comments v)) ;;
  if max_comments <=? n then ret Break else ret Next.

(** The [try] block inside [while len(comments) < self.max_comments]. *)
Definition root_page_try : M (world * root_vars) ctl :=
  resp <- await_fetch_video_comments api ;;
  if negb (truthy resp) then ret Break else
  comment_list <- lift (py_get resp "comments" (PList [])) ;;
  if negb (truthy comment_list) then ret Break else
  items <- lift (py_iter comment_list) ;;
  for_each root_item items ;;;
  has_more <- lift (py_get resp "has_more" (PInt 0)) ;;
  new_cursor <- lift (py_get resp "cursor" (PInt 0)) ;;
  cur <- local cursor ;;
  if negb (truthy has_more) || py_eq new_cursor cur then ret Break else
  assign (fun v => {| comments := comments v;
                      comment_ids := comment_ids v;
                      cursor := new_cursor |}) ;;;
  ret Next.

Definition root_page : M (world * root_vars) ctl :=
  try_except root_page_try (fun _ => ret Break).

Definition fetch_video_comments_body : M (world * root_vars) (list comment_row) :=
  while_loop fuel (fun s => len (comments (snd s)) <? max_comments) root_page ;;;
  local comments.

Definition empty_root_vars : root_vars :=
  {| comments := []; comment_ids := ∅; cursor := PInt 0 |}.

(** [fetch_video_comments(aweme_id, expected_count)], run from a given
    world; the final world and locals are returned with the result.  The two
    arguments only reach the feed and the log. *)
Definition fetch_video_comments (w : world) : (world * root_vars) * result (list comment_row) :=
  fetch_video_comments_body (w, empty_root_vars).

End Crawler.

(** *** Coverage, as [process_video] computes it

    [(actual_count / total_expected * 100) if total_expected > 0 else 0];
    the quotient is taken in the rationals. *)
Definition coverage (actual_count total_expected : Z) : Q :=
  if 0 <? total_expected
  then (inject_Z actual_count / inject_Z total_expected * 100)%Q
  else 0%Q.

(** *** The loop of [crawl_mix] over the videos

    What [process_video] does to one video is left open: it ends normally,
    raises, or is interrupted from the keyboard. *)
Inductive video_outcome : Type :=
| Processed
| Failed (e : exn)
| KeyboardInterrupt.

Record stats : Type := {
  processed_videos : nat;
  failed_videos : nat
}.

(** [for video in videos: try: process_video(video) except KeyboardInterrupt:
    break except Exception: failed += 1; continue].  [processed_videos] is
    bumped by [process_video] itself as its last statement.  The videos
    attempted are recorded in order. *)
Fixpoint crawl_mix_loop {V : Type} (process_video : V -> video_outcome)
         (videos : list V) (st : stats) (attempted : list V) : stats * list V :=
  match videos with
  | [] => (st, attempted)
  | video :: rest =>
      match process_video video with
      | Processed =>
          crawl_mix_loop process_video rest
            {| processed_videos := S (processed_videos st);
               failed_videos := failed_videos st |} (attempted ++ [video])
      | Failed _ =>
          crawl_mix_loop process_video rest
            {| processed_videos := processed_videos st;
               failed_videos := S (failed_videos st) |} (attempted ++ [video])
      | KeyboardInterrupt => (st, attempted ++ [video])
      end
  end.

End Api.

(** ** crawl_mix_complete.py *)

Module Complete.

(** The CSV row built by [format_comment_row]; the columns that are the
    empty string in every comment row are left out. *)
Record csv_row : Type := {
  aweme_id : pyval;     (* 视频ID *)
  level : Z;            (* 层级: "comment1" or "comment2" *)
  cid : pyval;          (* 评论ID *)
  parent_id : pyval;    (* 父评论ID *)
  text : pyval;         (* 评论内容 *)
  user : pyval;         (* 评论用户 *)
  digg_count : pyval;   (* 评论点赞 *)
  create_time : pyval   (* 评论时间 *)
}.

(** Locals of [get_all_comments] and of [get_comment_replies]. *)
Record root_vars : Type := {
  collected : list csv_row;
  cursor : pyval
}.

Record reply_vars : Type := {
  replies : list csv_row;
  reply_cursor : pyval
}.

Section Crawler.

Context (rt : runtime) (max_comments : Z) (crawler : feed) (fuel : nat).

(** [format_comment_row(comment, level, parent_id)]: nothing is caught
    here; a time stamp that cannot be rendered raises. *)
Definition format_comment_row (comment : pyval) (level : Z) (parent_id : pyval) : result csv_row :=
  let? user0 := py_get comment "user" PNone in
  let user := py_or user0 (PDict []) in
  let? ts := py_get comment "create_time" (PInt 0) in
  let? aweme_id := py_get comment "aweme_id" (PStr "") in
  let? cid := py_get comment "cid" (PStr "") in
  let? text := py_get comment "text" (PStr "") in
  let? nickname := py_get user "nickname" (PStr "") in
  let? digg_count := py_get comment "digg_count" (PInt 0) in
  let? time_str :=
    (if truthy ts then
       match strftime_local rt ts with
       | Some s => Ret (PStr s)
       | None => Raise ValueError
       end
     else Ret (PStr "")) in
  Ret {| aweme_id := aweme_id;
         level := level;
         cid := cid;
         parent_id := parent_id;
         text := text;
         user := nickname;
         digg_count := digg_count;
         create_time := time_str |}.

(** *** [get_comment_replies] *)

(** Body of [for r in data]. *)
Definition reply_item (comment_id : pyval) (max_needed : Z) (r : pyval) : M (world * reply_vars) ctl :=
  row <- lift (format_comment_row r 2 comment_id) ;;
  assign (fun v => {| replies := replies v ++ [row]; reply_cursor := reply_cursor v |}) ;;;
  n <- local (fun v => len (replies v)) ;;
  if max_needed <=? n then ret Break else ret Next.

Definition reply_page_try (comment_id : pyval) (max_needed : Z) : M (world * reply_vars) ctl :=
  resp <- await_fetch_video_comments_reply crawler ;;
  if negb (truthy resp) then ret Break else
  has_comments <- lift (py_contains resp "comments") ;;
  if negb has_comments then ret Break else
  data0 <- lift (py_get resp "comments" PNone) ;;
  let data := py_or data0 (PList []) in
  if negb (truthy data) then ret Break else
  items <- lift (py_iter data) ;;
  for_each (reply_item comment_id max_needed) items ;;;
  has_more <- lift (py_get resp "has_more" (PInt 0)) ;;
  new_cursor <- lift (py_get resp "cursor" (PInt 0)) ;;
  assign (fun v => {| replies := replies v; reply_cursor := new_cursor |}) ;;;
  if negb (py_eq has_more (PInt 1)) then ret Break else
  ret Next.

Definition reply_page (comment_id : pyval) (max_needed : Z) : M (world * reply_vars) ctl :=
  try_except (reply_page_try comment_id max_needed) (fun _ => ret Break).

Definition get_comment_replies_body (comment_id : pyval) (max_needed : Z) : M (world * reply_vars) (list csv_row) :=
  while_loop fuel (fun s => len (replies (snd s)) <? max_needed) (reply_page comment_id max_needed) ;;;
  local replies.

Definition get_comment_replies {L : Type} (comment_id : pyval) (max_needed : Z) : M (world * L) (list csv_row) :=
  call {| replies := []; reply_cursor := PInt 0 |} (get_comment_replies_body comment_id max_needed).

(** *** [get_all_comments] *)

(** Body of [for c in comments]. *)
Definition root_item (c : pyval) : M (world * root_vars) ctl :=
  row <- lift (format_comment_row c 1 (PStr "")) ;;
  assign (fun v => {| collected := collected v ++ [row]; cursor := cursor v |}) ;;;
  reply_total <- lift (py_get c "reply_comment_total" (PInt 0)) ;;
  has_replies <- lift (py_gt reply_total 0) ;;
  n <- local (fun v => len (collected v)) ;;
  (if has_replies && (n <? max_comments) then
     comment_id <- lift (py_get c "cid" (PStr "")) ;;
     replies <- get_comment_replies comment_id (max_comments - n) ;;
     assign (fun v => {| collected := collected v ++ replies; cursor := cursor v |})
   else ret tt) ;;;
  n <- local (fun v => len (collected v)) ;;
  if max_comments <=? n then ret Break else ret Next.

Definition root_page_try : M (world * root_vars) ctl :=
  resp <- await_fetch_video_comments crawler ;;
  if negb (truthy resp) then ret Break else
  has_comments <- lift (py_contains resp "comments") ;;
  if negb has_comments then ret Break else
  comments0 <- lift (py_get resp "comments" PNone) ;;
  let comments := py_or comments0 (PList []) in
  if negb (truthy comments) then ret Break else
  items <- lift (py_iter comments) ;;
  for_each root_item items ;;;
  has_more <- lift (py_get resp "has_more" (PInt 0)) ;;
  new_cursor <- lift (py_get resp "cursor" (PInt 0)) ;;
  assign (fun v => {| collected := collected v; cursor := new_cursor |}) ;;;
  if negb (py_eq has_more (PInt 1)) then ret Break else
  ret Next.

Definition root_page : M (world * root_vars) ctl :=
  try_except root_page_try (fun _ => ret Break).

Definition get_all_comments_body : M (world * root_vars) (list csv_row) :=
  while_loop fuel (fun s => len (collected (snd s)) <? max_comments) root_page ;;;
  local collected.

(** [get_all_comments(aweme_id, video_title, expect_count)]: the arguments
    only reach the feed and the log. *)
Definition get_all_comments (w : world) : (world * root_vars) * result (list csv_row) :=
  get_all_comments_body (w, {| collected := []; cursor := PInt 0 |}).

End Crawler.

End Complete.

(** ** crawl_mix_drission.py *)

Module Drission.

(** [d[k] = x] on a dict. *)
Fixpoint dict_set (k : string) (x : pyval) (d : list (string * pyval)) : list (string * pyval) :=
  match d with
  | [] => [(k, x)]
  | (k', v) :: d' => if String.eqb k k' then (k, x) :: d' else (k', v) :: dict_set k x d'
  end.

Definition py_setitem (v : pyval) (k : string) (x : pyval) : result pyval :=
  match v with
  | PDict d => Ret (PDict (dict_set k x d))
  | _ => Raise TypeError
  end.

(** The two place-holder names the script writes for a missing user
    (the literals' bytes). *)
Definition unknown_user : pyval := PStr "未知用户".
Definition unknown : pyval := PStr "未知".

(** [int(v)] *)
Definition py_int (rt : runtime) (v : pyval) : result Z :=
  match v with
  | PInt z => Ret z
  | PBool b => Ret (if b then 1 else 0)
  | PStr s => match int_of_str rt s with Some z => Ret z | None => Raise ValueError end
  | PNone | PList _ | PDict _ => Raise TypeError
  end.

(** [parse_timestamp(ts)]: everything is caught, the fall-back is [str(ts)]
    of the value [ts] has at that point. *)
Definition parse_timestamp (rt : runtime) (ts : pyval) : string :=
  if match ts with PNone => true | _ => false end || py_eq ts (PInt 0) then ""
  else match py_int rt ts with
       | Ret z =>
           let z' := if 10000000000 <? z then z / 1000 else z in
           default (py_str rt (PInt z')) (strftime_local rt (PInt z'))
       | _ => py_str rt ts
       end.

(** [(n / expected * 100) if expected > 0 else 0], as in the progress line
    of [get_video_comments] and in [process_video]. *)
Definition coverage (n expected_count : Z) : Q :=
  if 0 <? expected_count
  then (inject_Z n / inject_Z expected_count * 100)%Q
  else 0%Q.

(** *** [_parse_comment] *)

Section Parse.

Context (rt : runtime).

Definition _parse_comment_try (comment : pyval) : result pyval :=
  let? cid := py_get comment "cid" (PStr "") in
  let? comment_id :=
    (if truthy cid then Ret cid
     else let? i := py_get comment "id" (PStr "") in Ret (PStr (py_str rt i))) in
  let? raw_text := py_get comment "text" (PStr "") in
  let? text := py_strip raw_text in
  let? create_time := py_get comment "create_time" (PInt 0) in
  let? digg_count := py_get comment "digg_count" (PInt 0) in
  let? reply_count := py_get comment "reply_comment_total" (PInt 0) in
  let? user := py_get comment "user" (PDict []) in
  let? nickname := py_get user "nickname" unknown_user in
  let? user_id := py_get user "uid" (PStr "") in
  let? sec_uid := py_get user "sec_uid" (PStr "") in
  let? ip_label := py_get comment "ip_label" (PStr "") in
  let? to_userid := py_get comment "reply_to_userid" (PStr "") in
  let reply_to_userid := py_or to_userid (PStr "") in
  let? to_nickname := py_get comment "reply_to_nickname" (PStr "") in
  let reply_to_nickname := py_or to_nickname (PStr "") in
  let time_str := parse_timestamp rt create_time in
  let? reply_id := py_get comment "reply_id" (PStr "") in
  let reply_id_str := if truthy reply_id then py_str rt reply_id else "" in
  let by_reply_id :=
    negb (String.eqb reply_id_str "") && negb (String.eqb reply_id_str "0") in
  let by_userid :=
    truthy reply_to_userid
    && negb (String.eqb (py_str rt reply_to_userid) "0")
    && negb (String.eqb (py_str rt reply_to_userid) "") in
  let is_reply := by_reply_id || by_userid in
  Ret (PDict [("cid", comment_id);
              ("text", text);
              ("user", nickname);
              ("user_id", user_id);
              ("user_sec_id", sec_uid);
              ("digg_count", digg_count);
              ("reply_count", reply_count);
              ("create_time", PStr time_str);
              ("ip_location", ip_label);
              ("level", PInt (if is_reply then 2 else 1));
              ("reply_to_user", reply_to_nickname);
              ("reply_to_user_id", reply_to_userid)]).

Definition _parse_comment (comment : pyval) : result pyval :=
  match _parse_comment_try comment with
  | Raise _ =>
      let? cid := py_get comment "cid" (PStr "") in
      let? text := py_get comment "text" (PStr "") in
      Ret (PDict [("cid", PStr (py_str rt cid));
                  ("text", text);
                  ("user", unknown);
                  ("level", PInt 1)])
  | other => other
  end.

End Parse.

(** *** [get_video_comments_api]: the API strategy, root comments only *)

Record api_vars : Type := {
  api_comments : list pyval;
  api_comment_ids : gset key;
  api_cursor : pyval;
  api_page : Z
}.

Definition max_pages : Z := 200.

Section ApiMode.

Context (rt : runtime) (max_comments : Z) (crawler : feed).

(** Body of [for comment in comments_data]. *)
Definition api_item (comment : pyval) : M (world * api_vars) ctl :=
  comment_id <- lift (py_get comment "cid" (PStr "")) ;;
  if negb (truthy comment_id) then ret Next else
  k <- lift (py_hash comment_id) ;;
  seen <- local api_comment_ids ;;
  if bool_decide (k ∈ seen) then ret Next else
  assign (fun v => {| api_comments := api_comments v;
                      api_comment_ids := {[k]} ∪ api_comment_ids v;
                      api_cursor := api_cursor v;
                      api_page := api_page v |}) ;;;
  parsed <- lift (_parse_comment rt comment) ;;
  parsed <- lift (py_setitem parsed "level" (PInt 1)) ;;
  assign (fun v => {| api_comments := api_comments v ++ [parsed];
                      api_comment_ids := api_comment_ids v;
                      api_cursor := api_cursor v;
                      api_page := api_page v |}) ;;;
  ret Next.

Definition api_page_try : M (world * api_vars) ctl :=
  result <- await_fetch_video_comments crawler ;;
  if negb (truthy result) then ret Break else
  comments_data <- lift (py_get result "comments" (PList [])) ;;
  if negb (truthy comments_data) then ret Break else
  items <- lift (py_iter comments_data) ;;
  for_each api_item items ;;;
  has_more <- lift (py_get result "has_more" (PInt 0)) ;;
  new_cursor <- lift (py_get result "cursor" (PInt 0)) ;;
  cur <- local api_cursor ;;
  if negb (truthy has_more) || py_eq new_cursor cur then ret Break else
  assign (fun v => {| api_comments := api_comments v;
                      api_comment_ids := api_comment_ids v;
                      api_cursor := new_cursor;
                      api_page := api_page v |}) ;;;
  ret Next.

(** One pass of [while page < max_pages and len(comments) < max_comments]:
    [page += 1], then the guarded block. *)
Definition api_pass : M (world * api_vars) ctl :=
  assign (fun v => {| api_comments := api_comments v;
                      api_comment_ids := api_comment_ids v;
                      api_cursor := api_cursor v;
                      api_page := api_page v + 1 |}) ;;;
  try_except api_page_try (fun _ => ret Break).

Definition get_video_comments_api_body : M (world * api_vars) (list pyval) :=
  try_except
    (while_loop (Z.to_nat max_pages)
       (fun s => (api_page (snd s) <? max_pages)
                 && (len (api_comments (snd s)) <? max_comments))
       api_pass)
    (fun _ => ret tt) ;;;
  local api_comments.

(** [get_video_comments_api(aweme_id, expected_count)] *)
Definition get_video_comments_api {L : Type} : M (world * L) (list pyval) :=
  call {| api_comments := []; api_comment_ids := ∅; api_cursor := PInt 0; api_page := 0 |}
       get_video_comments_api_body.

End ApiMode.

(** *** [process_video]: which strategy harvests the comments *)

Inductive strategy : Type :=
| Lightweight   (* get_video_comments_api: root comments through the API *)
| Intensive.    (* get_video_comments: the browser, roots and replies *)

Definition LARGE_COMMENT_THRESHOLD : Z := 1500.

Record video_comments : Type := {
  harvested : list pyval;
  video_not_exist : bool
}.

(** The comment part of [process_video].  The two harvesters are given; the
    state carries the list of the harvesters invoked, in order.  The browser
    harvester answers [None] for a video that does not exist. *)
Definition process_video_comments {W : Type}
    (get_video_comments_api : Z -> M W (list pyval))
    (get_video_comments : Z -> M W (option (list pyval)))
    (crawl_comments : bool) (total_expected : Z) : M (list strategy * W) video_comments :=
  if crawl_comments && (0 <? total_expected) then
    comments <-
      (if LARGE_COMMENT_THRESHOLD <? total_expected then
         fun '(invoked, w) =>
           match get_video_comments_api total_expected w with
           | (w', r) => ((invoked ++ [Lightweight], w'), rbind r (fun c => Ret (Some c)))
           end
       else
         fun '(invoked, w) =>
           match get_video_comments total_expected w with
           | (w', r) => ((invoked ++ [Intensive], w'), r)
           end) ;;
    match comments with
    | None => ret {| harvested := []; video_not_exist := true |}
    | Some c => ret {| harvested := c; video_not_exist := false |}
    end
  else ret {| harvested := []; video_not_exist := false |}.

(** *** [get_video_comments]: the scrolling loop of the browser strategy *)

(** What the browser shows, call by call. *)
Record browser : Type := {
  (* driver.listen.wait(timeout): no packet, or the decoded body of one
     (reading the body may raise); the call itself may raise *)
  listen_wait : nat -> outcome (option (outcome pyval));
  (* time.time(), in seconds *)
  time_time : nat -> Q;
  (* get_scroll_position() *)
  get_scroll_position : nat -> Z;
  (* self._check_captcha() *)
  _check_captcha : nat -> bool;
  (* self._handle_captcha(): returns once the operator has pressed enter *)
  _handle_captcha : nat -> outcome unit;
  (* does driver.html hold one of the two end-of-list markers *)
  html_has_end_marker : nat -> outcome bool
}.

(** What the script does to the page. *)
Inductive action : Type :=
| JsScroll (distance : Z)
| ScrollDown (distance : Z)
| ExpandReplies.

Record page : Type := {
  waits : nat;
  clock_reads : nat;
  position_reads : nat;
  captcha_checks : nat;
  captcha_prompts : nat;
  html_reads : nat;
  actions : list action
}.

Definition fresh_page : page :=
  {| waits := 0; clock_reads := 0; position_reads := 0; captcha_checks := 0;
     captcha_prompts := 0; html_reads := 0; actions := [] |}.

(** Locals of the scrolling part of [get_video_comments]. *)
Record scroll_vars : Type := {
  comments : list pyval;
  comment_ids : gset key;
  no_new_count : Z;
  scroll_round : Z;
  last_count : Z;
  stall_rounds : Z;
  last_log_time : Q;
  last_log_count : Z;
  last_scroll_pos : Z;
  scroll_failed_count : Z;
  found_new : bool;
  new_in_round : Z;
  verify_found : bool;
  final_found : bool
}.

Definition set_comments (x : list pyval) (v : scroll_vars) : scroll_vars :=
  {| comments := x; comment_ids := comment_ids v;
     no_new_count := no_new_count v; scroll_round := scroll_round v;
     last_count := last_count v; stall_rounds := stall_rounds v;
     last_log_time := last_log_time v; last_log_count := last_log_count v;
     last_scroll_pos := last_scroll_pos v;
     scroll_failed_count := scroll_failed_count v; found_new := found_new v;
     new_in_round := new_in_round v; verify_found := verify_found v;
     final_found := final_found v |}.

Definition set_comment_ids (x : gset key) (v : scroll_vars) : scroll_vars :=
  {| comments := comments v; comment_ids := x;
     no_new_count := no_new_count v; scroll_round := scroll_round v;
     last_count := last_count v; stall_rounds := stall_rounds v;
     last_log_time := last_log_time v; last_log_count := last_log_count v;
     last_scroll_pos := last_scroll_pos v;
     scroll_failed_count := scroll_failed_count v; found_new := found_new v;
     new_in_round := new_in_round v; verify_found := verify_found v;
     final_found := final_found v |}.

Definition set_no_new_count (x : Z) (v : scroll_vars) : scroll_vars :=
  {| comments := comments v; comment_ids := comment_ids v; no_new_count := x;
     scroll_round := scroll_round v; last_count := last_count v;
     stall_rounds := stall_rounds v; last_log_time := last_log_time v;
     last_log_count := last_log_count v;
     last_scroll_pos := last_scroll_pos v;
     scroll_failed_count := scroll_failed_count v; found_new := found_new v;
     new_in_round := new_in_round v; verify_found := verify_found v;
     final_found := final_found v |}.

Definition set_scroll_round (x : Z) (v : scroll_vars) : scroll_vars :=
  {| comments := comments v; comment_ids := comment_ids v;
     no_new_count := no_new_count v; scroll_round := x;
     last_count := last_count v; stall_rounds := stall_rounds v;
     last_log_time := last_log_time v; last_log_count := last_log_count v;
     last_scroll_pos := last_scroll_pos v;
     scroll_failed_count := scroll_failed_count v; found_new := found_new v;
     new_in_round := new_in_round v; verify_found := verify_found v;
     final_found := final_found v |}.

Definition set_last_count (x : Z) (v : scroll_vars) : scroll_vars :=
  {| comments := comments v; comment_ids := comment_ids v;
     no_new_count := no_new_count v; scroll_round := scroll_round v;
     last_count := x; stall_rounds := stall_rounds v;
     last_log_time := last_log_time v; last_log_count := last_log_count v;
     last_scroll_pos := last_scroll_pos v;
     scroll_failed_count := scroll_failed_count v; found_new := found_new v;
     new_in_round := new_in_round v; verify_found := verify_found v;
     final_found := final_found v |}.

Definition set_stall_rounds (x : Z) (v : scroll_vars) : scroll_vars :=
  {| comments := comments v; comment_ids := comment_ids v;
     no_new_count := no_new_count v; scroll_round := scroll_round v;
     last_count := last_count v; stall_rounds := x;
     last_log_time := last_log_time v; last_log_count := last_log_count v;
     last_scroll_pos := last_scroll_pos v;
     scroll_failed_count := scroll_failed_count v; found_new := found_new v;
     new_in_round := new_in_round v; verify_found := verify_found v;
     final_found := final_found v |}.

Definition set_last_log_time (x : Q) (v : scroll_vars) : scroll_vars :=
  {| comments := comments v; comment_ids := comment_ids v;
     no_new_count := no_new_count v; scroll_round := scroll_round v;
     last_count := last_count v; stall_rounds := stall_rounds v;
     last_log_time := x; last_log_count := last_log_count v;
     last_scroll_pos := last_scroll_pos v;
     scroll_failed_count := scroll_failed_count v; found_new := found_new v;
     new_in_round := new_in_round v; verify_found := verify_found v;
     final_found := final_found v |}.

Definition set_last_log_count (x : Z) (v : scroll_vars) : scroll_vars :=
  {| comments := comments v; comment_ids := comment_ids v;
     no_new_count := no_new_count v; scroll_round := scroll_round v;
     last_count := last_count v; stall_rounds := stall_rounds v;
     last_log_time := last_log_time v; last_log_count := x;
     last_scroll_pos := last_scroll_pos v;
     scroll_failed_count := scroll_failed_count v; found_new := found_new v;
     new_in_round := new_in_round v; verify_found := verify_found v;
     final_found := final_found v |}.

Definition set_last_scroll_pos (x : Z) (v : scroll_vars) : scroll_vars :=
  {| comments := comments v; comment_ids := comment_ids v;
     no_new_count := no_new_count v; scroll_round := scroll_round v;
     last_count := last_count v; stall_rounds := stall_rounds v;
     last_log_time := last_log_time v; last_log_count := last_log_count v;
     last_scroll_pos := x; scroll_failed_count := scroll_failed_count v;
     found_new := found_new v; new_in_round := new_in_round v;
     verify_found := verify_found v; final_found := final_found v |}.

Definition set_scroll_failed_count (x : Z) (v : scroll_vars) : scroll_vars :=
  {| comments := comments v; comment_ids := comment_ids v;
     no_new_count := no_new_count v; scroll_round := scroll_round v;
     last_count := last_count v; stall_rounds := stall_rounds v;
     last_log_time := last_log_time v; last_log_count := last_log_count v;
     last_scroll_pos := last_scroll_pos v; scroll_failed_count := x;
     found_new := found_new v; new_in_round := new_in_round v;
     verify_found := verify_found v; final_found := final_found v |}.

Definition set_found_new (x : bool) (v : scroll_vars) : scroll_vars :=
  {| comments := comments v; comment_ids := comment_ids v;
     no_new_count := no_new_count v; scroll_round := scroll_round v;
     last_count := last_count v; stall_rounds := stall_rounds v;
     last_log_time := last_log_time v; last_log_count := last_log_count v;
     last_scroll_pos := last_scroll_pos v;
     scroll_failed_count := scroll_failed_count v; found_new := x;
     new_in_round := new_in_round v; verify_found := verify_found v;
     final_found := final_found v |}.

Definition set_new_in_round (x : Z) (v : scroll_vars) : scroll_vars :=
  {| comments := comments v; comment_ids := comment_ids v;
     no_new_count := no_new_count v; scroll_round := scroll_round v;
     last_count := last_count v; stall_rounds := stall_rounds v;
     last_log_time := last_log_time v; last_log_count := last_log_count v;
     last_scroll_pos := last_scroll_pos v;
     scroll_failed_count := scroll_failed_count v; found_new := found_new v;
     new_in_round := x; verify_found := verify_found v;
     final_found := final_found v |}.

Definition set_verify_found (x : bool) (v : scroll_vars) : scroll_vars :=
  {| comments := comments v; comment_ids := comment_ids v;
     no_new_count := no_new_count v; scroll_round := scroll_round v;
     last_count := last_count v; stall_rounds := stall_rounds v;
     last_log_time := last_log_time v; last_log_count := last_log_count v;
     last_scroll_pos := last_scroll_pos v;
     scroll_failed_count := scroll_failed_count v; found_new := found_new v;
     new_in_round := new_in_round v; verify_found := x;
     final_found := final_found v |}.

Definition set_final_found (x : bool) (v : scroll_vars) : scroll_vars :=
  {| comments := comments v; comment_ids := comment_ids v;
     no_new_count := no_new_count v; scroll_round := scroll_round v;
     last_count := last_count v; stall_rounds := stall_rounds v;
     last_log_time := last_log_time v; last_log_count := last_log_count v;
     last_scroll_pos := last_scroll_pos v;
     scroll_failed_count := scroll_failed_count v; found_new := found_new v;
     new_in_round := new_in_round v; verify_found := verify_found v;
     final_found := x |}.

Section Scroll.

(** [self.max_comments], [self.driver], and the argument [expected_count]. *)
Context (rt : runtime) (max_comments : Z) (driver : browser) (expected_count : Z).

Definition is_large_comment : bool := 500 <? expected_count.
Definition max_scroll_rounds : Z := Z.max 300 (expected_count / 3).
Definition max_no_new_rounds : Z := if is_large_comment then 50 else 30.
Definition scroll_speed : Z := if is_large_comment then 150 else 100.

(** The browser calls. *)
Definition act {L : Type} (a : action) : M (page * L) unit :=
  modify (fun '(p, v) =>
    ({| waits := waits p; clock_reads := clock_reads p;
        position_reads := position_reads p; captcha_checks := captcha_checks p;
        captcha_prompts := captcha_prompts p; html_reads := html_reads p;
        actions := actions p ++ [a] |}, v)).

Definition js_scroll {L : Type} (distance : Z) : M (page * L) unit :=
  act (JsScroll distance).

Definition wait_packet {L : Type} : M (page * L) (option (outcome pyval)) :=
  fun '(p, v) =>
    (({| waits := S (waits p); clock_reads := clock_reads p;
         position_reads := position_reads p; captcha_checks := captcha_checks p;
         captcha_prompts := captcha_prompts p; html_reads := html_reads p;
         actions := actions p |}, v),
     result_of (listen_wait driver (waits p))).

Definition read_clock {L : Type} : M (page * L) Q :=
  fun '(p, v) =>
    (({| waits := waits p; clock_reads := S (clock_reads p);
         position_reads := position_reads p; captcha_checks := captcha_checks p;
         captcha_prompts := captcha_prompts p; html_reads := html_reads p;
         actions := actions p |}, v),
     Ret (time_time driver (clock_reads p))).

Definition read_scroll_position {L : Type} : M (page * L) Z :=
  fun '(p, v) =>
    (({| waits := waits p; clock_reads := clock_reads p;
         position_reads := S (position_reads p); captcha_checks := captcha_checks p;
         captcha_prompts := captcha_prompts p; html_reads := html_reads p;
         actions := actions p |}, v),
     Ret (get_scroll_position driver (position_reads p))).

Definition check_captcha {L : Type} : M (page * L) bool :=
  fun '(p, v) =>
    (({| waits := waits p; clock_reads := clock_reads p;
         position_reads := position_reads p; captcha_checks := S (captcha_checks p);
         captcha_prompts := captcha_prompts p; html_reads := html_reads p;
         actions := actions p |}, v),
     Ret (_check_captcha driver (captcha_checks p))).

Definition handle_captcha {L : Type} : M (page * L) unit :=
  fun '(p, v) =>
    (({| waits := waits p; clock_reads := clock_reads p;
         position_reads := position_reads p; captcha_checks := captcha_checks p;
         captcha_prompts := S (captcha_prompts p); html_reads := html_reads p;
         actions := actions p |}, v),
     result_of (_handle_captcha driver (captcha_prompts p))).

Definition read_end_marker {L : Type} : M (page * L) bool :=
  fun '(p, v) =>
    (({| waits := waits p; clock_reads := clock_reads p;
         position_reads := position_reads p; captcha_checks := captcha_checks p;
         captcha_prompts := captcha_prompts p; html_reads := S (html_reads p);
         actions := actions p |}, v),
     result_of (html_has_end_marker driver (html_reads p))).

(** [json_data = resp.response.body; if json_data and 'comments' in
    json_data: for comment in json_data['comments']]: the comments to visit. *)
Definition packet_comments (body : outcome pyval) : result (list pyval) :=
  let? json_data := result_of body in
  if negb (truthy json_data) then Ret [] else
  let? has := py_contains json_data "comments" in
  if negb has then Ret [] else
  let? new_comments := py_item json_data "comments" in
  py_iter new_comments.

(** [try: ... for comment in ...: item(comment) except: pass] *)
Definition read_packet (item : pyval -> M (page * scroll_vars) ctl) (body : outcome pyval)
  : M (page * scroll_vars) unit :=
  try_except (items <- lift (packet_comments body) ;; for_each item items)
             (fun _ => ret tt).

(** The three loop bodies that register a comment: in the round's polling,
    in the verification pass, and in the last check at the bottom. *)
Definition main_item (comment : pyval) : M (page * scroll_vars) ctl :=
  cid <- lift (py_get comment "cid" (PStr "")) ;;
  comment_id <- (if truthy cid then ret cid
                 else i <- lift (py_get comment "id" (PStr "")) ;;
                      ret (PStr (py_str rt i))) ;;
  if negb (truthy comment_id) then ret Next else
  k <- lift (py_hash comment_id) ;;
  seen <- local comment_ids ;;
  if bool_decide (k ∈ seen) then ret Next else
  assign (fun v => set_comment_ids ({[k]} ∪ comment_ids v) v) ;;;
  parsed <- lift (_parse_comment rt comment) ;;
  assign (fun v => set_comments (comments v ++ [parsed]) v) ;;;
  assign (set_found_new true) ;;;
  assign (fun v => set_new_in_round (new_in_round v + 1) v) ;;;
  ret Next.

Definition verify_item (comment : pyval) : M (page * scroll_vars) ctl :=
  cid <- lift (py_get comment "cid" (PStr "")) ;;
  if negb (truthy cid) then ret Next else
  k <- lift (py_hash cid) ;;
  seen <- local comment_ids ;;
  if bool_decide (k ∈ seen) then ret Next else
  assign (set_verify_found true) ;;;
  assign (fun v => set_comment_ids ({[k]} ∪ comment_ids v) v) ;;;
  parsed <- lift (_parse_comment rt comment) ;;
  assign (fun v => set_comments (comments v ++ [parsed]) v) ;;;
  ret Next.

Definition final_item (comment : pyval) : M (page * scroll_vars) ctl :=
  cid <- lift (py_get comment "cid" (PStr "")) ;;
  comment_id <- (if truthy cid then ret cid
                 else i <- lift (py_get comment "id" (PStr "")) ;;
                      ret (PStr (py_str rt i))) ;;
  if negb (truthy comment_id) then ret Next else
  k <- lift (py_hash comment_id) ;;
  seen <- local comment_ids ;;
  if bool_decide (k ∈ seen) then ret Next else
  assign (fun v => set_comment_ids ({[k]} ∪ comment_ids v) v) ;;;
  parsed <- lift (_parse_comment rt comment) ;;
  assign (fun v => set_comments (comments v ++ [parsed]) v) ;;;
  assign (set_final_found true) ;;;
  ret Next.

(** [for _ in range(10): resp = wait(); if not resp: break; try: ...] *)
Definition poll_main : M (page * scroll_vars) ctl :=
  resp <- wait_packet ;;
  match resp with
  | None => ret Break
  | Some body => read_packet main_item body ;;; ret Next
  end.

(** [for _ in range(5): resp = wait(); if resp: try: ...] *)
Definition poll_with (item : pyval -> M (page * scroll_vars) ctl) : M (page * scroll_vars) ctl :=
  resp <- wait_packet ;;
  match resp with
  | None => ret Next
  | Some body => read_packet item body ;;; ret Next
  end.

(** [if scroll_round % 10 == 0:] has the scrolling moved the page? *)
Definition check_scroll_effect : M (page * scroll_vars) unit :=
  r <- local scroll_round ;;
  if r mod 10 =? 0 then
    current_pos <- read_scroll_position ;;
    last <- local last_scroll_pos ;;
    (if current_pos <=? last + 10 then
       assign (fun v => set_scroll_failed_count (scroll_failed_count v + 1) v) ;;;
       failed <- local scroll_failed_count ;;
       if 2 <=? failed then
         act (ScrollDown 800) ;;;
         js_scroll 800 ;;;
         assign (set_scroll_failed_count 0)
       else ret tt
     else assign (set_scroll_failed_count 0)) ;;;
    assign (set_last_scroll_pos current_pos)
  else ret tt.

(** A step of the round either falls through ([None]) or decides how the
    round ends. *)
Definition and_then {S : Type} (m : M S (option ctl)) (k : M S ctl) : M S ctl :=
  o <- m ;;
  match o with
  | Some c => ret c
  | None => k
  end.

(** [if found_new: ... else: ...]; a solved captcha ends the round with
    [continue]. *)
Definition captcha_step : M (page * scroll_vars) (option ctl) :=
  found <- local found_new ;;
  if found : bool then assign (set_no_new_count 0) ;;; ret None
  else
    assign (fun v => set_no_new_count (no_new_count v + 1) v) ;;;
    n <- local no_new_count ;;
    if 10 <=? n then
      captcha <- check_captcha ;;
      if captcha : bool then
        handle_captcha ;;;
        assign (set_no_new_count 0) ;;;
        ret (Some Next)
      else ret None
    else ret None.

(** The verification pass taken when the progress line shows 100 %:
    [js_scroll(500)], five polls, [break] unless one of them brought an
    unseen comment. *)
Definition verification_pass : M (page * scroll_vars) (option ctl) :=
  js_scroll 500 ;;;
  assign (set_verify_found false) ;;;
  for_each (fun _ : nat => poll_with verify_item) (seq 0 5) ;;;
  found <- local verify_found ;;
  if found : bool then ret None else ret (Some Break).

(** The progress line: printed when two seconds have passed since the last
    one or twenty comments have come in; the verification hangs on it. *)
Definition log_due (time_since_log : Q) (new_since_log : Z) : bool :=
  Qle_bool 2 time_since_log || (20 <=? new_since_log).

Definition progress_step : M (page * scroll_vars) (option ctl) :=
  current_time <- read_clock ;;
  n <- local (fun v => len (comments v)) ;;
  logged_count <- local last_log_count ;;
  logged_time <- local last_log_time ;;
  if log_due (current_time - logged_time)%Q (n - logged_count) then
    assign (set_last_log_time current_time) ;;;
    assign (set_last_log_count n) ;;;
    if Qle_bool 100 (coverage n expected_count) then verification_pass
    else ret None
  else ret None.

(** [if scroll_round % 10 == 0:] has the number of comments moved? *)
Definition stall_step : M (page * scroll_vars) unit :=
  r <- local scroll_round ;;
  if r mod 10 =? 0 then
    n <- local (fun v => len (comments v)) ;;
    last <- local last_count ;;
    (if n =? last then
       assign (fun v => set_stall_rounds (stall_rounds v + 1) v) ;;;
       stalled <- local stall_rounds ;;
       if 2 <=? stalled then js_scroll 1000 else ret tt
     else assign (set_stall_rounds 0)) ;;;
    assign (set_last_count n)
  else ret tt.

(** [if scroll_round % 30 == 0: self._try_expand_replies()] *)
Definition expand_step : M (page * scroll_vars) unit :=
  r <- local scroll_round ;;
  if r mod 30 =? 0 then act ExpandReplies else ret tt.

(** [if no_new_count >= max_no_new_rounds:] the bottom of the list. *)
Definition bottom_step : M (page * scroll_vars) (option ctl) :=
  n <- local no_new_count ;;
  if max_no_new_rounds <=? n then
    marker <- read_end_marker ;;
    if marker : bool then ret (Some Break)
    else
      js_scroll 2000 ;;;
      assign (set_final_found false) ;;;
      for_each (fun _ : nat => poll_with final_item) (seq 0 5) ;;;
      found <- local final_found ;;
      if found : bool then assign (set_no_new_count 0) ;;; ret None
      else ret (Some Break)
  else ret None.

(** One pass of [while scroll_round < max_scroll_rounds and len(comments) <
    self.max_comments]. *)
Definition scroll_pass : M (page * scroll_vars) ctl :=
  assign (fun v => set_scroll_round (scroll_round v + 1) v) ;;;
  js_scroll scroll_speed ;;;
  check_scroll_effect ;;;
  assign (set_found_new false) ;;;
  assign (set_new_in_round 0) ;;;
  for_each (fun _ : nat => poll_main) (seq 0 10) ;;;
  and_then captcha_step (
  and_then progress_step (
  stall_step ;;;
  expand_step ;;;
  and_then bottom_step (
  stalled <- local stall_rounds ;;
  if 6 <=? stalled then ret Break else ret Next))).

Definition scroll_loop : M (page * scroll_vars) unit :=
  try_except
    (while_loop (Z.to_nat max_scroll_rounds)
       (fun s => (scroll_round (snd s) <? max_scroll_rounds)
                 && (len (comments (snd s)) <? max_comments))
       scroll_pass)
    (fun _ => ret tt).

(** The locals as the scrolling part finds them: the comments of the
    page's first load, and the counters at zero. *)
Definition scroll_vars_init (comments0 : list pyval) (ids0 : gset key) : scroll_vars :=
  {| comments := comments0; comment_ids := ids0;
     no_new_count := 0; scroll_round := 0; last_count := 0; stall_rounds := 0;
     last_log_time := 0; last_log_count := 0; last_scroll_pos := 0;
     scroll_failed_count := 0; found_new := false; new_in_round := 0;
     verify_found := false; final_found := false |}.

(** [get_video_comments] from [no_new_count = 0] to the end of the
    scrolling loop, given what the first load has collected. *)
Definition get_video_comments_scroll (comments0 : list pyval) (ids0 : gset key) (p : page)
  : (page * scroll_vars) * result (list pyval) :=
  (initial_scroll_pos <- read_scroll_position ;;
   assign (set_last_scroll_pos initial_scroll_pos) ;;;
   now <- read_clock ;;
   assign (set_last_log_time now) ;;;
   start_time <- read_clock ;;
   scroll_loop ;;;
   local comments) (p, scroll_vars_init comments0 ids0).

End Scroll.

End Drission.

(** ** crawl_mix_playwright.py *)

Module Playwright.

(** The dictionary [get_video_comments] builds for each scraped item. *)
Record comment_row : Type := {
  cid : pyval;
  text : pyval;
  text_with_emoji : pyval;
  user : pyval;
  user_id : pyval;
  user_url : pyval;
  digg_count : pyval;
  digg_count_text : pyval;
  create_time : pyval;
  time_text : pyval;
  ip_location : pyval;
  level : pyval;
  parent_cid : pyval;
  parent_user : pyval;
  reply_to_user : pyval
}.

(** Locals of the conversion loop. *)
Record convert_vars : Type := {
  comments : list comment_row;
  parent_cid_var : pyval;
  parent_username : pyval
}.

(** [l[:n]] *)
Definition py_slice_to {A : Type} (l : list A) (n : Z) : list A :=
  if 0 <=? n then firstn (Z.to_nat n) l
  else firstn (Z.to_nat (len l + n)) l.

(** [enumerate(l)] *)
Definition enumerate {A : Type} (l : list A) : list (Z * A) :=
  combine (map Z.of_nat (seq 0 (length l))) l.

Section Convert.

Context (rt : runtime) (max_comments : Z).

(** [str(abs(hash(f"{c.get('userId', '')}_{c['content']}_{c['timeText']}_{idx}")))] *)
Definition make_cid (c : pyval) (idx : Z) : result pyval :=
  let? uid := py_get c "userId" (PStr "") in
  let? content := py_item c "content" in
  let? time_text := py_item c "timeText" in
  let label := String.append (py_str rt uid)
                 (String.append "_"
                    (String.append (py_str rt content)
                       (String.append "_"
                          (String.append (py_str rt time_text)
                             (String.append "_" (py_str rt (PInt idx))))))) in
  Ret (PStr (py_str rt (PInt (Z.abs (str_hash rt label))))).

(** Body of [for idx, c in enumerate(raw_comments[:self.max_comments])]. *)
Definition convert_item (ic : Z * pyval) : M convert_vars ctl :=
  let '(idx, c) := ic in
  cid <- lift (make_cid c idx) ;;
  lvl <- lift (py_item c "level") ;;
  (if py_eq lvl (PInt 1) then
     username <- lift (py_item c "username") ;;
     modify (fun v => {| comments := comments v;
                         parent_cid_var := cid;
                         parent_username := username |})
   else ret tt) ;;;
  content <- lift (py_item c "content") ;;
  with_emoji <- lift (py_get c "contentWithEmoji" content) ;;
  username <- lift (py_item c "username") ;;
  user_id <- lift (py_get c "userId" (PStr "")) ;;
  user_url <- lift (py_get c "userUrl" (PStr "")) ;;
  like_count <- lift (py_item c "likeCount") ;;
  like_text <- lift (py_get c "likeText" (PStr "")) ;;
  time_text <- lift (py_item c "timeText") ;;
  publish_time <- lift (py_get c "publishTime" time_text) ;;
  ip_location <- lift (py_get c "ipLocation" (PStr "")) ;;
  lvl <- lift (py_item c "level") ;;
  parent <- gets parent_cid_var ;;
  parent_name <- gets parent_username ;;
  reply_to <- lift (py_get c "replyToUser" (PStr "")) ;;
  let is_reply := py_eq lvl (PInt 2) in
  modify (fun v =>
    {| comments := comments v ++
         [{| cid := cid;
             text := content;
             text_with_emoji := with_emoji;
             user := username;
             user_id := user_id;
             user_url := user_url;
             digg_count := like_count;
             digg_count_text := like_text;
             create_time := publish_time;
             time_text := time_text;
             ip_location := ip_location;
             level := lvl;
             parent_cid := if is_reply then parent else PStr "";
             parent_user := if is_reply then parent_name else PStr "";
             reply_to_user := reply_to |}];
       parent_cid_var := parent_cid_var v;
       parent_username := parent_username v |}) ;;;
  ret Next.

(** Body of [for c in raw_comments], which sorts the items into
    [level1_comments] and [level2_comments]: the two lists are only counted,
    but reading [c['level']] may raise. *)
Definition sort_item (c : pyval) : M convert_vars ctl :=
  lvl <- lift (py_item c "level") ;;
  ret Next.

(** The end of [get_video_comments]: from the scraped items to the rows,
    inside the method's [try ... except Exception]; [comments] is still
    empty when the items arrive. *)
Definition convert_comments (raw_comments : list pyval)
  : convert_vars * result (list comment_row) :=
  (try_except
     (for_each sort_item raw_comments ;;;
      for_each convert_item (enumerate (py_slice_to raw_comments max_comments)))
     (fun _ => ret tt) ;;;
   gets comments)
    {| comments := []; parent_cid_var := PStr ""; parent_username := PStr "" |}.

End Convert.

End Playwright.

(** * Reasoning about computations *)

(** [after m s post]: run from [s], the computation [m] ends in a state and
    with a result that satisfy [post]. *)
Inductive after {S A : Type} (m : M S A) (s : S) (post : S -> result A -> Prop) : Prop :=
| after_run : post (fst (m s)) (snd (m s)) -> after m s post.

(** * Properties named in the theorems *)

(** The rows' comment ids, as members of a Python set. *)
Definition api_row_keys (rows : list Api.comment_row) (ks : list key) : Prop :=
  Forall2 (fun row k => key_of (Api.comment_id row) = Some k) rows ks.

(** The dedup registry of [fetch_video_comments] mirrors the rows collected:
    one id per row, no id twice. *)
Definition api_registry_inv (v : Api.root_vars) : Prop :=
  exists ks, api_row_keys (Api.comments v) ks
             /\ NoDup ks
             /\ Api.comment_ids v = list_to_set ks.

(** * Worked scenarios *)

(** A run time for the scenarios: [str] renders scalars, no string parses
    as an integer, no time stamp can be rendered, and the hash of a string
    is its length. *)
Definition plain_runtime : runtime :=
  {| py_str := fun v =>
       match v with
       | PStr s => s
       | PInt z => pretty z
       | PBool true => "True"
       | PBool false => "False"
       | PNone => "None"
       | PList _ | PDict _ => ""
       end;
     int_of_str := fun _ => None;
     strftime_local := fun _ => None;
     str_hash := fun s => Z.of_nat (String.length s) |}.

(** A raw comment record and a page of the feed. *)
Definition raw_comment (cid : string) (reply_comment_total : Z) : pyval :=
  PDict [("cid", PStr cid); ("text", PStr "ok");
         ("reply_comment_total", PInt reply_comment_total)].

Definition feed_page (comments : list pyval) (has_more cursor : Z) : pyval :=
  PDict [("comments", PList comments); ("has_more", PInt has_more); ("cursor", PInt cursor)].

(** An end point that answers from a list, then with [None]. *)
Definition scripted (answers : list (outcome pyval)) (n : nat) : outcome pyval :=
  nth n answers (Returns PNone).

(** Two root pages that overlap: both deliver the comment "A". *)
Definition overlapping_feed : feed :=
  {| api_fetch_video_comments :=
       scripted [Returns (feed_page [raw_comment "A" 0] 1 1);
                 Returns (feed_page [raw_comment "A" 0] 0 2)];
     api_fetch_video_comments_reply := scripted [] |}.

(** Two answers of the feed that are pages carrying the same cursor
    ([new_cursor == cursor] holds between the second and the first). *)
Definition same_cursor (r1 r2 : outcome pyval) : Prop :=
  exists p1 p2 c1 c2,
    r1 = Returns p1 /\ r2 = Returns p2
    /\ py_get p1 "cursor" (PInt 0) = Ret c1
    /\ py_get p2 "cursor" (PInt 0) = Ret c2
    /\ py_eq c2 c1 = true.

(** The rows of a reply sub-fetch: at most [max_replies] of them, all of
    level 2. *)
Definition api_reply_rows_ok (max_replies : Z) (v : Api.reply_vars) : Prop :=
  len (Api.replies v) <= Z.max 0 max_replies
  /\ Forall (fun row => Api.level row = 2) (Api.replies v).

(** A root comment "A" that reports one reply, and a reply end point that
    supplies two. *)
Definition generous_reply_feed : feed :=
  {| api_fetch_video_comments :=
       scripted [Returns (feed_page [raw_comment "A" 1] 0 0)];
     api_fetch_video_comments_reply :=
       scripted [Returns (feed_page [raw_comment "B" 0; raw_comment "C" 0] 0 0)] |}.

(** A feed stuck on one cursor: every page, root or reply, carries one
    comment, [has_more = 1] and the cursor 7. *)
Definition stuck_feed : feed :=
  {| api_fetch_video_comments := fun _ => Returns (feed_page [raw_comment "A" 0] 1 7);
     api_fetch_video_comments_reply := fun _ => Returns (feed_page [raw_comment "B" 0] 1 7) |}.

(** A feed whose first root page holds zero items. *)
Definition empty_first_page_feed : feed :=
  {| api_fetch_video_comments := scripted [Returns (feed_page [] 0 0)];
     api_fetch_video_comments_reply := scripted [] |}.

(** A browser harvester that would deliver one comment. *)
Definition browser_with_one_comment (expected_count : Z)
  : M (world * unit) (option (list pyval)) :=
  ret (Some [raw_comment "A" 0]).

(** What [process_video] makes of a harvester's result. *)
Definition video_comments_of_api (r : result (list pyval)) : result Drission.video_comments :=
  match r with
  | Ret c => Ret {| Drission.harvested := c; Drission.video_not_exist := false |}
  | Raise e => Raise e
  | OutOfFuel => OutOfFuel
  end.

Definition video_comments_of_browser (r : result (option (list pyval)))
  : result Drission.video_comments :=
  match r with
  | Ret (Some c) => Ret {| Drission.harvested := c; Drission.video_not_exist := false |}
  | Ret None => Ret {| Drission.harvested := []; Drission.video_not_exist := true |}
  | Raise e => Raise e
  | OutOfFuel => OutOfFuel
  end.

(** An item as the page script of the Playwright crawler returns it. *)
Definition scraped_item (level : Z) (content : string) : pyval :=
  PDict [("level", PInt level); ("content", PStr content); ("timeText", PStr "1d");
         ("username", PStr "u"); ("likeCount", PInt 0)].

(** Every level-2 row is preceded by a level-1 row whose id is its parent
    id. *)
Definition complete_linked (nodes : list Complete.csv_row) : Prop :=
  forall i row,
    nodes !! i = Some row ->
    Complete.level row = 2 ->
    exists j root,
      (j < i)%nat /\ nodes !! j = Some root
      /\ Complete.level root = 1 /\ Complete.cid root = Complete.parent_id row.

(** Rows of level 2 under the parent [comment_id]. *)
Definition complete_replies_of (comment_id : pyval) (rows : list Complete.csv_row) : Prop :=
  Forall (fun row => Complete.level row = 2 /\ Complete.parent_id row = comment_id) rows.

(** A page without items, and a feed in which every failed call is replaced
    by such a page. *)
Definition empty_page : pyval := PDict [("comments", PList [])].

Definition as_empty_page (o : outcome pyval) : outcome pyval :=
  match o with
  | Throws _ => Returns empty_page
  | Returns v => Returns v
  end.

Definition absorbed (api : feed) : feed :=
  {| api_fetch_video_comments := fun n => as_empty_page (api_fetch_video_comments api n);
     api_fetch_video_comments_reply :=
       fun n => as_empty_page (api_fetch_video_comments_reply api n) |}.

(** An answer of an end point that is no page: the call raised (it timed
    out, the server refused), or what came back is not a dict. *)
Definition no_page (o : outcome pyval) : Prop :=
  match o with
  | Throws _ => True
  | Returns (PDict _) => False
  | Returns _ => True
  end.

(** The reply end point gives no page within [n] calls of any call: no
    reply sub-fetch can go on for [n] passes. *)
Definition replies_fail_within (api : feed) (n : nat) : Prop :=
  forall start : nat,
    exists k : nat, (k < n)%nat /\ no_page (api_fetch_video_comments_reply api (start + k)).

(** A feed that fails: a time-out on the second root call, a malformed page
    (a string) on the third, after a first page with the comment "A". *)
Definition failing_feed : feed :=
  {| api_fetch_video_comments :=
       scripted [Returns (feed_page [raw_comment "A" 2] 1 1);
                 Throws (UpstreamError "timed out");
                 Returns (PStr "<html>")];
     api_fetch_video_comments_reply :=
       scripted [Throws (UpstreamError "connection reset")] |}.

(** A [process_video] that raises on the second of three videos. *)
Definition process_video_failing_on_2 (video : nat) : Api.video_outcome :=
  if Nat.eqb video 2 then Api.Failed (UpstreamError "boom") else Api.Processed.



(** A packet of the comment list, as the listener hands it over. *)
Definition comment_packet (comments : list pyval) : option (outcome pyval) :=
  Some (Returns (PDict [("comments", PList comments)])).


(** A browser that brings one comment in the first round and another one
    during the verification pass; three seconds pass between two readings
    of the clock. *)
Definition slow_browser : Drission.browser :=
  {| Drission.listen_wait := fun n =>
       Returns (nth n [comment_packet [raw_comment "a" 0]; None;
                       comment_packet [raw_comment "b" 0]] None);
     Drission.time_time := fun n => (inject_Z (Z.of_nat n) * 3)%Q;
     Drission.get_scroll_position := fun n => Z.of_nat n * 100;
     Drission._check_captcha := fun _ => false;
     Drission._handle_captcha := fun _ => Returns tt;
     Drission.html_has_end_marker := fun _ => Returns false |}.


(** * More of the scripts

    Further functions of the four scripts, and the predicates their
    properties are stated with. *)

(** ** crawl_mix_api.py: the shape of a harvest *)

(** A thread in the list [fetch_video_comments] builds: the row of a root
    comment, then the rows of the replies attached to it (none when
    [fetch_replies] is off, at most 100 otherwise). *)
Definition api_thread (fetch_replies : bool) (rows : list Api.comment_row) : Prop :=
  exists root replies,
    rows = root :: replies
    /\ Api.level root = 1
    /\ Forall (fun reply => Api.level reply = 2) replies
    /\ len replies <= (if fetch_replies then 100 else 0).

(** The list is one thread after the other. *)
Definition api_threads (fetch_replies : bool) (rows : list Api.comment_row) : Prop :=
  exists threads,
    rows = concat threads /\ Forall (api_thread fetch_replies) threads.

Module ApiReport.

(** [sum(1 for c in comments if c.get('level', 1) == n)]: every row of
    [_parse_comment] has the key. *)
Definition count_level (n : Z) (comments : list Api.comment_row) : Z :=
  len (filter (fun c => Api.level c = n) comments).

(** The two counts [process_video] logs: [level1] is counted, [level2] is
    what is left of [actual_count]. *)
Definition process_video_levels (comments : list Api.comment_row) : Z * Z :=
  let actual_count := len comments in
  let level1 := count_level 1 comments in
  let level2 := actual_count - level1 in
  (level1, level2).

(** The ['stats'] entry [_save_json] writes. *)
Record json_stats : Type := {
  total_comments : Z;
  level1_comments : Z;
  level2_comments : Z
}.

Definition _save_json_stats (comments : list Api.comment_row) : json_stats :=
  {| total_comments := len comments;
     level1_comments := count_level 1 comments;
     level2_comments := count_level 2 comments |}.

End ApiReport.

(** [s.strip()] on a line typed at the prompt. *)
Definition str_strip (s : string) : string := rstrip (lstrip s).

(** ** File names

    Each script has a [sanitize_filename] of its own.  The name it is
    given is a Python [str], a sequence of Unicode code points: a title
    in Chinese has code points far above 255, and [len], the slice, [strip]
    and [replace] all count code points.  The literals of the scripts are
    ASCII. *)
Definition ustring : Type := list N.

(** The code points of an ASCII literal. *)
Definition codes (s : string) : ustring := map N_of_ascii (list_ascii_of_string s).

(** What [str.strip()] removes at both ends: the characters for which
    [str.isspace] holds, the white space of Unicode.  These are the
    controls 9 to 13 and 28 to 31, the space, U+0085, U+00A0, U+1680,
    U+2000 to U+200A, U+2028, U+2029, U+202F, U+205F and the ideographic
    space U+3000. *)
Definition u_isspace (c : N) : bool :=
  ((9 <=? c) && (c <=? 13) || (28 <=? c) && (c <=? 32) || (c =? 133) || (c =? 160)
   || (c =? 5760) || (8192 <=? c) && (c <=? 8202) || (c =? 8232) || (c =? 8233)
   || (c =? 8239) || (c =? 8287) || (c =? 12288))%N.

Fixpoint u_lstrip (s : ustring) : ustring :=
  match s with
  | [] => []
  | c :: s' => if u_isspace c then u_lstrip s' else s
  end.

Fixpoint u_rstrip (s : ustring) : ustring :=
  match s with
  | [] => []
  | c :: s' =>
      match u_rstrip s' with
      | [] => if u_isspace c then [] else [c]
      | r => c :: r
      end
  end.

(** [s.strip()] *)
Definition u_strip (s : ustring) : ustring := u_rstrip (u_lstrip s).

(** [s.replace(c, r)] for a pattern [c] of one character. *)
Fixpoint u_replace (c : N) (r : ustring) (s : ustring) : ustring :=
  match s with
  | [] => []
  | a :: s' =>
      if N.eqb a c then r ++ u_replace c r s' else a :: u_replace c r s'
  end.

(** [s or dflt] *)
Definition u_or (s dflt : ustring) : ustring :=
  match s with
  | [] => dflt
  | _ => s
  end.

(** [for ch in chars: name = name.replace(ch, r)] *)
Definition replace_each (chars : ustring) (r : ustring) (name : ustring) : ustring :=
  fold_left (fun name ch => u_replace ch r name) chars name.

Module ApiNames.

(** The characters of [invalid_chars]: the nine that no Windows file name
    may hold (code 34 is the double quote), then line feed, carriage return
    and tab. *)
Definition invalid_chars : ustring :=
  map N_of_ascii ["<"; ">"; ":"; "034"; "/"; "\"; "|"; "?"; "*"; "010"; "013"; "009"]%char.

Definition sanitize_filename (name : ustring) (max_length : Z) : ustring :=
  let name := replace_each invalid_chars [] name in
  let name := u_strip name in
  let name := if max_length <? len name then Playwright.py_slice_to name max_length
              else name in
  u_or name (codes "untitled").

End ApiNames.

(** The same function stands in crawl_mix_complete.py and in
    crawl_mix_playwright.py. *)
Module CompleteNames.

(** The characters of [invalid] (code 34 is the double quote). *)
Definition invalid : ustring :=
  map N_of_ascii ["\"; "/"; ":"; "*"; "?"; "034"; "<"; ">"; "|"]%char.

Definition sanitize_filename (name : ustring) (max_len : Z) : ustring :=
  let name := replace_each invalid (codes "_") name in
  let name := u_replace 13%N (codes " ") (u_replace 10%N (codes " ") (u_strip name)) in
  u_strip (u_or (Playwright.py_slice_to name max_len) (codes "untitled")).

End CompleteNames.

Module DrissionNames.

(** The character class of the pattern of [re.sub]: the nine characters
    above, line feed, carriage return and tab. *)
Definition invalid_class : ustring :=
  map N_of_ascii ["<"; ">"; ":"; "034"; "/"; "\"; "|"; "?"; "*"; "010"; "013"; "009"]%char.

Definition in_class (a : N) : bool := existsb (N.eqb a) invalid_class.

(** [re.sub] with a class of single characters: every character of the
    class becomes an underscore (code 95), the others stay. *)
Definition re_sub_class (name : ustring) : ustring :=
  map (fun a => if in_class a then 95%N else a) name.

Definition sanitize_filename (name : ustring) (max_len : Z) : ustring :=
  let clean_name := re_sub_class name in
  Playwright.py_slice_to clean_name max_len.

End DrissionNames.

(** A title in Chinese between two ideographic spaces, with a colon and a
    slash in it: U+3000, 抖 (U+6296), 音 (U+97F3), a colon, 合 (U+5408),
    a slash, 集 (U+96C6), U+3000.  And 丠 (U+4E20), whose last byte in
    UTF-8 is 0xA0. *)
Definition spaced_title : ustring :=
  [12288; 25238; 38899; 58; 21512; 47; 38598; 12288]%N.

Definition seven_characters : ustring :=
  [25238; 38899; 21512; 38598; 35780; 35770; 21306]%N.

(** ** Scenarios for the Drission crawler *)

(** A record the comment end point delivers although it is a reply: it
    carries a [reply_id]. *)
Definition reply_record : pyval :=
  PDict [("cid", PStr "R"); ("text", PStr "ok"); ("reply_id", PStr "77")].

Definition reply_in_root_feed : feed :=
  {| api_fetch_video_comments := scripted [Returns (feed_page [reply_record] 0 0)];
     api_fetch_video_comments_reply := scripted [] |}.

(** Between two states of the scrolling part of [get_video_comments]: the
    round counter is the same, and the rows collected are still there, in
    place, with new ones after them. *)
Definition scroll_keeps (s s' : Drission.page * Drission.scroll_vars) : Prop :=
  Drission.scroll_round (snd s') = Drission.scroll_round (snd s)
  /\ exists new, Drission.comments (snd s') = Drission.comments (snd s) ++ new.

(** A piece of the loop body that keeps the two and needs no fuel. *)
Definition scroll_tame {A : Type} (m : M (Drission.page * Drission.scroll_vars) A) : Prop :=
  forall s, after m s (fun s' r => scroll_keeps s s' /\ r <> OutOfFuel).

(** ** crawl_mix_playwright.py: the parent of a reply row *)

(** The id of the last level-1 row of [rows], or [parent] when there is
    none: what [parent_cid] holds after the conversion loop has gone
    through [rows], having started with [parent]. *)
Definition nearest_root_from (parent : pyval) (rows : list Playwright.comment_row) : pyval :=
  fold_left (fun parent row =>
               if py_eq (Playwright.level row) (PInt 1) then Playwright.cid row else parent)
            rows parent.

(** A row made from a scraped item: the text and the level are the
    item's. *)
Definition converted_from (row : Playwright.comment_row) (item : pyval) : Prop :=
  py_item item "content" = Ret (Playwright.text row)
  /\ py_item item "level" = Ret (Playwright.level row).

(** The parent ids of [rows], when the loop has started with [parent]: a
    level-2 row has the id of the nearest level-1 row before it, any other
    row has the empty string. *)
Definition parents_linked (parent : pyval) (rows : list Playwright.comment_row) : Prop :=
  forall i row,
    rows !! i = Some row ->
    Playwright.parent_cid row
    = if py_eq (Playwright.level row) (PInt 2)
      then nearest_root_from parent (take i rows)
      else PStr "".

(** ** crawl_mix_api.py: [fetch_mix_videos]

    [DouyinWebCrawler.fetch_user_mix_videos] is a third end point of the
    feed, answered call by call like the other two.  The state of the
    method is the number of calls made and its locals. *)

Module ApiMix.

Record mix_vars : Type := {
  videos : list pyval;
  cursor : pyval
}.

Section Videos.

(** [self.api.fetch_user_mix_videos] and the bound on the passes of
    [while True]. *)
Context (fetch_user_mix_videos : nat -> outcome pyval) (fuel : nat).

Definition await_fetch_user_mix_videos : M (nat * mix_vars) pyval :=
  fun '(n, v) => ((S n, v), result_of (fetch_user_mix_videos n)).

(** [item.get(outer, {}).get(inner, dflt)] *)
Definition get_in (item : pyval) (outer inner : string) (dflt : pyval) : result pyval :=
  let? sub := py_get item outer (PDict []) in
  py_get sub inner dflt.

(** The dictionary [video] built for one item. *)
Definition video_of (item aweme_id : pyval) (index : Z) : result pyval :=
  let? title := py_get item "desc" (PStr "") in
  let? author := get_in item "author" "nickname" (PStr "") in
  let? author_id := get_in item "author" "sec_uid" (PStr "") in
  let? create_time := py_get item "create_time" (PInt 0) in
  let? duration_ms := get_in item "video" "duration" (PInt 0) in
  let? duration := py_floordiv duration_ms 1000 in
  let? digg_count := get_in item "statistics" "digg_count" (PInt 0) in
  let? comment_count := get_in item "statistics" "comment_count" (PInt 0) in
  let? share_count := get_in item "statistics" "share_count" (PInt 0) in
  let? collect_count := get_in item "statistics" "collect_count" (PInt 0) in
  let? play_count := get_in item "statistics" "play_count" (PInt 0) in
  Ret (PDict [("index", PInt index);
              ("aweme_id", aweme_id);
              ("title", title);
              ("author", author);
              ("author_id", author_id);
              ("create_time", create_time);
              ("duration", duration);
              ("digg_count", digg_count);
              ("comment_count", comment_count);
              ("share_count", share_count);
              ("collect_count", collect_count);
              ("play_count", play_count)]).

(** Body of [for item in aweme_list]. *)
Definition mix_item (item : pyval) : M (nat * mix_vars) ctl :=
  aweme_id <- lift (py_get item "aweme_id" (PStr "")) ;;
  if negb (truthy aweme_id) then ret Next else
  n <- local (fun v => len (videos v)) ;;
  video <- lift (video_of item aweme_id (n + 1)) ;;
  assign (fun v => {| videos := videos v ++ [video]; cursor := cursor v |}) ;;;
  ret Next.

(** The [try] block inside [while True]. *)
Definition mix_page_try : M (nat * mix_vars) ctl :=
  resp <- await_fetch_user_mix_videos ;;
  if negb (truthy resp) then ret Break else
  aweme_list <- lift (py_get resp "aweme_list" (PList [])) ;;
  if negb (truthy aweme_list) then ret Break else
  items <- lift (py_iter aweme_list) ;;
  for_each mix_item items ;;;
  has_more <- lift (py_get resp "has_more" (PBool false)) ;;
  if negb (truthy has_more) then ret Break else
  new_cursor <- lift (py_get resp "cursor" (PInt 0)) ;;
  cur <- local cursor ;;
  if py_eq new_cursor cur then ret Break else
  assign (fun v => {| videos := videos v; cursor := new_cursor |}) ;;;
  ret Next.

(** ... with its [except Exception: break]. *)
Definition mix_page : M (nat * mix_vars) ctl :=
  try_except mix_page_try (fun _ => ret Break).

Definition fetch_mix_videos_body : M (nat * mix_vars) (list pyval) :=
  while_loop fuel (fun _ => true) mix_page ;;;
  local videos.

(** [fetch_mix_videos(mix_id)], run when the end point has answered
    [calls] times; [mix_id] only reaches the feed and the log. *)
Definition fetch_mix_videos (calls : nat) : (nat * mix_vars) * result (list pyval) :=
  fetch_mix_videos_body (calls, {| videos := []; cursor := PInt 0 |}).

End Videos.

End ApiMix.

(** The videos of a list carry their positions, counted from [first], as
    [index], and an [aweme_id] that is not empty. *)
Definition indexed_from (first : Z) (videos : list pyval) : Prop :=
  forall i video,
    videos !! i = Some video ->
    py_item video "index" = Ret (PInt (first + Z.of_nat i))
    /\ exists aweme_id, py_item video "aweme_id" = Ret aweme_id /\ truthy aweme_id = true.

(** Items of a collection, and an end point that delivers three of them,
    the second without an id. *)
Definition mix_video (aweme_id : string) : pyval :=
  PDict [("aweme_id", PStr aweme_id); ("desc", PStr "t")].

Definition mix_feed : nat -> outcome pyval :=
  scripted [Returns (PDict [("aweme_list",
                             PList [mix_video "v1"; mix_video ""; mix_video "v3"]);
                            ("has_more", PInt 0); ("cursor", PInt 0)])].

(** An end point stuck on one cursor: every page carries one video,
    [has_more = 1] and the cursor 7. *)
Definition stuck_mix_feed : nat -> outcome pyval :=
  fun _ => Returns (PDict [("aweme_list", PList [mix_video "v1"]);
                           ("has_more", PInt 1); ("cursor", PInt 7)]).

(** ** crawl_mix_api.py: [crawl_mix] *)

Module ApiRun.

(** [crawl_mix] from the list [fetch_mix_videos] has returned: nothing is
    done for an empty list; [videos[:limit]] when [limit > 0]; then the
    loop over the videos.  The result is the statistics and the videos
    attempted, in order. *)
Definition crawl_mix {V : Type} (process_video : V -> Api.video_outcome)
    (limit : Z) (videos : list V) (st : Api.stats) : Api.stats * list V :=
  match videos with
  | [] => (st, [])
  | _ :: _ =>
      let videos := if 0 <? limit then Playwright.py_slice_to videos limit else videos in
      Api.crawl_mix_loop process_video videos st []
  end.

End ApiRun.

(** A [process_video] that is interrupted on the second of its videos. *)
Definition process_video_interrupted_on_2 (video : nat) : Api.video_outcome :=
  if Nat.eqb video 2 then Api.KeyboardInterrupt else Api.Processed.

(** ** crawl_mix_complete.py: the rows of the CSV file *)

Module CompleteCsv.

(** The columns [save_csv] writes, in order. *)
Definition fieldnames : list string :=
  ["序号"; "视频ID"; "视频标题"; "视频描述"; "视频URL"; "发布时间"; "视频时长(s)";
   "作者昵称"; "作者ID"; "话题标签"; "@用户";
   "点赞数"; "收藏数"; "分享数"; "播放数"; "评论总数";
   "层级"; "评论ID"; "父评论ID"; "评论内容"; "评论用户"; "评论点赞"; "评论时间"].

(** The dictionary [format_comment_row] returns, in full: the columns of
    the video are empty strings, the level is [f"comment{level}"]. *)
Definition row_dict (rt : runtime) (row : Complete.csv_row) : pyval :=
  PDict [("序号", PStr "");
         ("视频ID", Complete.aweme_id row);
         ("视频标题", PStr "");
         ("视频描述", PStr "");
         ("视频URL", PStr "");
         ("发布时间", PStr "");
         ("视频时长(s)", PStr "");
         ("作者昵称", PStr "");
         ("作者ID", PStr "");
         ("话题标签", PStr "");
         ("@用户", PStr "");
         ("点赞数", PStr "");
         ("收藏数", PStr "");
         ("分享数", PStr "");
         ("播放数", PStr "");
         ("评论总数", PStr "");
         ("层级", PStr (String.append "comment" (py_str rt (PInt (Complete.level row)))));
         ("评论ID", Complete.cid row);
         ("父评论ID", Complete.parent_id row);
         ("评论内容", Complete.text row);
         ("评论用户", Complete.user row);
         ("评论点赞", Complete.digg_count row);
         ("评论时间", Complete.create_time row)].

(** [s.startswith(p)] *)
Definition py_startswith (v : pyval) (p : string) : result bool :=
  match v with
  | PStr s => Ret (is_prefix p s)
  | _ => Raise AttributeError
  end.

(** [{**a, **b}]: the entries of [a], each key of [b] set to the value it
    has in [b]. *)
Definition dict_merge (a b : list (string * pyval)) : list (string * pyval) :=
  fold_left (fun d kv => Drission.dict_set (fst kv) (snd kv) d) b a.

Definition py_merge (a b : pyval) : result pyval :=
  match a, b with
  | PDict x, PDict y => Ret (PDict (dict_merge x y))
  | _, _ => Raise TypeError
  end.

(** Body of [for c in comments]: the row appended for [c]. *)
Definition merge_item (video_meta c : pyval) : result pyval :=
  let? lvl := py_get c "层级" (PStr "") in
  let? is_comment := py_startswith lvl "comment" in
  if is_comment then py_merge video_meta c else Ret c.

Fixpoint merge_items (video_meta : pyval) (comments : list pyval) : result (list pyval) :=
  match comments with
  | [] => Ret []
  | c :: rest =>
      let? row := merge_item video_meta c in
      let? rows := merge_items video_meta rest in
      Ret (row :: rows)
  end.

(** [merge_video_and_comments(video_meta, comments)] *)
Definition merge_video_and_comments (video_meta : pyval) (comments : list pyval)
  : result (list pyval) :=
  let? rows := merge_items video_meta comments in
  Ret (video_meta :: rows).

(** The cells [save_csv] writes for a row:
    [{k: row.get(k, "") for k in fieldnames}]. *)
Definition csv_cells (row : pyval) : list (result pyval) :=
  map (fun k => py_get row k (PStr "")) fieldnames.

End CompleteCsv.

(** ** crawl_mix_drission.py: which videos [crawl_mix] takes *)

Module DrissionRun.

(** [l[lo:hi]] *)
Definition py_slice {A : Type} (l : list A) (lo hi : Z) : list A :=
  let n := len l in
  let norm := fun x => if x <? 0 then Z.max 0 (x + n) else Z.min x n in
  take (Z.to_nat (norm hi - norm lo)) (drop (Z.to_nat (norm lo)) l).

(** What a call of [input] gives: a line, an interrupt from the keyboard,
    or another exception. *)
Inductive typed : Type :=
| Line (s : string)
| Interrupted
| Failed (e : exn).

(** [int(s)] on a string *)
Definition read_int (rt : runtime) (s : string) : result Z :=
  match int_of_str rt s with
  | Some z => Ret z
  | None => Raise ValueError
  end.

(** The interactive choice: the two prompts inside [try], with
    [except ValueError] (back to all the videos) and
    [except KeyboardInterrupt] (the method returns: [None]). *)
Definition ask_range (rt : runtime) (total_count start_idx end_idx : Z)
    (first second : typed) : result (option (Z * Z)) :=
  let attempt : result (option (Z * Z)) :=
    match first with
    | Interrupted => Ret None
    | Failed e => Raise e
    | Line line1 =>
        let start_input := str_strip line1 in
        let? start_idx :=
          (if String.eqb start_input "" then Ret start_idx
           else let? n := read_int rt start_input in
                Ret (Z.max 1 (Z.min n total_count))) in
        match second with
        | Interrupted => Ret None
        | Failed e => Raise e
        | Line line2 =>
            let end_input := str_strip line2 in
            let? end_idx :=
              (if String.eqb end_input "" then Ret end_idx
               else let? n := read_int rt end_input in
                    Ret (Z.max start_idx (Z.min n total_count))) in
            Ret (Some (start_idx, end_idx))
        end
    end in
  match attempt with
  | Raise ValueError => Ret (Some (1, total_count))
  | other => other
  end.

(** The interval [start_idx .. end_idx] (1-based, both ends included). *)
Definition choose_range (rt : runtime) (headless : bool) (start end_ total_count : Z)
    (first second : typed) : result (option (Z * Z)) :=
  let start_idx := if 0 <? start then start else 1 in
  let end_idx := if 0 <? end_ then end_ else total_count in
  if (0 <? start) || (0 <? end_) then
    let start_idx := Z.max 1 (Z.min start_idx total_count) in
    let end_idx := Z.max start_idx (Z.min end_idx total_count) in
    Ret (Some (start_idx, end_idx))
  else if negb headless then ask_range rt total_count start_idx end_idx first second
  else Ret (Some (start_idx, end_idx)).

(** [for i, video in enumerate(videos): video['index'] = start_idx + i],
    from position [i] on. *)
Fixpoint reindex (start_idx i : Z) (videos : list pyval) : result (list pyval) :=
  match videos with
  | [] => Ret []
  | video :: rest =>
      let? video := Drission.py_setitem video "index" (PInt (start_idx + i)) in
      let? rest := reindex start_idx (i + 1) rest in
      Ret (video :: rest)
  end.

(** From the list [get_mix_videos] has returned to the list the loop of
    [crawl_mix] goes through; [None] when the method returns before the
    loop. *)
Definition select_videos (rt : runtime) (headless : bool) (start end_ : Z)
    (videos : list pyval) (first second : typed) : result (option (list pyval)) :=
  match videos with
  | [] => Ret None
  | _ :: _ =>
      let total_count := len videos in
      let? range := choose_range rt headless start end_ total_count first second in
      match range with
      | None => Ret None
      | Some (start_idx, end_idx) =>
          let videos := py_slice videos (start_idx - 1) end_idx in
          let? videos := reindex start_idx 0 videos in
          Ret (Some videos)
      end
  end.

End DrissionRun.

(** ** crawl_mix_complete.py: [verify_cookie] and [crawl_mix_complete] *)

Module CompleteRun.



(** Locals of [crawl_mix_complete]. *)
Record crawl_vars : Type := {
  cursor : pyval;
  page : Z;
  total_videos : Z
}.

(** What the run has done so far: the number of calls of
    [fetch_user_mix_videos], and the calls of [process_single_video] with
    their [video_index] and [video], in order. *)
Record crawl_world : Type := {
  mix_calls : nat;
  attempted : list (Z * pyval)
}.

Section Crawl.

(** The answers of [fetch_user_mix_videos], call by call; how the n-th call
    of [process_single_video] ends (it returns or it raises); and the bound
    on the passes of [while True]. *)
Context (fetch_user_mix_videos : nat -> outcome pyval)
        (process_single_video : nat -> outcome unit)
        (fuel : nat).

Definition await_fetch_user_mix_videos : M (crawl_world * crawl_vars) pyval :=
  fun '(w, v) =>
    (({| mix_calls := S (mix_calls w); attempted := attempted w |}, v),
     result_of (fetch_user_mix_videos (mix_calls w))).

Definition await_process_single_video (video : pyval) (video_index : Z)
  : M (crawl_world * crawl_vars) unit :=
  fun '(w, v) =>
    (({| mix_calls := mix_calls w;
         attempted := attempted w ++ [(video_index, video)] |}, v),
     result_of (process_single_video (length (attempted w)))).

(** Body of [for video in videos]. *)
Definition video_item (video : pyval) : M (crawl_world * crawl_vars) ctl :=
  assign (fun v => {| cursor := cursor v; page := page v;
                      total_videos := total_videos v + 1 |}) ;;;
  video_index <- local total_videos ;;
  await_process_single_video video video_index ;;;
  ret Next.

(** The [try] block inside [while True]. *)
Definition crawl_page_try : M (crawl_world * crawl_vars) ctl :=
  resp <- await_fetch_user_mix_videos ;;
  if negb (truthy resp) then ret Break else
  videos0 <- lift (py_get resp "aweme_list" PNone) ;;
  let videos := py_or videos0 (PList []) in
  if negb (truthy videos) then ret Break else
  items <- lift (py_iter videos) ;;
  for_each video_item items ;;;
  has_more <- lift (py_get resp "has_more" (PInt 0)) ;;
  new_cursor <- lift (py_get resp "cursor" (PInt 0)) ;;
  assign (fun v => {| cursor := new_cursor; page := page v;
                      total_videos := total_videos v |}) ;;;
  if negb (py_eq has_more (PInt 1)) then ret Break else
  assign (fun v => {| cursor := cursor v; page := page v + 1;
                      total_videos := total_videos v |}) ;;;
  ret Next.

(** ... with its [except Exception: break]. *)
Definition crawl_page : M (crawl_world * crawl_vars) ctl :=
  try_except crawl_page_try (fun _ => ret Break).

(** [crawl_mix_complete(mix_id, crawl_comments)], given the result of
    [verify_cookie].  The method returns nothing; what is handed back here
    is the [total_videos] it prints at the end (0 when the cookie is
    refused, where it returns before the loop). *)
Definition crawl_mix_complete (cookie_ok : bool)
  : (crawl_world * crawl_vars) * result Z :=
  (if negb cookie_ok then ret 0
   else while_loop fuel (fun _ => true) crawl_page ;;; local total_videos)
    ({| mix_calls := 0; attempted := [] |},
     {| cursor := PInt 0; page := 1; total_videos := 0 |}).

End Crawl.

End CompleteRun.

(** The calls of [process_single_video] are numbered from 1. *)
Definition numbered_from_1 (attempted : list (Z * pyval)) : Prop :=
  forall i video_index video,
    attempted !! i = Some (video_index, video) -> video_index = Z.of_nat i + 1.

(** The state of [crawl_mix_complete] between two videos, and after the
    loop: the counter is the number of calls, the calls are numbered, and
    no call that raises has been followed by another ([slack] is 1 once
    the loop is over, where the last call may be one that raised). *)
Definition crawl_state_ok (process_single_video : nat -> outcome unit) (slack : nat)
    (s : CompleteRun.crawl_world * CompleteRun.crawl_vars) : Prop :=
  CompleteRun.total_videos (snd s) = len (CompleteRun.attempted (fst s))
  /\ numbered_from_1 (CompleteRun.attempted (fst s))
  /\ forall k e,
       process_single_video k = Throws e ->
       (length (CompleteRun.attempted (fst s)) <= k + slack)%nat.

(** A collection of three videos on one page, and a
    [process_single_video] that raises on the second call. *)
Definition one_page_of_three : nat -> outcome pyval :=
  scripted [Returns (PDict [("aweme_list",
                             PList [mix_video "v1"; mix_video "v2"; mix_video "v3"]);
                            ("has_more", PInt 0); ("cursor", PInt 0)])].

Definition process_single_video_failing_on_second (n : nat) : outcome unit :=
  if Nat.eqb n 1 then Throws (UpstreamError "disk full") else Returns tt.

(** The row [row] is what [_parse_comment] makes of a record whose id, as
    the loops read it (its [cid], or [str(id)] where they fall back on
    it), has the hash key [k]: the element [comment_ids] holds for it. *)
Definition row_of_id (rt : runtime) (row : pyval) (k : key) : Prop :=
  exists comment comment_id,
    Drission._parse_comment rt comment = Ret row
    /\ py_hash comment_id = Ret k
    /\ (py_get comment "cid" (PStr "") = Ret comment_id
        \/ exists i, py_get comment "id" (PStr "") = Ret i
                     /\ comment_id = PStr (py_str rt i)).

(** Between two states of the scrolling part: rows were appended, one for
    each of as many ids, which are pairwise distinct, were not registered
    before and are registered now. *)
Definition scroll_grows (rt : runtime) (s s' : Drission.page * Drission.scroll_vars) : Prop :=
  exists (new : list pyval) (keys : list key),
    Drission.comments (snd s') = Drission.comments (snd s) ++ new
    /\ Forall2 (row_of_id rt) new keys
    /\ NoDup keys
    /\ (forall k, k ∈ keys -> k ∉ Drission.comment_ids (snd s))
    /\ Drission.comment_ids (snd s') = list_to_set keys ∪ Drission.comment_ids (snd s).

Definition scroll_neat (rt : runtime) {A : Type}
    (m : M (Drission.page * Drission.scroll_vars) A) : Prop :=
  forall s, after m s (fun s' _ => scroll_grows rt s s').

(** The same for the API strategy, whose id is the record's [cid] and
    whose rows get [level] 1: all rows answer, in order, to pairwise
    distinct ids, which are what [comment_ids] holds. *)
Definition api_row_of_id (rt : runtime) (row : pyval) (k : key) : Prop :=
  exists comment comment_id parsed,
    py_get comment "cid" (PStr "") = Ret comment_id
    /\ py_hash comment_id = Ret k
    /\ Drission._parse_comment rt comment = Ret parsed
    /\ Drission.py_setitem parsed "level" (PInt 1) = Ret row.

Definition api_rows_of_ids (rt : runtime) (v : Drission.api_vars) : Prop :=
  exists keys : list key,
    Forall2 (api_row_of_id rt) (Drission.api_comments v) keys
    /\ NoDup keys
    /\ Drission.api_comment_ids v = list_to_set keys.

(** One page with two records whose [text] is null and whose [cid]s are
    the number 5 and the string 5: two different ids for the set. *)
Definition similar_ids_feed : feed :=
  {| api_fetch_video_comments :=
       scripted [Returns (feed_page [PDict [("cid", PInt 5); ("text", PNone)];
                                     PDict [("cid", PStr "5"); ("text", PNone)]] 0 1)];
     api_fetch_video_comments_reply := scripted [] |}.

(** A browser that delivers the comments "a" and "b", then "b" again with
    "c". *)
Definition repeating_browser : Drission.browser :=
  {| Drission.listen_wait := fun n =>
       Returns (nth n [comment_packet [raw_comment "a" 0; raw_comment "b" 0];
                       comment_packet [raw_comment "b" 0; raw_comment "c" 0]] None);
     Drission.time_time := fun n => (inject_Z (Z.of_nat n) / 4)%Q;
     Drission.get_scroll_position := fun n => Z.of_nat n * 100;
     Drission._check_captcha := fun _ => false;
     Drission._handle_captcha := fun _ => Returns tt;
     Drission.html_has_end_marker := fun _ => Returns true |}.

(** * Rules for [after] *)

Lemma after_intro {S A : Type} (m : M S A) (s s' : S) (r : result A) (post : S -> result A -> Prop) :
  m s = (s', r) -> post s' r -> after m s post.
Proof. intros E H. constructor. by rewrite E. Qed.

Lemma after_elim {S A : Type} (m : M S A) (s s' : S) (r : result A) (post : S -> result A -> Prop) :
  after m s post -> m s = (s', r) -> post s' r.
Proof. intros [H] E. by rewrite E in H. Qed.

Lemma after_weaken {S A : Type} (m : M S A) (s : S) (post post' : S -> result A -> Prop) :
  after m s post -> (forall s' r, post s' r -> post' s' r) -> after m s post'.
Proof. intros [H] Hw. constructor. auto. Qed.

Lemma after_any {S A : Type} (m : M S A) (s : S) (post : S -> result A -> Prop) :
  (forall s' r, post s' r) -> after m s post.
Proof. intros H. constructor. auto. Qed.

Lemma after_ret {S A : Type} (a : A) (s : S) (post : S -> result A -> Prop) :
  post s (Ret a) -> after (ret a) s post.
Proof. by constructor. Qed.

Lemma after_lift {S A : Type} (r : result A) (s : S) (post : S -> result A -> Prop) :
  post s r -> after (lift r) s post.
Proof. by constructor. Qed.

Lemma after_gets {S A : Type} (f : S -> A) (s : S) (post : S -> result A -> Prop) :
  post s (Ret (f s)) -> after (gets f) s post.
Proof. by constructor. Qed.

Lemma after_modify {S : Type} (f : S -> S) (s : S) (post : S -> result unit -> Prop) :
  post (f s) (Ret tt) -> after (modify f) s post.
Proof. by constructor. Qed.

Lemma after_local {W L A : Type} (f : L -> A) (s : W * L) (post : W * L -> result A -> Prop) :
  post s (Ret (f (snd s))) -> after (local f) s post.
Proof. by constructor. Qed.

Lemma after_assign {W L : Type} (f : L -> L) (s : W * L) (post : W * L -> result unit -> Prop) :
  post (fst s, f (snd s)) (Ret tt) -> after (assign f) s post.
Proof. by constructor. Qed.

(** The rule for sequencing: the continuation runs only after a value. *)
Lemma after_bind {S A B : Type} (m : M S A) (k : A -> M S B) (s : S)
      (post : S -> result B -> Prop) :
  after m s (fun s' r =>
               match r with
               | Ret a => after (k a) s' post
               | Raise e => post s' (Raise e)
               | OutOfFuel => post s' OutOfFuel
               end) ->
  after (bind m k) s post.
Proof.
  intros [H]. constructor. unfold bind.
  destruct (m s) as [s' [a|e|]]; simpl in *; auto. by destruct H.
Qed.

Lemma after_try_except {S A : Type} (m : M S A) (h : exn -> M S A) (s : S)
      (post : S -> result A -> Prop) :
  after m s (fun s' r =>
               match r with
               | Raise e => after (h e) s' post
               | other => post s' other
               end) ->
  after (try_except m h) s post.
Proof.
  intros [H]. constructor. unfold try_except.
  destruct (m s) as [s' [a|e|]]; simpl in *; auto. by destruct H.
Qed.

(** A [for] loop with an invariant: [inv] holds whenever the body is about
    to run; the body re-establishes it when it falls through, and
    establishes [post] directly when it leaves the loop. *)
Lemma after_for_each {S X : Type} (body : X -> M S ctl) (items : list X)
      (inv : S -> Prop) (post : S -> result unit -> Prop) (s : S) :
  inv s ->
  (forall s0, inv s0 -> post s0 (Ret tt)) ->
  (forall x s0, x ∈ items -> inv s0 ->
     after (body x) s0 (fun s' r =>
       match r with
       | Ret Next => inv s'
       | Ret Break => post s' (Ret tt)
       | Raise e => post s' (Raise e)
       | OutOfFuel => post s' OutOfFuel
       end)) ->
  after (for_each body items) s post.
Proof.
  intros Hs Hdone Hbody. revert s Hs.
  induction items as [|x rest IH]; intros s Hs; simpl.
  - apply after_ret. auto.
  - apply after_bind.
    eapply after_weaken; [apply (Hbody x s); [left | done] |].
    intros s' [[|]|e|] H; simpl in *; auto.
    + apply IH; [|done]. intros y s0 Hy. apply Hbody. by right.
    + by apply after_ret.
Qed.

(** The same for [while]. *)
Lemma after_while_loop {S : Type} (fuel : nat) (cond : S -> bool) (body : M S ctl)
      (inv : S -> Prop) (post : S -> result unit -> Prop) (s : S) :
  inv s ->
  (forall s0, inv s0 -> cond s0 = false -> post s0 (Ret tt)) ->
  (forall s0, inv s0 -> cond s0 = true -> post s0 OutOfFuel) ->
  (forall s0, inv s0 -> cond s0 = true ->
     after body s0 (fun s' r =>
       match r with
       | Ret Next => inv s'
       | Ret Break => post s' (Ret tt)
       | Raise e => post s' (Raise e)
       | OutOfFuel => post s' OutOfFuel
       end)) ->
  after (while_loop fuel cond body) s post.
Proof.
  intros Hs Hexit Hfuel Hbody. revert s Hs.
  induction fuel as [|n IH]; intros s Hs.
  - constructor. simpl. destruct (cond s) eqn:Hc; simpl; auto.
  - destruct (cond s) eqn:Hc.
    + assert (after (c <- body ;;
                     match c with
                     | Next => while_loop n cond body
                     | Break => ret tt
                     end) s post) as [H].
      { apply after_bind.
        eapply after_weaken; [by apply Hbody |].
        intros s' [[|]|e|] H; simpl in *; auto.
        by apply after_ret. }
      constructor. simpl. by rewrite Hc.
    + constructor. simpl. rewrite Hc. simpl. auto.
Qed.

(** A call leaves the caller's locals alone. *)
Lemma after_call {W L L' A : Type} (init : L') (m : M (W * L') A) (s : W * L)
      (post : W * L -> result A -> Prop) :
  after m (fst s, init) (fun s' r => post (fst s', snd s) r) ->
  after (call init m) s post.
Proof.
  destruct s as [w l]. intros [H]. constructor. unfold call. cbn in *.
  destruct (m (w, init)) as [[w' l'] r]. cbn in *. auto.
Qed.

(** * crawl_mix_api.py: [_parse_comment] *)

Lemma py_get_ret_dict (v : pyval) (k : string) (dflt x : pyval) :
  py_get v k dflt = Ret x ->
  exists d, v = PDict d /\ x = default dflt (dict_lookup k d).
Proof. destruct v; simpl; intros; simplify_eq. eauto. Qed.

Lemma py_get_settled (v : pyval) (k : string) (dflt : pyval) :
  py_get v k dflt <> OutOfFuel.
Proof. by destruct v. Qed.

Lemma py_hash_ret (v : pyval) (k : key) : py_hash v = Ret k -> key_of v = Some k.
Proof. unfold py_hash. destruct (key_of v); intros; by simplify_eq. Qed.

Lemma api_parse_try_dict (rt : runtime) (d : list (string * pyval)) (lvl : Z) :
  match Api._parse_comment_try rt (PDict d) lvl with
  | Ret row => Api.level row = lvl
               /\ Api.comment_id row = default (PStr "") (dict_lookup "cid" d)
  | Raise _ => True
  | OutOfFuel => False
  end.
Proof.
  unfold Api._parse_comment_try, rbind, py_strip, py_gt, py_floordiv, py_get.
  repeat (case_match; simplify_eq/=; try done).
Qed.

Lemma api_parse_dict (rt : runtime) (d : list (string * pyval)) (lvl : Z) :
  exists row, Api._parse_comment rt (PDict d) lvl = Ret row
              /\ Api.level row = lvl
              /\ Api.comment_id row = default (PStr "") (dict_lookup "cid" d).
Proof.
  unfold Api._parse_comment.
  pose proof (api_parse_try_dict rt d lvl) as H.
  destruct (Api._parse_comment_try rt (PDict d) lvl) as [row|e|]; [|simpl|done].
  - destruct H. eauto.
  - eauto.
Qed.

(** What the harvesting loops use: once [comment.get('cid', '')] has given
    [cid], parsing gives a row with that id and the level asked for. *)
Lemma api_parse_after_cid (rt : runtime) (comment cid : pyval) (lvl : Z) :
  py_get comment "cid" (PStr "") = Ret cid ->
  exists row, Api._parse_comment rt comment lvl = Ret row
              /\ Api.level row = lvl /\ Api.comment_id row = cid.
Proof.
  intros (d & -> & ->)%py_get_ret_dict.
  destruct (api_parse_dict rt d lvl) as (row & ? & ? & ?). eauto.
Qed.

(** C10.  [_parse_comment] is total on dictionaries: whatever the fields of
    [comment] hold (missing, null, of the wrong type), it returns a row and
    raises nothing, and the row's [level] is the [level] it was called
    with. *)
Theorem api_parse_comment_total (rt : runtime) (comment : list (string * pyval)) (level : Z) :
  exists row, Api._parse_comment rt (PDict comment) level = Ret row
              /\ Api.level row = level.
Proof.
  destruct (api_parse_dict rt comment level) as (row & ? & ? & _). eauto.
Qed.
Ltac run_step :=
  lazymatch goal with
  | |- after (bind _ _) _ _ => apply after_bind
  | |- after (ret _) _ _ => apply after_ret
  | |- after (lift _) _ _ => apply after_lift
  | |- after (local _) _ _ => apply after_local
  | |- after (assign _) _ _ => apply after_assign
  | |- after (gets _) _ _ => apply after_gets
  | |- after (modify _) _ _ => apply after_modify
  | |- after (if ?b then _ else _) _ _ => destruct b eqn:?
  | |- match ?r with Ret _ => _ | Raise _ => _ | OutOfFuel => _ end => destruct r eqn:?
  end; cbn beta iota.

Ltac run := repeat run_step.

Lemma api_registry_inv_cursor (v : Api.root_vars) (c : pyval) :
  api_registry_inv v ->
  api_registry_inv {| Api.comments := Api.comments v;
                      Api.comment_ids := Api.comment_ids v;
                      Api.cursor := c |}.
Proof. by intros (ks & ? & ? & ?); exists ks. Qed.

Lemma api_registry_inv_add (v : Api.root_vars) (row : Api.comment_row) (k : key) (c : pyval) :
  api_registry_inv v ->
  key_of (Api.comment_id row) = Some k ->
  k ∉ Api.comment_ids v ->
  api_registry_inv {| Api.comments := Api.comments v ++ [row];
                      Api.comment_ids := {[k]} ∪ Api.comment_ids v;
                      Api.cursor := c |}.
Proof.
  intros (ks & Hrows & Hnd & Hset) Hk Hfresh. exists (ks ++ [k]). simpl.
  split; [|split].
  - apply Forall2_app; [done|]. by constructor.
  - apply NoDup_app. split; [done|]. split; [|apply NoDup_singleton].
    intros x Hx ->%list_elem_of_singleton. apply Hfresh. rewrite Hset.
    by apply elem_of_list_to_set.
  - rewrite Hset, list_to_set_app_L. simpl.
    rewrite (right_id_L ∅ (∪)). apply (comm_L (∪)).
Qed.

Section ApiInv.
Context (rt : runtime) (max_comments : Z) (fetch_replies : bool) (api : feed) (fuel : nat).

(** The reply sub-fetch works on locals of its own. *)
Lemma api_fetch_comment_replies_frame {L : Type} (expected_count : pyval) (s : world * L)
      (post : world * L -> result (list Api.comment_row) -> Prop) :
  (forall w r, post (w, snd s) r) ->
  after (Api.fetch_comment_replies rt api fuel expected_count) s post.
Proof.
  intros H. unfold Api.fetch_comment_replies. run; [|destruct s; apply H..].
  apply after_call, after_any. intros s' r. apply H.
Qed.

Lemma api_attach_reply_inv (reply : Api.comment_row) (s : world * Api.root_vars) :
  api_registry_inv (snd s) ->
  after (Api.attach_reply reply) s (fun s' r => api_registry_inv (snd s') /\ r <> Ret Break).
Proof.
  intros Hinv. unfold Api.attach_reply. run; try done.
  split; [|done]. destruct s as [w v]. cbn in *.
  match goal with H : py_hash _ = _ |- _ => apply py_hash_ret in H end.
  match goal with H : bool_decide _ = false |- _ => apply bool_decide_eq_false in H end.
  by apply (api_registry_inv_add v reply _ (Api.cursor v)).
Qed.

Lemma api_root_item_inv (comment : pyval) (s : world * Api.root_vars) :
  api_registry_inv (snd s) ->
  after (Api.root_item rt max_comments fetch_replies api fuel comment) s
        (fun s' _ => api_registry_inv (snd s')).
Proof.
  intros Hinv. unfold Api.root_item.
  repeat first
    [ lazymatch goal with
      | |- match Api._parse_comment _ ?c _ with _ => _ end =>
          match goal with
          | H : py_get c "cid" _ = Ret ?x |- _ =>
              destruct (api_parse_after_cid rt c x 1 H) as (? & -> & ? & ?); cbn beta iota
          end
      | |- after (Api.fetch_comment_replies _ _ _ _) _ _ =>
          apply api_fetch_comment_replies_frame; intros ? [?| |]; cbn beta iota
      | |- after (for_each Api.attach_reply _) _ _ =>
          apply after_for_each with (inv := fun s0 => api_registry_inv (snd s0));
          [ | intros ? ? | intros ? ? ? ?; eapply after_weaken;
                           [by apply api_attach_reply_inv | intros ? [[|]| |] [? ?]; done] ]
      end
    | run_step ];
  cbn in *; try done.
  all: apply api_registry_inv_add; [done | | by eapply bool_decide_eq_false_1].
  all: match goal with H : Api.comment_id _ = _ |- _ => rewrite H end.
  all: by apply py_hash_ret.
Qed.

Lemma api_root_page_inv (s : world * Api.root_vars) :
  api_registry_inv (snd s) ->
  after (Api.root_page rt max_comments fetch_replies api fuel) s
        (fun s' _ => api_registry_inv (snd s')).
Proof.
  intros Hinv. unfold Api.root_page, Api.root_page_try, await_fetch_video_comments.
  apply after_try_except, after_bind. constructor.
  destruct s as [w v]. cbn in *.
  destruct (api_fetch_video_comments api (root_calls w)) as [resp|e];
    [|by apply after_ret].
  repeat first
    [ lazymatch goal with
      | |- after (for_each (Api.root_item _ _ _ _ _) _) _ _ =>
          apply after_for_each with (inv := fun s0 => api_registry_inv (snd s0));
          [ | intros ? ? | intros ? ? ? ?; eapply after_weaken;
                           [by apply api_root_item_inv | intros ? [[|]|?|] ?] ]
      end
    | run_step ];
  cbn in *; try done.
  all: by apply api_registry_inv_cursor.
Qed.

Lemma api_fetch_video_comments_body_inv (s : world * Api.root_vars) :
  api_registry_inv (snd s) ->
  after (Api.fetch_video_comments_body rt max_comments fetch_replies api fuel) s
        (fun s' r => api_registry_inv (snd s')
                     /\ forall nodes, r = Ret nodes -> nodes = Api.comments (snd s')).
Proof.
  intros Hinv. unfold Api.fetch_video_comments_body.
  apply after_bind.
  apply after_while_loop with (inv := fun s0 => api_registry_inv (snd s0)); [done|..].
  - intros s0 H0 _. apply after_local. split; [done|]. by intros ? [= <-].
  - done.
  - intros s0 H0 _. eapply after_weaken; [by apply api_root_page_inv|].
    intros s' [[|]|e|] H; cbn; try done.
    apply after_local. split; [done|]. by intros ? [= <-].
Qed.

End ApiInv.

Lemma api_registry_inv_empty : api_registry_inv Api.empty_root_vars.
Proof. exists []. split; [constructor|]. split; [constructor|done]. Qed.

(** * C1: no comment id twice *)

(** C1, as the code has it.  When [DouyinAPICrawler.fetch_video_comments]
    returns, the comment ids of the rows are pairwise distinct: the number of
    rows is the number of distinct ids, and it is the size of the dedup set
    [comment_ids], root comments and replies alike, whatever the feed
    delivers. *)
Theorem api_fetch_video_comments_no_duplicates
    (rt : runtime) (max_comments : Z) (fetch_replies : bool) (api : feed) (fuel : nat)
    (w : world) (st : world * Api.root_vars) (nodes : list Api.comment_row) :
  Api.fetch_video_comments rt max_comments fetch_replies api fuel w = (st, Ret nodes) ->
  exists ks, api_row_keys nodes ks
             /\ NoDup ks
             /\ length nodes = size (list_to_set ks : gset key)
             /\ length nodes = size (Api.comment_ids (snd st)).
Proof.
  intros Hrun.
  pose proof (api_fetch_video_comments_body_inv rt max_comments fetch_replies api fuel
                (w, Api.empty_root_vars) api_registry_inv_empty) as Hafter.
  apply (after_elim _ _ _ _ _ Hafter) in Hrun as [(ks & Hrows & Hnd & Hset) Hnodes].
  rewrite (Hnodes nodes eq_refl). exists ks.
  assert (length (Api.comments (snd st)) = size (list_to_set ks : gset key)) as Hlen.
  { rewrite size_list_to_set by done. by eapply Forall2_length. }
  repeat split; try done. by rewrite Hset.
Qed.

Lemma api_fetch_video_comments_no_duplicates_witness :
  exists st nodes ks,
    Api.fetch_video_comments plain_runtime 1000 true overlapping_feed 10 fresh_world
    = (st, Ret nodes)
    /\ length nodes = 1%nat
    /\ api_row_keys nodes ks
    /\ NoDup ks
    /\ length nodes = size (list_to_set ks : gset key)
    /\ length nodes = size (Api.comment_ids (snd st)).
Proof.
  pose (run := Api.fetch_video_comments plain_runtime 1000 true overlapping_feed 10 fresh_world).
  assert (exists nodes, run = (fst run, Ret nodes) /\ length nodes = 1%nat) as (nodes & Hrun & Hlen).
  { vm_compute. eexists. split; reflexivity. }
  destruct (api_fetch_video_comments_no_duplicates _ _ _ _ _ _ _ _ Hrun) as (ks & H).
  exists (fst run), nodes, ks. split; [exact Hrun|]. split; [exact Hlen|exact H].
Defined.

(** C1 fails for [MixCrawler.get_all_comments], which keeps no dedup set:
    two overlapping pages give the id "A" twice. *)
Lemma complete_get_all_comments_repeats_ids :
  exists nodes,
    snd (Complete.get_all_comments plain_runtime 1000 overlapping_feed 10 fresh_world)
    = Ret nodes
    /\ map Complete.cid nodes = [PStr "A"; PStr "A"]
    /\ length nodes = 2%nat
    /\ size (list_to_set [KStr "A"; KStr "A"] : gset key) = 1%nat.
Proof. vm_compute. eexists. repeat split. Qed.

(** * C4: the bound on the reply sub-fetch *)

Lemma len_app {A : Type} (l1 l2 : list A) : len (l1 ++ l2) = len l1 + len l2.
Proof. unfold len. rewrite length_app. lia. Qed.

Lemma len_nonneg {A : Type} (l : list A) : 0 <= len l.
Proof. unfold len. lia. Qed.

Ltac bool_to_Z :=
  repeat match goal with
         | H : (_ <=? _) = true |- _ => apply Z.leb_le in H
         | H : (_ <=? _) = false |- _ => apply Z.leb_gt in H
         | H : (_ <? _) = true |- _ => apply Z.ltb_lt in H
         | H : (_ <? _) = false |- _ => apply Z.ltb_ge in H
         end.

Ltac len_lia :=
  unfold len in *; rewrite ?length_app in *; cbn [length] in *; lia.

Section ApiReplies.
Context (rt : runtime) (api : feed) (fuel : nat).

Lemma api_reply_item_bound (max_replies : Z) (reply : pyval) (s : world * Api.reply_vars) :
  len (Api.replies (snd s)) < max_replies ->
  Forall (fun row => Api.level row = 2) (Api.replies (snd s)) ->
  after (Api.reply_item rt max_replies reply) s
        (fun s' r => api_reply_rows_ok max_replies (snd s')
                     /\ (r = Ret Next -> len (Api.replies (snd s')) < max_replies)).
Proof.
  intros Hlen Hlvl. unfold Api.reply_item, api_reply_rows_ok.
  repeat first
    [ lazymatch goal with
      | |- match Api._parse_comment _ ?c _ with _ => _ end =>
          match goal with
          | H : py_get c "cid" _ = Ret ?x |- _ =>
              destruct (api_parse_after_cid rt c x 2 H) as (? & -> & ? & ?); cbn beta iota
          end
      end
    | run_step ];
  cbn in *; bool_to_Z; split_and?; try done; try len_lia; try (intros _; len_lia).
  all: apply Forall_app; split; [done|]; by constructor.
Qed.

Lemma api_reply_items_bound (max_replies : Z) (items : list pyval) (s : world * Api.reply_vars) :
  len (Api.replies (snd s)) < max_replies ->
  Forall (fun row => Api.level row = 2) (Api.replies (snd s)) ->
  after (for_each (Api.reply_item rt max_replies) items) s
        (fun s' _ => api_reply_rows_ok max_replies (snd s')).
Proof.
  intros Hlen Hlvl.
  apply after_for_each with
    (inv := fun s0 => len (Api.replies (snd s0)) < max_replies
                      /\ Forall (fun row => Api.level row = 2) (Api.replies (snd s0)));
    [done|..].
  - intros s0 [? ?]. split; [lia|done].
  - intros x s0 _ [? ?].
    eapply after_weaken; [by apply api_reply_item_bound|].
    intros s' [[|]|e|] [Hok Hnext]; cbn; try done.
    split; [by apply Hnext | by destruct Hok].
Qed.

Lemma api_reply_page_bound (max_replies : Z) (s : world * Api.reply_vars) :
  len (Api.replies (snd s)) < max_replies ->
  Forall (fun row => Api.level row = 2) (Api.replies (snd s)) ->
  after (Api.reply_page rt api max_replies) s
        (fun s' _ => api_reply_rows_ok max_replies (snd s')).
Proof.
  intros Hlen Hlvl.
  assert (api_reply_rows_ok max_replies (snd s)) as Hok by (split; [lia|done]).
  unfold Api.reply_page, Api.reply_page_try, await_fetch_video_comments_reply.
  apply after_try_except, after_bind. constructor.
  destruct s as [w v]. cbn in *.
  destruct (api_fetch_video_comments_reply api (reply_calls w)) as [resp|e];
    [|by apply after_ret].
  repeat first
    [ lazymatch goal with
      | |- after (for_each (Api.reply_item _ _) _) _ _ =>
          eapply after_weaken;
          [by apply api_reply_items_bound | intros ? [[]|?|] ?; cbn beta iota]
      end
    | run_step ];
  cbn in *; done.
Qed.

Lemma api_fetch_comment_replies_body_bound (max_replies : Z) (s : world * Api.reply_vars) :
  api_reply_rows_ok max_replies (snd s) ->
  after (Api.fetch_comment_replies_body rt api fuel max_replies) s
        (fun s' r => forall rows, r = Ret rows ->
                                  len rows <= Z.max 0 max_replies
                                  /\ Forall (fun row => Api.level row = 2) rows).
Proof.
  intros Hok. unfold Api.fetch_comment_replies_body.
  apply after_bind.
  apply after_while_loop with (inv := fun s0 => api_reply_rows_ok max_replies (snd s0));
    [done|..].
  - intros s0 H0 _. apply after_local. by intros ? [= <-].
  - done.
  - intros s0 [? ?] Hc. bool_to_Z.
    eapply after_weaken; [by apply api_reply_page_bound|].
    intros s' [[|]|e|] H'; cbn; try done.
    apply after_local. by intros ? [= <-].
Qed.

End ApiReplies.

(** C4, as the code has it.  For a root comment whose reported reply count
    is [r > 0], [DouyinAPICrawler.fetch_comment_replies] returns at most
    [min(r, 100)] rows, all of level 2, however many replies the feed
    supplies; so never more than 100. *)
Theorem api_fetch_comment_replies_bounded {L : Type}
    (rt : runtime) (api : feed) (fuel : nat) (expected_count : pyval) (r : Z)
    (s s' : world * L) (replies : list Api.comment_row) :
  as_num expected_count = Some r ->
  0 < r ->
  Api.fetch_comment_replies rt api fuel expected_count s = (s', Ret replies) ->
  len replies <= Z.min r 100
  /\ len replies <= 100
  /\ Forall (fun row => Api.level row = 2) replies.
Proof.
  intros Hr Hpos Hrun.
  assert (after (Api.fetch_comment_replies rt api fuel expected_count) s
            (fun _ res => forall rows, res = Ret rows ->
                                       len rows <= Z.max 0 (Z.min r 100)
                                       /\ Forall (fun row => Api.level row = 2) rows))
    as Hafter.
  { unfold Api.fetch_comment_replies, py_min_100. rewrite Hr.
    apply after_bind, after_lift, after_call.
    eapply after_weaken; [apply api_fetch_comment_replies_body_bound|done].
    split; [cbn [snd Api.replies]; len_lia|constructor]. }
  pose proof (after_elim _ _ _ _ _ Hafter Hrun) as Hrows. cbn beta in Hrows.
  destruct (Hrows replies eq_refl) as [Hlen Hlvl].
  split_and!; [lia|lia|done].
Qed.

Lemma api_fetch_comment_replies_bounded_witness :
  exists s' replies,
    Api.fetch_comment_replies plain_runtime generous_reply_feed 10 (PInt 1) (fresh_world, tt)
    = (s', Ret replies)
    /\ len replies <= Z.min 1 100
    /\ len replies <= 100
    /\ Forall (fun row => Api.level row = 2) replies.
Proof.
  pose (run := Api.fetch_comment_replies plain_runtime generous_reply_feed 10 (PInt 1)
                 (fresh_world, tt)).
  assert (exists replies, run = (fst run, Ret replies)) as (replies & Hrun).
  { vm_compute. eexists. reflexivity. }
  exists (fst run), replies. split; [exact Hrun|].
  apply (api_fetch_comment_replies_bounded plain_runtime generous_reply_feed 10 (PInt 1) 1
           (fresh_world, tt) (fst run) replies); [reflexivity | lia | exact Hrun].
Defined.

(** C4 fails for [MixCrawler.get_comment_replies], whose bound is what is
    left of the cap, not the reported reply count: the root "A" reports one
    reply and gets two. *)
Lemma complete_get_comment_replies_exceeds_reply_count :
  exists nodes,
    snd (Complete.get_all_comments plain_runtime 1000 generous_reply_feed 10 fresh_world)
    = Ret nodes
    /\ map Complete.cid nodes = [PStr "A"; PStr "B"; PStr "C"]
    /\ map Complete.level nodes = [1; 2; 2]
    /\ map Complete.parent_id nodes = [PStr ""; PStr "A"; PStr "A"]
    /\ Z.min 1 100 < 2.
Proof. vm_compute. eexists. repeat split. Qed.

(** * C3: a repeated cursor ends the pagination *)

Lemma after_while_exit {St : Type} (fuel : nat) (cond : St -> bool) (body : M St ctl)
      (s : St) (post : St -> result unit -> Prop) :
  cond s = false -> post s (Ret tt) -> after (while_loop fuel cond body) s post.
Proof. intros Hc H. constructor. destruct fuel; simpl; by rewrite Hc. Qed.

Lemma after_while_starved {St : Type} (cond : St -> bool) (body : M St ctl)
      (s : St) (post : St -> result unit -> Prop) :
  cond s = true -> post s OutOfFuel -> after (while_loop 0 cond body) s post.
Proof. intros Hc H. constructor. simpl. by rewrite Hc. Qed.

Lemma after_while_step {St : Type} (n : nat) (cond : St -> bool) (body : M St ctl)
      (s : St) (post : St -> result unit -> Prop) :
  cond s = true ->
  after body s (fun s' r =>
    match r with
    | Ret Next => after (while_loop n cond body) s' post
    | Ret Break => post s' (Ret tt)
    | Raise e => post s' (Raise e)
    | OutOfFuel => post s' OutOfFuel
    end) ->
  after (while_loop (S n) cond body) s post.
Proof.
  intros Hc H.
  assert (after (c <- body ;;
                 match c with
                 | Next => while_loop n cond body
                 | Break => ret tt
                 end) s post) as [H'].
  { apply after_bind. eapply after_weaken; [exact H|].
    intros s' [[|]|e|] Hr; cbn; auto. by apply after_ret. }
  constructor. simpl. by rewrite Hc.
Qed.

(** The argument, once for both loops.  [calls] counts the calls of the end
    point the loop drives, [cur] is the loop's cursor, and one pass of the
    loop makes one call; it goes on to a next pass only with the cursor of
    the page it has just read, and only if that cursor differs from the one
    it held.  [ok] says that nothing inside a pass can run out of fuel. *)
Section StopOnRepeat.

Context {St : Type} (calls : St -> nat) (cur : St -> pyval)
        (answers : nat -> outcome pyval) (ok : Prop)
        (cond : St -> bool) (body : M St ctl).

Hypothesis body_spec : forall s,
  after body s (fun s' r =>
    calls s' = S (calls s)
    /\ (r = Ret Break
        \/ (r = OutOfFuel /\ ~ ok)
        \/ (r = Ret Next
            /\ exists resp c,
                 answers (calls s) = Returns resp
                 /\ py_get resp "cursor" (PInt 0) = Ret c
                 /\ cur s' = c
                 /\ py_eq c (cur s) = false))).

Lemma stops_at_held_cursor (fuel : nat) (s : St) (p c : pyval) :
  answers (calls s) = Returns p ->
  py_get p "cursor" (PInt 0) = Ret c ->
  py_eq c (cur s) = true ->
  after (while_loop fuel cond body) s
        (fun s' r => (calls s' <= calls s + 1)%nat
                     /\ (ok -> (1 <= fuel)%nat -> r = Ret tt)).
Proof.
  intros Hp Hc Heq.
  destruct (cond s) eqn:Hcond; [|apply after_while_exit; [done|split; [lia|done]]].
  destruct fuel as [|n]; [apply after_while_starved; [done|split; [lia|lia]]|].
  apply after_while_step; [done|].
  eapply after_weaken; [apply body_spec|].
  intros s' r [Hcalls [->|[[-> Hnok]|[-> (resp & c' & Hresp & Hc' & _ & Hne)]]]]; cbn.
  - split; [lia|done].
  - split; [lia|done].
  - congruence.
Qed.

Lemma stops_on_repeated_cursor (j fuel : nat) (s : St) :
  same_cursor (answers (calls s + j)%nat) (answers (calls s + j + 1)%nat) ->
  after (while_loop fuel cond body) s
        (fun s' r => (calls s' <= calls s + j + 2)%nat
                     /\ (ok -> (j + 2 <= fuel)%nat -> r = Ret tt)).
Proof.
  revert fuel s. induction j as [|j IH]; intros fuel s Hsame.
  - destruct (cond s) eqn:Hcond; [|apply after_while_exit; [done|split; [lia|done]]].
    destruct fuel as [|n]; [apply after_while_starved; [done|split; [lia|lia]]|].
    apply after_while_step; [done|].
    eapply after_weaken; [apply body_spec|].
    intros s' r [Hcalls [->|[[-> Hnok]|[-> (resp & c & Hresp & Hc & Hcur & _)]]]]; cbn.
    + split; [lia|done].
    + split; [lia|done].
    + destruct Hsame as (p1 & p2 & c1 & c2 & H1 & H2 & Hc1 & Hc2 & Heq).
      rewrite Nat.add_0_r in H1, H2. rewrite Hresp in H1. simplify_eq.
      eapply after_weaken.
      * apply (stops_at_held_cursor n s' p2 c2); [|done|].
        -- rewrite Hcalls. by rewrite Nat.add_1_r in H2.
        -- congruence.
      * intros s'' r [Hle Hret]. split; [lia|]. intros Hok Hfuel. apply Hret; [done|lia].
  - destruct (cond s) eqn:Hcond; [|apply after_while_exit; [done|split; [lia|done]]].
    destruct fuel as [|n]; [apply after_while_starved; [done|split; [lia|lia]]|].
    apply after_while_step; [done|].
    eapply after_weaken; [apply body_spec|].
    intros s' r [Hcalls [->|[[-> Hnok]|[-> _]]]]; cbn.
    + split; [lia|done].
    + split; [lia|done].
    + eapply after_weaken.
      * apply (IH n s'). rewrite Hcalls.
        by replace (S (calls s) + j)%nat with (calls s + S j)%nat by lia.
      * intros s'' r [Hle Hret]. split; [lia|]. intros Hok Hfuel. apply Hret; [done|lia].
Qed.

(** A call that brings no cursor ends the loop: the pass that makes it
    does not go on to a next pass. *)
Lemma stops_where_no_cursor (j fuel : nat) (s : St) :
  (forall resp c, answers (calls s + j)%nat = Returns resp ->
                  py_get resp "cursor" (PInt 0) <> Ret c) ->
  after (while_loop fuel cond body) s
        (fun s' r => (calls s' <= calls s + j + 1)%nat
                     /\ (ok -> (j + 1 <= fuel)%nat -> r = Ret tt)).
Proof.
  revert fuel s. induction j as [|j IH]; intros fuel s Hno.
  - destruct (cond s) eqn:Hcond; [|apply after_while_exit; [done|split; [lia|done]]].
    destruct fuel as [|n]; [apply after_while_starved; [done|split; [lia|lia]]|].
    apply after_while_step; [done|].
    eapply after_weaken; [apply body_spec|].
    intros s' r [Hcalls [->|[[-> Hnok]|[-> (resp & c & Hresp & Hc & _)]]]]; cbn.
    + split; [lia|done].
    + split; [lia|done].
    + rewrite Nat.add_0_r in Hno. by destruct (Hno resp c Hresp).
  - destruct (cond s) eqn:Hcond; [|apply after_while_exit; [done|split; [lia|done]]].
    destruct fuel as [|n]; [apply after_while_starved; [done|split; [lia|lia]]|].
    apply after_while_step; [done|].
    eapply after_weaken; [apply body_spec|].
    intros s' r [Hcalls [->|[[-> Hnok]|[-> _]]]]; cbn.
    + split; [lia|done].
    + split; [lia|done].
    + eapply after_weaken.
      * apply (IH n s'). rewrite Hcalls.
        by replace (S (calls s) + j)%nat with (calls s + S j)%nat by lia.
      * intros s'' r [Hle Hret]. split; [lia|]. intros Hok Hfuel. apply Hret; [done|lia].
Qed.

End StopOnRepeat.

Ltac no_fuel_needed :=
  exfalso;
  match goal with
  | H : _ = OutOfFuel |- _ =>
      revert H; clear;
      unfold py_get, py_hash, py_iter, py_gt, py_min_100, py_item, py_contains,
             py_floordiv, py_strip;
      repeat case_match; done
  end.

Section ApiCursor.
Context (rt : runtime) (max_comments : Z) (fetch_replies : bool) (api : feed) (fuel : nat).

Lemma api_reply_item_frame (max_replies : Z) (reply : pyval) (s : world * Api.reply_vars) :
  after (Api.reply_item rt max_replies reply) s
        (fun s' r => fst s' = fst s
                     /\ Api.reply_cursor (snd s') = Api.reply_cursor (snd s)
                     /\ r <> OutOfFuel).
Proof.
  unfold Api.reply_item.
  repeat first
    [ lazymatch goal with
      | |- match Api._parse_comment _ ?c _ with _ => _ end =>
          match goal with
          | H : py_get c "cid" _ = Ret ?x |- _ =>
              destruct (api_parse_after_cid rt c x 2 H) as (? & -> & ? & ?); cbn beta iota
          end
      end
    | run_step ];
  cbn; split_and?; try done; no_fuel_needed.
Qed.

Lemma api_reply_items_frame (max_replies : Z) (items : list pyval) (s : world * Api.reply_vars) :
  after (for_each (Api.reply_item rt max_replies) items) s
        (fun s' r => fst s' = fst s
                     /\ Api.reply_cursor (snd s') = Api.reply_cursor (snd s)
                     /\ r <> OutOfFuel).
Proof.
  apply after_for_each with
    (inv := fun s0 => fst s0 = fst s
                      /\ Api.reply_cursor (snd s0) = Api.reply_cursor (snd s)); [done|..].
  - by intros s0 [? ?].
  - intros x s0 _ [Hw Hc].
    eapply after_weaken; [apply api_reply_item_frame|].
    intros s' [[|]|e|] (? & ? & ?); cbn; split_and?; congruence.
Qed.

Lemma api_reply_page_spec (max_replies : Z) (s : world * Api.reply_vars) :
  after (Api.reply_page rt api max_replies) s
        (fun s' r =>
           reply_calls (fst s') = S (reply_calls (fst s))
           /\ root_calls (fst s') = root_calls (fst s)
           /\ (r = Ret Break
               \/ (r = OutOfFuel /\ ~ True)
               \/ (r = Ret Next
                   /\ exists resp c,
                        api_fetch_video_comments_reply api (reply_calls (fst s)) = Returns resp
                        /\ py_get resp "cursor" (PInt 0) = Ret c
                        /\ Api.reply_cursor (snd s') = c
                        /\ py_eq c (Api.reply_cursor (snd s)) = false))).
Proof.
  unfold Api.reply_page, Api.reply_page_try, await_fetch_video_comments_reply.
  apply after_try_except, after_bind. constructor.
  destruct s as [w v]. cbn.
  destruct (api_fetch_video_comments_reply api (reply_calls w)) as [resp|e] eqn:Hresp;
    cbn; [|apply after_ret; auto].
  repeat first
    [ lazymatch goal with
      | |- after (for_each (Api.reply_item _ _) _) _ _ =>
          eapply after_weaken;
          [apply api_reply_items_frame
          | intros [? ?] [[]|?|] (? & ? & ?); cbn in *; simplify_eq ]
      end
    | run_step ];
  cbn in *; split_and?; auto.
  all: try no_fuel_needed.
  right. right. split; [done|].
  match goal with H : _ || _ = false |- _ => apply orb_false_elim in H as [_ Hne] end.
  eexists _, _. split_and!; [done..|]. congruence.
Qed.

Lemma api_reply_loop_root_calls (max_replies : Z) (s : world * Api.reply_vars) :
  after (while_loop fuel (fun s0 => len (Api.replies (snd s0)) <? max_replies)
                    (Api.reply_page rt api max_replies)) s
        (fun s' _ => root_calls (fst s') = root_calls (fst s)).
Proof.
  apply after_while_loop with (inv := fun s0 => root_calls (fst s0) = root_calls (fst s));
    [done|done|done|].
  intros s0 H0 _. eapply after_weaken; [apply api_reply_page_spec|].
  intros s' [[|]|e|] (_ & ? & _); cbn; congruence.
Qed.

(** The sub-fetch, seen from its caller: the caller's locals and the count
    of root calls are as before. *)
Lemma api_fetch_comment_replies_caller {L : Type} (expected_count : pyval) (s : world * L) :
  after (Api.fetch_comment_replies rt api fuel expected_count) s
        (fun s' _ => root_calls (fst s') = root_calls (fst s) /\ snd s' = snd s).
Proof.
  unfold Api.fetch_comment_replies. run; try done.
  apply after_call. unfold Api.fetch_comment_replies_body. apply after_bind.
  eapply after_weaken; [apply api_reply_loop_root_calls|].
  intros s' [[]|e|] H; cbn in *; try done; by apply after_local.
Qed.

Lemma api_fetch_comment_replies_stops {L : Type} (expected_count : pyval) (s : world * L) (j : nat) :
  same_cursor (api_fetch_video_comments_reply api (reply_calls (fst s) + j)%nat)
              (api_fetch_video_comments_reply api (reply_calls (fst s) + j + 1)%nat) ->
  after (Api.fetch_comment_replies rt api fuel expected_count) s
        (fun s' r => (reply_calls (fst s') <= reply_calls (fst s) + j + 2)%nat
                     /\ ((j + 2 <= fuel)%nat -> r <> OutOfFuel)).
Proof.
  intros Hsame. unfold Api.fetch_comment_replies. run;
    [|split; [lia|done]|no_fuel_needed].
  apply after_call. unfold Api.fetch_comment_replies_body. apply after_bind.
  eapply after_weaken.
  - apply (stops_on_repeated_cursor
             (fun s0 : world * Api.reply_vars => reply_calls (fst s0))
             (fun s0 => Api.reply_cursor (snd s0))
             (api_fetch_video_comments_reply api) True); [|exact Hsame].
    intros s0. eapply after_weaken; [apply api_reply_page_spec|].
    intros s' r (? & _ & ?). done.
  - intros s' [[]|e|] [Hle Hret]; cbn in *.
    + apply after_local. split; [lia|done].
    + split; [lia|done].
    + split; [lia|]. intros Hfuel. by specialize (Hret I Hfuel).
Qed.

Lemma api_attach_reply_frame (reply : Api.comment_row) (s : world * Api.root_vars) :
  after (Api.attach_reply reply) s
        (fun s' r => fst s' = fst s
                     /\ Api.cursor (snd s') = Api.cursor (snd s)
                     /\ r <> OutOfFuel /\ r <> Ret Break).
Proof.
  unfold Api.attach_reply. run; cbn; split_and?; try done; no_fuel_needed.
Qed.

Lemma api_attach_replies_frame (replies : list Api.comment_row) (s : world * Api.root_vars) :
  after (for_each Api.attach_reply replies) s
        (fun s' r => fst s' = fst s
                     /\ Api.cursor (snd s') = Api.cursor (snd s)
                     /\ r <> OutOfFuel).
Proof.
  apply after_for_each with
    (inv := fun s0 => fst s0 = fst s /\ Api.cursor (snd s0) = Api.cursor (snd s)); [done|..].
  - by intros s0 [? ?].
  - intros x s0 _ [Hw Hc].
    eapply after_weaken; [apply api_attach_reply_frame|].
    intros s' [[|]|e|] (? & ? & ? & ?); cbn; split_and?; congruence.
Qed.

Lemma api_root_item_frame (comment : pyval) (s : world * Api.root_vars) :
  after (Api.root_item rt max_comments fetch_replies api fuel comment) s
        (fun s' r => root_calls (fst s') = root_calls (fst s)
                     /\ Api.cursor (snd s') = Api.cursor (snd s)
                     /\ (fetch_replies = false -> r <> OutOfFuel)).
Proof.
  unfold Api.root_item.
  repeat first
    [ lazymatch goal with
      | |- match Api._parse_comment _ ?c _ with _ => _ end =>
          match goal with
          | H : py_get c "cid" _ = Ret ?x |- _ =>
              destruct (api_parse_after_cid rt c x 1 H) as (? & -> & ? & ?); cbn beta iota
          end
      | |- after (Api.fetch_comment_replies _ _ _ _) _ _ =>
          eapply after_weaken;
          [apply api_fetch_comment_replies_caller
          | intros [? ?] [?|?|] [? ?]; cbn in *; simplify_eq ]
      | |- after (for_each Api.attach_reply _) _ _ =>
          eapply after_weaken;
          [apply api_attach_replies_frame
          | intros [? ?] [[]|?|] (? & ? & ?); cbn in *; simplify_eq ]
      end
    | run_step ];
  cbn in *; split_and?; try done; try congruence; try (intros _; no_fuel_needed).
Qed.

Lemma api_root_items_frame (items : list pyval) (s : world * Api.root_vars) :
  after (for_each (Api.root_item rt max_comments fetch_replies api fuel) items) s
        (fun s' r => root_calls (fst s') = root_calls (fst s)
                     /\ Api.cursor (snd s') = Api.cursor (snd s)
                     /\ (fetch_replies = false -> r <> OutOfFuel)).
Proof.
  apply after_for_each with
    (inv := fun s0 => root_calls (fst s0) = root_calls (fst s)
                      /\ Api.cursor (snd s0) = Api.cursor (snd s)); [done|..].
  - by intros s0 [? ?].
  - intros x s0 _ [Hw Hc].
    eapply after_weaken; [apply api_root_item_frame|].
    intros s' [[|]|e|] (? & ? & Hfuel); cbn; split_and?; try first [congruence|done].
    intros Hoff. by destruct (Hfuel Hoff).
Qed.

Lemma api_root_page_spec (s : world * Api.root_vars) :
  after (Api.root_page rt max_comments fetch_replies api fuel) s
        (fun s' r =>
           root_calls (fst s') = S (root_calls (fst s))
           /\ (r = Ret Break
               \/ (r = OutOfFuel /\ ~ fetch_replies = false)
               \/ (r = Ret Next
                   /\ exists resp c,
                        api_fetch_video_comments api (root_calls (fst s)) = Returns resp
                        /\ py_get resp "cursor" (PInt 0) = Ret c
                        /\ Api.cursor (snd s') = c
                        /\ py_eq c (Api.cursor (snd s)) = false))).
Proof.
  unfold Api.root_page, Api.root_page_try, await_fetch_video_comments.
  apply after_try_except, after_bind. constructor.
  destruct s as [w v]. cbn.
  destruct (api_fetch_video_comments api (root_calls w)) as [resp|e] eqn:Hresp;
    cbn; [|apply after_ret; auto].
  repeat first
    [ lazymatch goal with
      | |- after (for_each (Api.root_item _ _ _ _ _) _) _ _ =>
          eapply after_weaken;
          [apply api_root_items_frame
          | intros [? ?] [[]|?|] (? & ? & ?); cbn in *; simplify_eq ]
      end
    | run_step ];
  cbn in *; split_and?; auto.
  all: try no_fuel_needed.
  all: try (right; left; split; [done|]; intros Hoff;
            match goal with H : _ -> OutOfFuel <> OutOfFuel |- _ => by destruct (H Hoff) end).
  right. right. split; [done|].
  match goal with H : _ || _ = false |- _ => apply orb_false_elim in H as [_ Hne] end.
  eexists _, _. split_and!; [done..|]. congruence.
Qed.

Lemma api_fetch_video_comments_stops (w : world) (j : nat) :
  same_cursor (api_fetch_video_comments api (root_calls w + j)%nat)
              (api_fetch_video_comments api (root_calls w + j + 1)%nat) ->
  after (Api.fetch_video_comments_body rt max_comments fetch_replies api fuel)
        (w, Api.empty_root_vars)
        (fun s' r => (root_calls (fst s') <= root_calls w + j + 2)%nat
                     /\ (fetch_replies = false -> (j + 2 <= fuel)%nat -> r <> OutOfFuel)).
Proof.
  intros Hsame. unfold Api.fetch_video_comments_body. apply after_bind.
  eapply after_weaken.
  - apply (stops_on_repeated_cursor
             (fun s0 : world * Api.root_vars => root_calls (fst s0))
             (fun s0 => Api.cursor (snd s0))
             (api_fetch_video_comments api) (fetch_replies = false)); [|exact Hsame].
    intros s0. apply api_root_page_spec.
  - intros s' [[]|e|] [Hle Hret]; cbn in *.
    + apply after_local. split; [lia|done].
    + split; [lia|done].
    + split; [lia|]. intros Hoff Hfuel. by specialize (Hret Hoff Hfuel).
Qed.

End ApiCursor.

(** C3, as the code has it.  In [DouyinAPICrawler], when two consecutive
    answers of an end point are pages with the same cursor, the loop that
    drives the end point makes no call after the second of them: the root
    loop of [fetch_video_comments] and the loop of [fetch_comment_replies]
    alike.  The reply loop then returns if it is given fuel for these passes;
    so does the root loop when it fetches no replies (a reply sub-fetch
    inside a pass is a loop of its own). *)
Theorem api_pagination_stops_on_repeated_cursor
    (rt : runtime) (max_comments : Z) (fetch_replies : bool) (api : feed) (fuel j : nat) :
  (forall w : world,
     same_cursor (api_fetch_video_comments api (root_calls w + j)%nat)
                 (api_fetch_video_comments api (root_calls w + j + 1)%nat) ->
     let run := Api.fetch_video_comments rt max_comments fetch_replies api fuel w in
     (root_calls (fst (fst run)) <= root_calls w + j + 2)%nat
     /\ (fetch_replies = false -> (j + 2 <= fuel)%nat -> snd run <> OutOfFuel))
  /\ (forall (L : Type) (expected_count : pyval) (s : world * L),
        same_cursor (api_fetch_video_comments_reply api (reply_calls (fst s) + j)%nat)
                    (api_fetch_video_comments_reply api (reply_calls (fst s) + j + 1)%nat) ->
        let run := Api.fetch_comment_replies rt api fuel expected_count s in
        (reply_calls (fst (fst run)) <= reply_calls (fst s) + j + 2)%nat
        /\ ((j + 2 <= fuel)%nat -> snd run <> OutOfFuel)).
Proof.
  split.
  - intros w Hsame run.
    by destruct (api_fetch_video_comments_stops rt max_comments fetch_replies api fuel w j Hsame).
  - intros L expected_count s Hsame run.
    by destruct (api_fetch_comment_replies_stops rt api fuel expected_count s j Hsame).
Qed.

Lemma stuck_feed_same_cursor (n m : nat) :
  same_cursor (api_fetch_video_comments stuck_feed n) (api_fetch_video_comments stuck_feed m)
  /\ same_cursor (api_fetch_video_comments_reply stuck_feed n)
                 (api_fetch_video_comments_reply stuck_feed m).
Proof. split; by eexists _, _, _, _. Qed.

Lemma api_pagination_stops_on_repeated_cursor_witness :
  let root := Api.fetch_video_comments plain_runtime 1000 false stuck_feed 5 fresh_world in
  let sub := Api.fetch_comment_replies plain_runtime stuck_feed 5 (PInt 50) (fresh_world, tt) in
  ((root_calls (fst (fst root)) <= 2)%nat /\ snd root <> OutOfFuel)
  /\ ((reply_calls (fst (fst sub)) <= 2)%nat /\ snd sub <> OutOfFuel).
Proof.
  intros root sub.
  pose proof (api_pagination_stops_on_repeated_cursor plain_runtime 1000 false stuck_feed
                5%nat 0%nat) as [Hroot Hsub].
  split.
  - destruct (Hroot fresh_world (proj1 (stuck_feed_same_cursor _ _))) as [Hle Hret].
    split; [exact Hle|]. apply Hret; [reflexivity|lia].
  - destruct (Hsub unit (PInt 50) (fresh_world, tt) (proj2 (stuck_feed_same_cursor _ _)))
      as [Hle Hret].
    split; [exact Hle|]. apply Hret. lia.
Defined.

(** C3 fails for [MixCrawler.get_all_comments], which does not compare
    cursors: on the stuck feed it calls on until the cap, here five times,
    although the first two answers already carry the same cursor. *)
Lemma complete_get_all_comments_ignores_repeated_cursor :
  let run := Complete.get_all_comments plain_runtime 5 stuck_feed 10 fresh_world in
  same_cursor (api_fetch_video_comments stuck_feed 0) (api_fetch_video_comments stuck_feed 1)
  /\ root_calls (fst (fst run)) = 5%nat
  /\ exists nodes, snd run = Ret nodes /\ length nodes = 5%nat.
Proof.
  split; [by eexists _, _, _, _|]. vm_compute. split; [done|]. by eexists.
Qed.

(** * C2: the cap on the number of rows *)

(** C2 fails in [DouyinAPICrawler.fetch_video_comments]: the cap is tested
    before a root comment is taken and after its replies have been appended,
    never in between.  With [max_comments = 1], the root "A" and its reply
    "B" are both returned. *)
Theorem api_reply_batch_exceeds_cap (rt : runtime) :
  exists nodes,
    snd (Api.fetch_video_comments rt 1 true generous_reply_feed 10 fresh_world) = Ret nodes
    /\ map Api.comment_id nodes = [PStr "A"; PStr "B"]
    /\ map Api.level nodes = [1; 2]
    /\ 1 < len nodes.
Proof. vm_compute. eexists. repeat split. Qed.

(** The sibling [MixCrawler.get_all_comments] hands the reply sub-fetch what
    is left of the cap, and stays within it. *)
Section CompleteCap.
Context (rt : runtime) (max_comments : Z) (crawler : feed) (fuel : nat).

Lemma complete_reply_item_bound (comment_id : pyval) (max_needed : Z) (r : pyval)
      (s : world * Complete.reply_vars) :
  len (Complete.replies (snd s)) < max_needed ->
  after (Complete.reply_item rt comment_id max_needed r) s
        (fun s' res => len (Complete.replies (snd s')) <= max_needed
                       /\ (res = Ret Next -> len (Complete.replies (snd s')) < max_needed)).
Proof.
  intros Hlen. unfold Complete.reply_item. run;
    cbn in *; bool_to_Z; split_and?; try done; try len_lia; try (intros _; len_lia).
Qed.

Lemma complete_reply_items_bound (comment_id : pyval) (max_needed : Z) (items : list pyval)
      (s : world * Complete.reply_vars) :
  len (Complete.replies (snd s)) < max_needed ->
  after (for_each (Complete.reply_item rt comment_id max_needed) items) s
        (fun s' _ => len (Complete.replies (snd s')) <= max_needed).
Proof.
  intros Hlen.
  apply after_for_each with
    (inv := fun s0 : world * Complete.reply_vars =>
              len (Complete.replies (snd s0)) < max_needed); [done|..].
  - intros s0 ?. lia.
  - intros x s0 _ ?.
    eapply after_weaken; [by apply complete_reply_item_bound|].
    intros s' [[|]|e|] [? Hn]; cbn; try done. by apply Hn.
Qed.

Lemma complete_reply_page_bound (comment_id : pyval) (max_needed : Z)
      (s : world * Complete.reply_vars) :
  len (Complete.replies (snd s)) < max_needed ->
  after (Complete.reply_page rt crawler comment_id max_needed) s
        (fun s' _ => len (Complete.replies (snd s')) <= max_needed).
Proof.
  intros Hlen.
  unfold Complete.reply_page, Complete.reply_page_try, await_fetch_video_comments_reply.
  apply after_try_except, after_bind. constructor.
  destruct s as [w v]. cbn in *.
  destruct (api_fetch_video_comments_reply crawler (reply_calls w)) as [resp|e];
    cbn; [|apply after_ret; cbn; len_lia].
  repeat first
    [ lazymatch goal with
      | |- after (for_each (Complete.reply_item _ _ _) _) _ _ =>
          eapply after_weaken;
          [by apply complete_reply_items_bound | intros [? ?] [[]|?|] ?; cbn beta iota]
      end
    | run_step ];
  cbn in *; try done; len_lia.
Qed.

Lemma complete_get_comment_replies_bound {L : Type} (comment_id : pyval) (max_needed : Z)
      (s : world * L) :
  after (Complete.get_comment_replies rt crawler fuel comment_id max_needed) s
        (fun s' r => snd s' = snd s
                     /\ forall rows, r = Ret rows -> len rows <= Z.max 0 max_needed).
Proof.
  unfold Complete.get_comment_replies, Complete.get_comment_replies_body.
  apply after_call, after_bind.
  apply after_while_loop with
    (inv := fun s0 : world * Complete.reply_vars =>
              len (Complete.replies (snd s0)) <= Z.max 0 max_needed).
  - cbn. len_lia.
  - intros s0 H0 _. apply after_local. split; [done|]. by intros ? [= <-].
  - done.
  - intros s0 H0 Hc. bool_to_Z.
    eapply after_weaken; [by apply complete_reply_page_bound|].
    intros s' [[|]|e|] H'; cbn in *; try done; try len_lia.
    apply after_local. split; [done|]. intros ? [= <-]. len_lia.
Qed.

Lemma complete_root_item_bound (c : pyval) (s : world * Complete.root_vars) :
  len (Complete.collected (snd s)) < max_comments ->
  after (Complete.root_item rt max_comments crawler fuel c) s
        (fun s' res => len (Complete.collected (snd s')) <= max_comments
                       /\ (res = Ret Next -> len (Complete.collected (snd s')) < max_comments)).
Proof.
  intros Hlen. unfold Complete.root_item.
  repeat first
    [ lazymatch goal with
      | |- after (Complete.get_comment_replies _ _ _ _ _) _ _ =>
          eapply after_weaken;
          [apply complete_get_comment_replies_bound
          | intros [? ?] [rows|?|] [? Hrows]; cbn in *; simplify_eq;
            try (specialize (Hrows rows eq_refl)) ]
      end
    | run_step ];
  cbn in *; bool_to_Z;
  repeat match goal with H : _ && _ = true |- _ => apply andb_prop in H as [? ?] end;
  bool_to_Z; split_and?; try done; try len_lia; try (intros _; len_lia).
Qed.

Lemma complete_root_items_bound (items : list pyval) (s : world * Complete.root_vars) :
  len (Complete.collected (snd s)) < max_comments ->
  after (for_each (Complete.root_item rt max_comments crawler fuel) items) s
        (fun s' _ => len (Complete.collected (snd s')) <= max_comments).
Proof.
  intros Hlen.
  apply after_for_each with
    (inv := fun s0 : world * Complete.root_vars =>
              len (Complete.collected (snd s0)) < max_comments); [done|..].
  - intros s0 ?. lia.
  - intros x s0 _ ?.
    eapply after_weaken; [by apply complete_root_item_bound|].
    intros s' [[|]|e|] [? Hn]; cbn; try done. by apply Hn.
Qed.

Lemma complete_root_page_bound (s : world * Complete.root_vars) :
  len (Complete.collected (snd s)) < max_comments ->
  after (Complete.root_page rt max_comments crawler fuel) s
        (fun s' _ => len (Complete.collected (snd s')) <= max_comments).
Proof.
  intros Hlen.
  unfold Complete.root_page, Complete.root_page_try, await_fetch_video_comments.
  apply after_try_except, after_bind. constructor.
  destruct s as [w v]. cbn in *.
  destruct (api_fetch_video_comments crawler (root_calls w)) as [resp|e];
    cbn; [|apply after_ret; cbn; len_lia].
  repeat first
    [ lazymatch goal with
      | |- after (for_each (Complete.root_item _ _ _ _) _) _ _ =>
          eapply after_weaken;
          [by apply complete_root_items_bound | intros [? ?] [[]|?|] ?; cbn beta iota]
      end
    | run_step ];
  cbn in *; try done; len_lia.
Qed.

Lemma complete_get_all_comments_within_cap (w : world) (st : world * Complete.root_vars)
      (nodes : list Complete.csv_row) :
  0 <= max_comments ->
  Complete.get_all_comments rt max_comments crawler fuel w = (st, Ret nodes) ->
  len nodes <= max_comments.
Proof.
  intros Hcap Hrun.
  assert (after (Complete.get_all_comments_body rt max_comments crawler fuel)
            (w, {| Complete.collected := []; Complete.cursor := PInt 0 |})
            (fun _ r => forall rows, r = Ret rows -> len rows <= max_comments)) as Hafter.
  { unfold Complete.get_all_comments_body. apply after_bind.
    apply after_while_loop with
      (inv := fun s0 : world * Complete.root_vars =>
                len (Complete.collected (snd s0)) <= max_comments).
    - cbn. len_lia.
    - intros s0 H0 _. apply after_local. by intros ? [= <-].
    - done.
    - intros s0 H0 Hc. bool_to_Z.
      eapply after_weaken; [by apply complete_root_page_bound|].
      intros s' [[|]|e|] H'; cbn in *; try done.
      apply after_local. by intros ? [= <-]. }
  exact (after_elim _ _ _ _ _ Hafter Hrun nodes eq_refl).
Qed.

End CompleteCap.

(** * C5: the coverage ratio *)





(** * C7: the choice of the strategy *)

(** C7, as the code has it.  For a video with comments to fetch
    ([expected > 0]) [process_video] invokes exactly one harvester: the API
    one (root comments only) when the expected count exceeds
    [LARGE_COMMENT_THRESHOLD = 1500], the browser one otherwise.  What this
    harvester returns is the video's result, an empty list included; the
    other harvester is never invoked. *)
Theorem drission_strategy_by_threshold {W : Type}
    (get_video_comments_api : Z -> M W (list pyval))
    (get_video_comments : Z -> M W (option (list pyval)))
    (total_expected : Z) (invoked : list Drission.strategy) (w : W) :
  0 < total_expected ->
  let run := Drission.process_video_comments get_video_comments_api get_video_comments
               true total_expected (invoked, w) in
  (Drission.LARGE_COMMENT_THRESHOLD < total_expected ->
   fst run = (invoked ++ [Drission.Lightweight], fst (get_video_comments_api total_expected w))
   /\ snd run = video_comments_of_api (snd (get_video_comments_api total_expected w)))
  /\ (total_expected <= Drission.LARGE_COMMENT_THRESHOLD ->
      fst run = (invoked ++ [Drission.Intensive], fst (get_video_comments total_expected w))
      /\ snd run = video_comments_of_browser (snd (get_video_comments total_expected w))).
Proof.
  intros Hpos run. subst run. unfold Drission.process_video_comments.
  apply Z.ltb_lt in Hpos as ->. cbn [andb].
  split; intros Hcmp.
  - apply Z.ltb_lt in Hcmp as ->. unfold bind.
    destruct (get_video_comments_api total_expected w) as [w' [c|e|]]; done.
  - apply Z.ltb_ge in Hcmp as ->. unfold bind.
    destruct (get_video_comments total_expected w) as [w' [[c|]|e|]]; done.
Qed.

Lemma drission_strategy_by_threshold_witness :
  let api := fun _ : Z =>
    Drission.get_video_comments_api plain_runtime 2000 overlapping_feed (L := unit) in
  fst (fst (Drission.process_video_comments api browser_with_one_comment true 2000
              ([], (fresh_world, tt))))
  = [Drission.Lightweight]
  /\ fst (fst (Drission.process_video_comments api browser_with_one_comment true 7
                 ([], (fresh_world, tt))))
     = [Drission.Intensive].
Proof.
  intros api. split.
  - destruct (drission_strategy_by_threshold api browser_with_one_comment 2000 []
                (fresh_world, tt) ltac:(lia)) as [Hlarge _].
    destruct (Hlarge ltac:(reflexivity)) as [Hstate _]. by rewrite Hstate.
  - destruct (drission_strategy_by_threshold api browser_with_one_comment 7 []
                (fresh_world, tt) ltac:(lia)) as [_ Hsmall].
    destruct (Hsmall ltac:(unfold Drission.LARGE_COMMENT_THRESHOLD; lia)) as [Hstate _].
    by rewrite Hstate.
Defined.

(** C7 fails in its second half: there is no fall-back.  With 2000 comments
    expected the API harvester is chosen; its first page holds zero items;
    the video's result is the empty list, and the browser harvester, which
    would deliver a comment, is not invoked. *)
Lemma drission_no_fallback_after_empty_first_page :
  let api := fun _ : Z =>
    Drission.get_video_comments_api plain_runtime 2000 empty_first_page_feed (L := unit) in
  let run := Drission.process_video_comments api browser_with_one_comment true 2000
               ([], (fresh_world, tt)) in
  fst (fst run) = [Drission.Lightweight]
  /\ root_calls (fst (snd (fst run))) = 1%nat
  /\ snd run = Ret {| Drission.harvested := []; Drission.video_not_exist := false |}
  /\ snd (browser_with_one_comment 2000 (fresh_world, tt)) = Ret (Some [raw_comment "A" 0]).
Proof. vm_compute. repeat split. Qed.

(** * C9: the parent of a reply *)

(** C9 fails in [PlaywrightMixCrawler.get_video_comments]: a reply that no
    root comment precedes among the scraped items gets the initial
    [parent_cid = ''], which is the id of no row.  Here the reply comes
    first and a root comment follows it. *)
Theorem playwright_orphan_reply_has_no_parent (rt : runtime) :
  exists reply root,
    snd (Playwright.convert_comments rt 2000 [scraped_item 2 "re"; scraped_item 1 "hi"])
    = Ret [reply; root]
    /\ Playwright.level reply = PInt 2
    /\ Playwright.parent_cid reply = PStr ""
    /\ Playwright.level root = PInt 1.
Proof. vm_compute. eexists _, _. split; [reflexivity|]. repeat split. Qed.

(** The sibling [MixCrawler.get_all_comments] appends a root comment and
    then its replies, each with the root's id as parent id. *)
Section CompleteLinks.
Context (rt : runtime) (max_comments : Z) (crawler : feed) (fuel : nat).

Lemma complete_linked_app (l l' : list Complete.csv_row) :
  complete_linked l ->
  (forall row, row ∈ l' -> Complete.level row = 2 ->
               exists root, root ∈ l /\ Complete.level root = 1
                            /\ Complete.cid root = Complete.parent_id row) ->
  complete_linked (l ++ l').
Proof.
  intros Hl Hnew i row Hi Hlvl.
  destruct (decide (i < length l)%nat) as [Hlt|Hge].
  - rewrite lookup_app_l in Hi by done.
    destruct (Hl i row Hi Hlvl) as (j & root & ? & Hj & ? & ?).
    exists j, root. split_and!; try done. rewrite lookup_app_l; [done|lia].
  - rewrite lookup_app_r in Hi by lia.
    destruct (Hnew row) as (root & [j Hj]%list_elem_of_lookup & ? & ?); [|done|].
    { apply list_elem_of_lookup. eauto. }
    exists j, root. apply lookup_lt_Some in Hj as Hjlt.
    split_and!; try done; [lia|]. by rewrite lookup_app_l.
Qed.

Lemma complete_format_comment_row_fields (comment : pyval) (lvl : Z) (parent : pyval)
      (row : Complete.csv_row) :
  Complete.format_comment_row rt comment lvl parent = Ret row ->
  Complete.level row = lvl
  /\ Complete.parent_id row = parent
  /\ py_get comment "cid" (PStr "") = Ret (Complete.cid row).
Proof.
  unfold Complete.format_comment_row, rbind.
  repeat (case_match; simplify_eq/=; try done). all: by intros [= <-].
Qed.

Lemma complete_reply_item_rows (comment_id : pyval) (max_needed : Z) (r : pyval)
      (s : world * Complete.reply_vars) :
  complete_replies_of comment_id (Complete.replies (snd s)) ->
  after (Complete.reply_item rt comment_id max_needed r) s
        (fun s' _ => complete_replies_of comment_id (Complete.replies (snd s'))).
Proof.
  intros Hrows. unfold Complete.reply_item. run; cbn in *; try done.
  all: apply Forall_app; split; [done|]; constructor; [|done].
  all: match goal with
       | H : Complete.format_comment_row _ _ _ _ = Ret _ |- _ =>
           apply complete_format_comment_row_fields in H as (? & ? & _)
       end; done.
Qed.

Lemma complete_reply_items_rows (comment_id : pyval) (max_needed : Z) (items : list pyval)
      (s : world * Complete.reply_vars) :
  complete_replies_of comment_id (Complete.replies (snd s)) ->
  after (for_each (Complete.reply_item rt comment_id max_needed) items) s
        (fun s' _ => complete_replies_of comment_id (Complete.replies (snd s'))).
Proof.
  intros Hrows.
  apply after_for_each with
    (inv := fun s0 : world * Complete.reply_vars =>
              complete_replies_of comment_id (Complete.replies (snd s0))); [done|done|].
  intros x s0 _ ?. eapply after_weaken; [by apply complete_reply_item_rows|].
  by intros s' [[|]|e|] ?.
Qed.

Lemma complete_reply_page_rows (comment_id : pyval) (max_needed : Z)
      (s : world * Complete.reply_vars) :
  complete_replies_of comment_id (Complete.replies (snd s)) ->
  after (Complete.reply_page rt crawler comment_id max_needed) s
        (fun s' _ => complete_replies_of comment_id (Complete.replies (snd s'))).
Proof.
  intros Hrows.
  unfold Complete.reply_page, Complete.reply_page_try, await_fetch_video_comments_reply.
  apply after_try_except, after_bind. constructor.
  destruct s as [w v]. cbn in *.
  destruct (api_fetch_video_comments_reply crawler (reply_calls w)) as [resp|e];
    cbn; [|by apply after_ret].
  repeat first
    [ lazymatch goal with
      | |- after (for_each (Complete.reply_item _ _ _) _) _ _ =>
          eapply after_weaken;
          [by apply complete_reply_items_rows | intros [? ?] [[]|?|] ?; cbn beta iota]
      end
    | run_step ];
  cbn in *; done.
Qed.

Lemma complete_get_comment_replies_rows {L : Type} (comment_id : pyval) (max_needed : Z)
      (s : world * L) :
  after (Complete.get_comment_replies rt crawler fuel comment_id max_needed) s
        (fun s' r => snd s' = snd s
                     /\ forall rows, r = Ret rows -> complete_replies_of comment_id rows).
Proof.
  unfold Complete.get_comment_replies, Complete.get_comment_replies_body.
  apply after_call, after_bind.
  apply after_while_loop with
    (inv := fun s0 : world * Complete.reply_vars =>
              complete_replies_of comment_id (Complete.replies (snd s0))).
  - constructor.
  - intros s0 H0 _. apply after_local. split; [done|]. by intros ? [= <-].
  - done.
  - intros s0 H0 _.
    eapply after_weaken; [by apply complete_reply_page_rows|].
    intros s' [[|]|e|] H'; cbn in *; try done.
    apply after_local. split; [done|]. by intros ? [= <-].
Qed.

Lemma complete_root_item_linked (c : pyval) (s : world * Complete.root_vars) :
  complete_linked (Complete.collected (snd s)) ->
  after (Complete.root_item rt max_comments crawler fuel c) s
        (fun s' _ => complete_linked (Complete.collected (snd s'))).
Proof.
  intros Hlinked. unfold Complete.root_item.
  run_step. run_step. run_step; [|done..].
  match goal with
  | H : Complete.format_comment_row _ _ _ _ = Ret ?row |- _ =>
      apply complete_format_comment_row_fields in H as (Hlvl & _ & Hcid);
      assert (complete_linked (Complete.collected (snd s) ++ [row])) as Hlinked'
  end.
  { apply complete_linked_app; [done|].
    intros row ->%list_elem_of_singleton. rewrite Hlvl. done. }
  repeat first
    [ lazymatch goal with
      | |- after (Complete.get_comment_replies _ _ _ _ _) _ _ =>
          eapply after_weaken;
          [apply complete_get_comment_replies_rows
          | intros [? ?] [rows|?|] [? Hrows]; cbn in *; simplify_eq;
            try (specialize (Hrows rows eq_refl)) ]
      end
    | run_step ];
  cbn in *; try done.
  all: apply complete_linked_app; [done|].
  all: intros row Hin _; eexists; split; [apply elem_of_app; right; by left|].
  all: split; [done|].
  all: match goal with
       | H : complete_replies_of _ _ |- _ =>
           eapply Forall_forall in H as [_ ->]; [|done]
       end; congruence.
Qed.

Lemma complete_root_items_linked (items : list pyval) (s : world * Complete.root_vars) :
  complete_linked (Complete.collected (snd s)) ->
  after (for_each (Complete.root_item rt max_comments crawler fuel) items) s
        (fun s' _ => complete_linked (Complete.collected (snd s'))).
Proof.
  intros Hlinked.
  apply after_for_each with
    (inv := fun s0 : world * Complete.root_vars =>
              complete_linked (Complete.collected (snd s0))); [done|done|].
  intros x s0 _ ?. eapply after_weaken; [by apply complete_root_item_linked|].
  by intros s' [[|]|e|] ?.
Qed.

Lemma complete_root_page_linked (s : world * Complete.root_vars) :
  complete_linked (Complete.collected (snd s)) ->
  after (Complete.root_page rt max_comments crawler fuel) s
        (fun s' _ => complete_linked (Complete.collected (snd s'))).
Proof.
  intros Hlinked.
  unfold Complete.root_page, Complete.root_page_try, await_fetch_video_comments.
  apply after_try_except, after_bind. constructor.
  destruct s as [w v]. cbn in *.
  destruct (api_fetch_video_comments crawler (root_calls w)) as [resp|e];
    cbn; [|by apply after_ret].
  repeat first
    [ lazymatch goal with
      | |- after (for_each (Complete.root_item _ _ _ _) _) _ _ =>
          eapply after_weaken;
          [by apply complete_root_items_linked | intros [? ?] [[]|?|] ?; cbn beta iota]
      end
    | run_step ];
  cbn in *; done.
Qed.

(** In the result of [get_all_comments], every level-2 row has the id of an
    earlier level-1 row as its parent id. *)
Lemma complete_get_all_comments_linked (w : world) (st : world * Complete.root_vars)
      (nodes : list Complete.csv_row) :
  Complete.get_all_comments rt max_comments crawler fuel w = (st, Ret nodes) ->
  complete_linked nodes.
Proof.
  intros Hrun.
  assert (after (Complete.get_all_comments_body rt max_comments crawler fuel)
            (w, {| Complete.collected := []; Complete.cursor := PInt 0 |})
            (fun _ r => forall rows, r = Ret rows -> complete_linked rows)) as Hafter.
  { unfold Complete.get_all_comments_body. apply after_bind.
    apply after_while_loop with
      (inv := fun s0 : world * Complete.root_vars =>
                complete_linked (Complete.collected (snd s0))).
    - by intros i row Hi.
    - intros s0 H0 _. apply after_local. by intros ? [= <-].
    - done.
    - intros s0 H0 _.
      eapply after_weaken; [by apply complete_root_page_linked|].
      intros s' [[|]|e|] H'; cbn in *; try done.
      apply after_local. by intros ? [= <-]. }
  exact (after_elim _ _ _ _ _ Hafter Hrun nodes eq_refl).
Qed.

End CompleteLinks.


(** * C8: upstream failures are absorbed *)

Section ApiAbsorb.
Context (rt : runtime) (max_comments : Z) (fetch_replies : bool) (api : feed) (fuel : nat).

Lemma api_root_page_no_raise (s : world * Api.root_vars) :
  after (Api.root_page rt max_comments fetch_replies api fuel) s
        (fun _ r => forall e, r <> Raise e).
Proof.
  unfold Api.root_page. apply after_try_except, after_any.
  intros s' [c|e|]; [done| |done]. by apply after_ret.
Qed.

Lemma api_fetch_video_comments_no_raise (w : world) (e : exn) :
  snd (Api.fetch_video_comments rt max_comments fetch_replies api fuel w) <> Raise e.
Proof.
  assert (after (Api.fetch_video_comments_body rt max_comments fetch_replies api fuel)
            (w, Api.empty_root_vars) (fun _ r => forall e, r <> Raise e)) as [H].
  { unfold Api.fetch_video_comments_body. apply after_bind.
    apply after_while_loop with (inv := fun _ => True); [done|..].
    - intros s0 _ _. by apply after_local.
    - done.
    - intros s0 _ _. eapply after_weaken; [apply api_root_page_no_raise|].
      intros s' [[|]|e'|] H; cbn; try done; by destruct (H e'). }
  apply H.
Qed.

Lemma api_reply_page_absorbed (max_replies : Z) :
  Api.reply_page rt (absorbed api) max_replies = Api.reply_page rt api max_replies.
Proof.
  apply functional_extensionality. intros [w v].
  unfold Api.reply_page, Api.reply_page_try, try_except, bind,
         await_fetch_video_comments_reply. cbn.
  by destruct (api_fetch_video_comments_reply api (reply_calls w)).
Qed.

Lemma api_fetch_comment_replies_body_absorbed :
  Api.fetch_comment_replies_body rt (absorbed api) fuel
  = Api.fetch_comment_replies_body rt api fuel.
Proof.
  apply functional_extensionality. intros max_replies.
  unfold Api.fetch_comment_replies_body. by rewrite api_reply_page_absorbed.
Qed.

Lemma api_root_item_absorbed :
  Api.root_item rt max_comments fetch_replies (absorbed api) fuel
  = Api.root_item rt max_comments fetch_replies api fuel.
Proof.
  unfold Api.root_item, Api.fetch_comment_replies.
  by rewrite api_fetch_comment_replies_body_absorbed.
Qed.

Lemma api_root_page_absorbed :
  Api.root_page rt max_comments fetch_replies (absorbed api) fuel
  = Api.root_page rt max_comments fetch_replies api fuel.
Proof.
  apply functional_extensionality. intros [w v].
  unfold Api.root_page, Api.root_page_try. rewrite api_root_item_absorbed.
  unfold try_except, bind, await_fetch_video_comments. cbn.
  by destruct (api_fetch_video_comments api (root_calls w)).
Qed.

Lemma api_fetch_video_comments_absorbed (w : world) :
  Api.fetch_video_comments rt max_comments fetch_replies (absorbed api) fuel w
  = Api.fetch_video_comments rt max_comments fetch_replies api fuel w.
Proof.
  unfold Api.fetch_video_comments, Api.fetch_video_comments_body.
  by rewrite api_root_page_absorbed.
Qed.

End ApiAbsorb.

Lemma after_both {S A : Type} (m : M S A) (s : S) (post1 post2 : S -> result A -> Prop) :
  after m s post1 -> after m s post2 -> after m s (fun s' r => post1 s' r /\ post2 s' r).
Proof. intros [H1] [H2]. by constructor. Qed.

Lemma no_page_no_cursor (o : outcome pyval) (resp c : pyval) :
  no_page o -> o = Returns resp -> py_get resp "cursor" (PInt 0) <> Ret c.
Proof. intros Hno ->. by destruct resp. Qed.

(** ** The harvest returns where the feed fails *)

Section ApiReturns.
Context (rt : runtime) (max_comments : Z) (fetch_replies : bool) (api : feed) (fuel : nat).

(** A pass whose [try] block raises is the last one: [except Exception:
    break] leaves the loop, and the rows collected are returned. *)
Lemma api_harvest_returns_at_raise (s s' : world * Api.root_vars) (e : exn) :
  len (Api.comments (snd s)) < max_comments ->
  (1 <= fuel)%nat ->
  Api.root_page_try rt max_comments fetch_replies api fuel s = (s', Raise e) ->
  Api.fetch_video_comments_body rt max_comments fetch_replies api fuel s
  = (s', Ret (Api.comments (snd s'))).
Proof.
  intros Hcond Hfuel Htry.
  assert (Api.root_page rt max_comments fetch_replies api fuel s = (s', Ret Break)) as Hpage.
  { unfold Api.root_page, try_except. by rewrite Htry. }
  unfold Api.fetch_video_comments_body.
  destruct fuel as [|n] eqn:Hn; [lia|]. rewrite <- Hn in *.
  unfold bind at 1. rewrite Hn at 1. cbn [while_loop].
  assert ((len (Api.comments (snd s)) <? max_comments) = true) as -> by lia.
  unfold bind at 1. by rewrite Hpage.
Qed.

(** The same where the call gives no page: nothing is added, and the one
    call is the last. *)
Lemma api_harvest_returns_at_no_page (w : world) (v : Api.root_vars) :
  len (Api.comments v) < max_comments ->
  (1 <= fuel)%nat ->
  no_page (api_fetch_video_comments api (root_calls w)) ->
  Api.fetch_video_comments_body rt max_comments fetch_replies api fuel (w, v)
  = (({| root_calls := S (root_calls w); reply_calls := reply_calls w |}, v),
     Ret (Api.comments v)).
Proof.
  intros Hcond Hfuel Hno.
  assert (Api.root_page rt max_comments fetch_replies api fuel (w, v)
          = (({| root_calls := S (root_calls w); reply_calls := reply_calls w |}, v),
             Ret Break)) as Hpage.
  { unfold Api.root_page, Api.root_page_try, try_except, bind at 1,
           await_fetch_video_comments.
    destruct (api_fetch_video_comments api (root_calls w)) as [resp|e]; [|done].
    destruct resp as [|b|z|str|l|d]; try done; cbn [result_of].
    all: destruct (truthy _) eqn:Htruthy; cbn [negb]; try done. }
  unfold Api.fetch_video_comments_body.
  destruct fuel as [|n] eqn:Hn; [lia|]. rewrite <- Hn in *.
  unfold bind at 1. rewrite Hn at 1. cbn [while_loop].
  cbn [snd]. assert ((len (Api.comments v) <? max_comments) = true) as -> by lia.
  unfold bind at 1. by rewrite Hpage.
Qed.

(** The reply sub-fetch returns where the reply end point gives no page. *)
Lemma api_fetch_comment_replies_returns {L : Type} (expected_count : pyval) (s : world * L) :
  replies_fail_within api fuel ->
  after (Api.fetch_comment_replies rt api fuel expected_count) s
        (fun s' r => r <> OutOfFuel).
Proof.
  intros Hdown. unfold Api.fetch_comment_replies. run; [|done|no_fuel_needed].
  apply after_call. unfold Api.fetch_comment_replies_body. apply after_bind.
  destruct (Hdown (reply_calls (fst (fst s, {| Api.replies := []; Api.reply_ids := ∅;
                                               Api.reply_cursor := PInt 0 |}))))
    as (k & Hk & Hno).
  eapply after_weaken.
  - apply (stops_where_no_cursor
             (fun s0 : world * Api.reply_vars => reply_calls (fst s0))
             (fun s0 => Api.reply_cursor (snd s0))
             (api_fetch_video_comments_reply api) True) with (j := k).
    + intros s0. eapply after_weaken; [apply api_reply_page_spec|].
      intros s' r (? & _ & ?). done.
    + intros resp c. by apply no_page_no_cursor.
  - intros s' [[]|e|] [Hle Hret]; cbn in *; [by apply after_local|done|].
    by specialize (Hret I ltac:(lia)).
Qed.

Lemma api_root_item_returns (comment : pyval) (s : world * Api.root_vars) :
  fetch_replies = false \/ replies_fail_within api fuel ->
  after (Api.root_item rt max_comments fetch_replies api fuel comment) s
        (fun s' r => r <> OutOfFuel).
Proof.
  intros [Hoff|Hdown].
  - eapply after_weaken; [apply api_root_item_frame|]. by intros s' r (_ & _ & H); apply H.
  - unfold Api.root_item.
    repeat first
      [ lazymatch goal with
        | |- match Api._parse_comment _ ?c _ with _ => _ end =>
            match goal with
            | H : py_get c "cid" _ = Ret ?x |- _ =>
                destruct (api_parse_after_cid rt c x 1 H) as (? & -> & ? & ?); cbn beta iota
            end
        | |- after (Api.fetch_comment_replies _ _ _ _) _ _ =>
            eapply after_weaken;
            [by apply api_fetch_comment_replies_returns
            | intros [? ?] [?|?|] ?; cbn in * ]
        | |- after (for_each Api.attach_reply _) _ _ =>
            eapply after_weaken;
            [apply api_attach_replies_frame
            | intros [? ?] [[]|?|] (? & ? & ?); cbn in *; simplify_eq ]
        end
      | run_step ];
    cbn in *; try done; no_fuel_needed.
Qed.

Lemma api_root_page_returns (s : world * Api.root_vars) :
  fetch_replies = false \/ replies_fail_within api fuel ->
  after (Api.root_page rt max_comments fetch_replies api fuel) s
        (fun s' r => r <> OutOfFuel).
Proof.
  intros Hok. unfold Api.root_page, Api.root_page_try, await_fetch_video_comments.
  apply after_try_except, after_bind. constructor.
  destruct s as [w v]. cbn.
  destruct (api_fetch_video_comments api (root_calls w)) as [resp|e];
    cbn; [|by apply after_ret].
  repeat first
    [ lazymatch goal with
      | |- after (for_each (Api.root_item _ _ _ _ _) _) _ _ =>
          eapply after_weaken;
          [ apply after_for_each with
              (inv := fun _ : world * Api.root_vars => True)
              (post := fun (_ : world * Api.root_vars) (r : result unit) => r <> OutOfFuel);
            [ done | done
            | intros ? ? _ _; eapply after_weaken;
              [ by apply api_root_item_returns | by intros ? [[|]|?|] ? ] ]
          | intros [? ?] [[]|?|] ?; cbn beta iota ]
      end
    | run_step ];
  cbn in *; try done; try (by apply after_ret); no_fuel_needed.
Qed.

(** Where the feed gives no page at the root call number [j] from the
    start, the harvest makes no call after it and returns. *)
Lemma api_fetch_video_comments_returns (w : world) (j : nat) :
  no_page (api_fetch_video_comments api (root_calls w + j)%nat) ->
  (j < fuel)%nat ->
  fetch_replies = false \/ replies_fail_within api fuel ->
  let run := Api.fetch_video_comments rt max_comments fetch_replies api fuel w in
  (exists rows, snd run = Ret rows)
  /\ (root_calls (fst (fst run)) <= root_calls w + j + 1)%nat.
Proof.
  intros Hno Hfuel Hok run.
  assert (after (Api.fetch_video_comments_body rt max_comments fetch_replies api fuel)
                (w, Api.empty_root_vars)
                (fun s' r => (exists rows, r = Ret rows)
                             /\ (root_calls (fst s') <= root_calls w + j + 1)%nat)) as Hafter.
  { unfold Api.fetch_video_comments_body. apply after_bind.
    eapply after_weaken.
    - apply (stops_where_no_cursor
               (fun s0 : world * Api.root_vars => root_calls (fst s0))
               (fun s0 => Api.cursor (snd s0))
               (api_fetch_video_comments api)
               (fetch_replies = false \/ replies_fail_within api fuel)) with (j := j).
      + intros s0. eapply after_weaken;
          [apply (after_both _ _ _ _ (api_root_page_spec rt max_comments fetch_replies
                                        api fuel s0)
                             (api_root_page_returns s0 Hok))|].
        intros s' r [[Hcalls [->|[[-> _]|Hnext]]] Hret]; split; auto. done.
      + intros resp c. by apply no_page_no_cursor.
    - intros s' [[]|e|] [Hle Hret]; cbn in *.
      + apply after_local. split; [eauto|lia].
      + by specialize (Hret Hok ltac:(lia)).
      + by specialize (Hret Hok ltac:(lia)). }
  destruct Hafter as [H]. exact H.
Qed.

End ApiReturns.

Lemma api_crawl_mix_loop_continues {V : Type} (process_video : V -> Api.video_outcome)
      (videos : list V) (st : Api.stats) (attempted : list V) :
  Forall (fun video => process_video video <> Api.KeyboardInterrupt) videos ->
  let run := Api.crawl_mix_loop process_video videos st attempted in
  snd run = attempted ++ videos
  /\ (Api.processed_videos (fst run) + Api.failed_videos (fst run)
      = Api.processed_videos st + Api.failed_videos st + length videos)%nat.
Proof.
  revert st attempted. induction videos as [|video rest IH]; intros st attempted Hall; cbn.
  - rewrite app_nil_r. split; [done|lia].
  - apply Forall_cons in Hall as [Hvideo Hrest].
    destruct (process_video video) as [|e|]; [| |done].
    + destruct (IH {| Api.processed_videos := S (Api.processed_videos st);
                      Api.failed_videos := Api.failed_videos st |}
                   (attempted ++ [video]) Hrest) as [-> ->].
      rewrite <- app_assoc. split; [done|cbn; lia].
    + destruct (IH {| Api.processed_videos := Api.processed_videos st;
                      Api.failed_videos := S (Api.failed_videos st) |}
                   (attempted ++ [video]) Hrest) as [-> ->].
      rewrite <- app_assoc. split; [done|cbn; lia].
Qed.

(** C8.  Whatever the feed does (a call that times out or raises, a page
    that is malformed), [DouyinAPICrawler.fetch_video_comments] raises
    nothing.  A failed call counts as a page without items: the harvest ends
    in the same state and with the same rows as if the feed had answered
    every failed call with an empty page.  And the loop of [crawl_mix] goes
    on to the next video after a video whose processing raised.

    The harvest returns after a failure.  From any state of the loop with
    rows still wanted, a pass whose [try] block raises is the last one:
    the harvest returns, in the state the exception left, the rows
    collected up to there.  A call that gives no page (it raised, or what
    came back is not a dict) adds nothing and is the last: the harvest
    returns the rows it held.  And run from the start, a harvest whose
    root call number [j] gives no page returns a list of rows, having made
    [j + 1] root calls at most, once its fuel covers these calls and
    either replies are not fetched or the reply end point gives no page
    within as many calls of any call (so that no reply sub-fetch goes on
    for ever). *)
Theorem api_upstream_failures_absorbed
    (rt : runtime) (max_comments : Z) (fetch_replies : bool) (api : feed)
    (fuel : nat) (w : world) :
  (forall e,
     snd (Api.fetch_video_comments rt max_comments fetch_replies api fuel w) <> Raise e)
  /\ Api.fetch_video_comments rt max_comments fetch_replies (absorbed api) fuel w
     = Api.fetch_video_comments rt max_comments fetch_replies api fuel w
  /\ (forall (V : Type) (process_video : V -> Api.video_outcome)
             (videos : list V) (st : Api.stats),
        Forall (fun video => process_video video <> Api.KeyboardInterrupt) videos ->
        let run := Api.crawl_mix_loop process_video videos st [] in
        snd run = videos
        /\ (Api.processed_videos (fst run) + Api.failed_videos (fst run)
            = Api.processed_videos st + Api.failed_videos st + length videos)%nat)
  /\ (forall (s s' : world * Api.root_vars) (e : exn),
        len (Api.comments (snd s)) < max_comments ->
        (1 <= fuel)%nat ->
        Api.root_page_try rt max_comments fetch_replies api fuel s = (s', Raise e) ->
        Api.fetch_video_comments_body rt max_comments fetch_replies api fuel s
        = (s', Ret (Api.comments (snd s'))))
  /\ (forall (w0 : world) (v : Api.root_vars),
        len (Api.comments v) < max_comments ->
        (1 <= fuel)%nat ->
        no_page (api_fetch_video_comments api (root_calls w0)) ->
        Api.fetch_video_comments_body rt max_comments fetch_replies api fuel (w0, v)
        = (({| root_calls := S (root_calls w0); reply_calls := reply_calls w0 |}, v),
           Ret (Api.comments v)))
  /\ (forall j : nat,
        no_page (api_fetch_video_comments api (root_calls w + j)%nat) ->
        (j < fuel)%nat ->
        fetch_replies = false \/ replies_fail_within api fuel ->
        let run := Api.fetch_video_comments rt max_comments fetch_replies api fuel w in
        (exists rows, snd run = Ret rows)
        /\ (root_calls (fst (fst run)) <= root_calls w + j + 1)%nat).
Proof.
  split_and!.
  - apply api_fetch_video_comments_no_raise.
  - apply api_fetch_video_comments_absorbed.
  - intros V process_video videos st Hall.
    apply (api_crawl_mix_loop_continues process_video videos st [] Hall).
  - apply api_harvest_returns_at_raise.
  - apply api_harvest_returns_at_no_page.
  - apply api_fetch_video_comments_returns.
Qed.

Lemma failing_feed_replies_fail (n : nat) : replies_fail_within failing_feed (S n).
Proof.
  intros start. exists 0%nat. split; [lia|]. rewrite Nat.add_0_r.
  by destruct start as [|[|start]].
Qed.

Lemma api_upstream_failures_absorbed_witness :
  (exists nodes,
     snd (Api.fetch_video_comments plain_runtime 1000 true failing_feed 10 fresh_world)
     = Ret nodes /\ map Api.comment_id nodes = [PStr "A"])
  /\ Api.crawl_mix_loop process_video_failing_on_2 [1; 2; 3]%nat
       {| Api.processed_videos := 0; Api.failed_videos := 0 |} []
     = ({| Api.processed_videos := 2; Api.failed_videos := 1 |}, [1; 2; 3]%nat)
  /\ no_page (api_fetch_video_comments failing_feed 1)
  /\ (let run := Api.fetch_video_comments plain_runtime 1000 true failing_feed 10
                   fresh_world in
      (exists rows, snd run = Ret rows)
      /\ (root_calls (fst (fst run)) <= 2)%nat).
Proof.
  pose proof (api_upstream_failures_absorbed plain_runtime 1000 true failing_feed 10
                fresh_world) as (Hno_raise & Hsame & Hloop & _ & _ & Hreturns).
  split_and!.
  - rewrite <- Hsame. vm_compute. eexists. split; reflexivity.
  - assert (Forall (fun video => process_video_failing_on_2 video <> Api.KeyboardInterrupt)
                   [1; 2; 3]%nat) as Hall.
    { repeat constructor; discriminate. }
    destruct (Hloop nat process_video_failing_on_2 [1; 2; 3]%nat
                {| Api.processed_videos := 0; Api.failed_videos := 0 |} Hall) as [_ _].
    reflexivity.
  - exact I.
  - apply (Hreturns 1%nat); [exact I|lia|].
    right. apply failing_feed_replies_fail.
Defined.

Lemma drission_parse_dict (rt : runtime) (d : list (string * pyval)) :
  exists row, Drission._parse_comment rt (PDict d) = Ret row.
Proof.
  unfold Drission._parse_comment.
  destruct (Drission._parse_comment_try rt (PDict d)) as [row|e|] eqn:Htry; [eauto|cbn; eauto|].
  exfalso. revert Htry.
  unfold Drission._parse_comment_try, rbind, py_strip, py_get.
  repeat (case_match; simplify_eq/=; try done).
Qed.

Lemma drission_parse_after_cid (rt : runtime) (comment x : pyval) :
  py_get comment "cid" (PStr "") = Ret x ->
  exists row, Drission._parse_comment rt comment = Ret row.
Proof. intros (d & -> & _)%py_get_ret_dict. apply drission_parse_dict. Qed.



Section DrissionVerify.
Context (rt : runtime) (driver : Drission.browser) (expected_count : Z).


Lemma drission_packet_comments_settled (body : outcome pyval) :
  Drission.packet_comments body <> OutOfFuel.
Proof.
  unfold Drission.packet_comments, rbind, result_of, py_contains, py_item, py_iter.
  repeat case_match; done.
Qed.





End DrissionVerify.

(** * C6: the verification pass at 100 % coverage *)




(** The scrolling loop on the slow browser, one comment expected: the first
    verification pass finds a second comment and the loop goes on; the
    second pass finds nothing and ends it. *)
Example drission_verification_resumes_then_stops :
  let run := Drission.get_video_comments_scroll plain_runtime 2000 slow_browser 1 [] ∅
               Drission.fresh_page in
  exists rows,
    snd run = Ret rows
    /\ length rows = 2%nat
    /\ Drission.actions (fst (fst run))
       = [Drission.JsScroll 100; Drission.JsScroll 500;
          Drission.JsScroll 100; Drission.JsScroll 500].
Proof. vm_compute. eexists. repeat split. Qed.

(** * crawl_mix_api.py: the shape and the size of a harvest *)

Section ApiThreads.
Context (rt : runtime) (max_comments : Z) (fetch_replies : bool) (api : feed) (fuel : nat).

Lemma api_py_min_100_le (v : pyval) (z : Z) : py_min_100 v = Ret z -> z <= 100.
Proof. unfold py_min_100. destruct (as_num v); intros; simplify_eq. lia. Qed.

(** The reply sub-fetch, seen from its caller: the caller's locals are as
    before, and the rows are at most 100 rows of level 2. *)
Lemma api_fetch_comment_replies_rows {L : Type} (expected_count : pyval) (s : world * L) :
  after (Api.fetch_comment_replies rt api fuel expected_count) s
        (fun s' r => snd s' = snd s
                     /\ forall rows, r = Ret rows ->
                                     len rows <= 100
                                     /\ Forall (fun row => Api.level row = 2) rows).
Proof.
  unfold Api.fetch_comment_replies. run; try done.
  apply after_call.
  eapply after_weaken.
  - apply api_fetch_comment_replies_body_bound. split; [cbn [snd Api.replies]; len_lia | constructor].
  - intros s' r H. split; [done|]. intros rows ->.
    destruct (H rows eq_refl) as [Hlen ?]. split; [|done].
    match goal with H : py_min_100 _ = _ |- _ => apply api_py_min_100_le in H end.
    lia.
Qed.

Lemma api_attach_reply_grow (reply : Api.comment_row) (s : world * Api.root_vars) :
  after (Api.attach_reply reply) s
        (fun s' r => (Api.comments (snd s') = Api.comments (snd s)
                      \/ Api.comments (snd s') = Api.comments (snd s) ++ [reply])
                     /\ r <> Ret Break).
Proof. unfold Api.attach_reply. run; cbn; split; auto; done. Qed.

Lemma api_attach_replies_grow (replies : list Api.comment_row) (s : world * Api.root_vars) :
  Forall (fun row => Api.level row = 2) replies ->
  after (for_each Api.attach_reply replies) s
        (fun s' _ => exists added,
                       Api.comments (snd s') = Api.comments (snd s) ++ added
                       /\ len added <= len replies
                       /\ Forall (fun row => Api.level row = 2) added).
Proof.
  intros Hlvl. revert s. induction Hlvl as [|reply rest Hreply Hrest IH]; intros s.
  - apply after_ret. exists []. rewrite app_nil_r. split_and!; [done|done|constructor].
  - cbn [for_each]. apply after_bind.
    eapply after_weaken; [apply api_attach_reply_grow|].
    intros s1 [[|]|e|] [Hgrow Hnb]; cbn beta iota; try done.
    + eapply after_weaken; [apply IH|].
      intros s2 _ (added & -> & Hlen & Hadded). cbn beta.
      destruct Hgrow as [-> | ->].
      * exists added. split_and!; [done|len_lia|done].
      * exists (reply :: added). rewrite <- app_assoc. split_and!; [done|len_lia|].
        by constructor.
    + destruct Hgrow as [-> | ->].
      * exists []. rewrite app_nil_r. split_and!; [done|len_lia|constructor].
      * exists [reply]. split_and!; [done|len_lia|by repeat constructor].
    + destruct Hgrow as [-> | ->].
      * exists []. rewrite app_nil_r. split_and!; [done|len_lia|constructor].
      * exists [reply]. split_and!; [done|len_lia|by repeat constructor].
Qed.

(** One item of a page adds nothing or one thread. *)
Lemma api_root_item_thread (comment : pyval) (s : world * Api.root_vars) :
  len (Api.comments (snd s)) < max_comments ->
  after (Api.root_item rt max_comments fetch_replies api fuel comment) s
        (fun s' r => exists t,
                       Api.comments (snd s') = Api.comments (snd s) ++ t
                       /\ (t = [] \/ api_thread fetch_replies t)
                       /\ (r = Ret Next -> len (Api.comments (snd s')) < max_comments)).
Proof.
  intros Hlen. unfold Api.root_item.
  repeat first
    [ lazymatch goal with
      | |- match Api._parse_comment _ ?c _ with _ => _ end =>
          match goal with
          | H : py_get c "cid" _ = Ret ?x |- _ =>
              destruct (api_parse_after_cid rt c x 1 H) as (? & -> & ? & ?); cbn beta iota
          end
      | |- after (Api.fetch_comment_replies _ _ _ _) _ _ =>
          eapply after_weaken;
          [ apply api_fetch_comment_replies_rows
          | intros [? ?] [rows|?|] [? Hrows]; cbn in *; simplify_eq;
            try (destruct (Hrows rows eq_refl) as [? ?]) ]
      | |- after (for_each Api.attach_reply _) _ _ =>
          eapply after_weaken;
          [ by apply api_attach_replies_grow
          | intros [? ?] [[]|?|] (added & ? & ? & ?); cbn in *; simplify_eq ]
      end
    | run_step ];
  cbn in *; bool_to_Z.
  all: try (exists []; rewrite app_nil_r; split_and!; [done | by left | done]).
  all: try match goal with
       | H : ?c = _ ++ ?added |- exists t, ?c = _ /\ _ =>
           eexists (_ :: added); rewrite H, <- app_assoc; split; [reflexivity|];
           split; [right; eexists _, added; split_and!; [done|done|done|]|]
       | |- exists t, ?c ++ [?row] = _ /\ _ =>
           exists [row]; split; [done|];
           split; [right; exists row, []; split_and!; [done|done|constructor|]|]
       end.
  all: try (destruct fetch_replies; [|done]).
  all: try done; try len_lia; try (intros _; len_lia).
  all: intros _; rewrite app_assoc.
  all: match goal with H : Api.comments _ = _ |- _ => by rewrite <- H end.
Qed.

Lemma api_threads_nil : api_threads fetch_replies [].
Proof. exists []. split; [done|constructor]. Qed.

Lemma api_threads_app (rows t : list Api.comment_row) :
  api_threads fetch_replies rows ->
  t = [] \/ api_thread fetch_replies t ->
  api_threads fetch_replies (rows ++ t).
Proof.
  intros (threads & -> & Hall) [-> | Ht].
  - rewrite app_nil_r. by exists threads.
  - exists (threads ++ [t]). rewrite concat_app. cbn. rewrite app_nil_r.
    split; [done|]. apply Forall_app. split; [done|]. by constructor.
Qed.

Lemma api_thread_len (t : list Api.comment_row) :
  t = [] \/ api_thread fetch_replies t ->
  len t <= 1 + (if fetch_replies then 100 else 0).
Proof.
  intros [-> | (root & replies & -> & _ & _ & ?)]; [destruct fetch_replies; len_lia|].
  len_lia.
Qed.

Lemma api_root_items_threads (items : list pyval) (s : world * Api.root_vars) :
  api_threads fetch_replies (Api.comments (snd s)) ->
  len (Api.comments (snd s)) < max_comments ->
  after (for_each (Api.root_item rt max_comments fetch_replies api fuel) items) s
        (fun s' _ => api_threads fetch_replies (Api.comments (snd s'))
                     /\ len (Api.comments (snd s'))
                        <= max_comments + (if fetch_replies then 100 else 0)).
Proof.
  intros Hthreads Hlen.
  apply after_for_each with
    (inv := fun s0 : world * Api.root_vars =>
              api_threads fetch_replies (Api.comments (snd s0))
              /\ len (Api.comments (snd s0)) < max_comments); [done|..].
  - intros s0 [? ?]. split; [done|]. destruct fetch_replies; lia.
  - intros x s0 _ [Hth0 Hlen0].
    eapply after_weaken; [by apply api_root_item_thread|].
    intros s' r (t & Ht & Hshape & Hnext).
    pose proof (api_thread_len t Hshape) as Hsize.
    assert (api_threads fetch_replies (Api.comments (snd s'))) as Hth'.
    { rewrite Ht. by apply api_threads_app. }
    assert (len (Api.comments (snd s'))
            <= max_comments + (if fetch_replies then 100 else 0)) as Hlen'.
    { rewrite Ht, len_app. lia. }
    destruct r as [[|]|e|]; cbn; auto.
Qed.

Lemma api_root_page_threads (s : world * Api.root_vars) :
  api_threads fetch_replies (Api.comments (snd s)) ->
  len (Api.comments (snd s)) < max_comments ->
  after (Api.root_page rt max_comments fetch_replies api fuel) s
        (fun s' _ => api_threads fetch_replies (Api.comments (snd s'))
                     /\ len (Api.comments (snd s'))
                        <= max_comments + (if fetch_replies then 100 else 0)).
Proof.
  intros Hthreads Hlen.
  assert (len (Api.comments (snd s))
          <= max_comments + (if fetch_replies then 100 else 0)) as Hle
    by (destruct fetch_replies; lia).
  unfold Api.root_page, Api.root_page_try, await_fetch_video_comments.
  apply after_try_except, after_bind. constructor.
  destruct s as [w v]. cbn in *.
  destruct (api_fetch_video_comments api (root_calls w)) as [resp|e];
    [|by apply after_ret].
  repeat first
    [ lazymatch goal with
      | |- after (for_each (Api.root_item _ _ _ _ _) _) _ _ =>
          eapply after_weaken;
          [by apply api_root_items_threads | intros [? ?] [[]|?|] [? ?]; cbn beta iota]
      end
    | run_step ];
  cbn in *; done.
Qed.

Lemma api_fetch_video_comments_threads (w : world) (st : world * Api.root_vars)
      (nodes : list Api.comment_row) :
  Api.fetch_video_comments rt max_comments fetch_replies api fuel w = (st, Ret nodes) ->
  api_threads fetch_replies nodes
  /\ len nodes <= Z.max 0 (max_comments + (if fetch_replies then 100 else 0)).
Proof.
  intros Hrun.
  assert (after (Api.fetch_video_comments_body rt max_comments fetch_replies api fuel)
            (w, Api.empty_root_vars)
            (fun _ r => forall rows, r = Ret rows ->
               api_threads fetch_replies rows
               /\ len rows <= Z.max 0 (max_comments + (if fetch_replies then 100 else 0))))
    as Hafter.
  { unfold Api.fetch_video_comments_body. apply after_bind.
    apply after_while_loop with
      (inv := fun s0 : world * Api.root_vars =>
                api_threads fetch_replies (Api.comments (snd s0))
                /\ len (Api.comments (snd s0))
                   <= Z.max 0 (max_comments + (if fetch_replies then 100 else 0))).
    - split; [apply api_threads_nil | cbn [snd Api.comments Api.empty_root_vars]; len_lia].
    - intros s0 H0 _. apply after_local. by intros ? [= <-].
    - done.
    - intros s0 [H0 _] Hc. bool_to_Z.
      eapply after_weaken; [by apply api_root_page_threads|].
      intros s' [[|]|e|] [? ?]; cbn in *; try done; try (split; [done|lia]).
      apply after_local. intros ? [= <-]. split; [done|lia]. }
  exact (after_elim _ _ _ _ _ Hafter Hrun nodes eq_refl).
Qed.

End ApiThreads.

Lemma api_threads_levels (fetch_replies : bool) (rows : list Api.comment_row) :
  api_threads fetch_replies rows ->
  Forall (fun row => Api.level row = 1 \/ Api.level row = 2) rows.
Proof.
  intros (threads & -> & Hall). induction Hall as [|t rest Ht _ IH]; cbn; [constructor|].
  apply Forall_app. split; [|done].
  destruct Ht as (root & replies & -> & ? & Hreplies & _).
  constructor; [by left|]. eapply Forall_impl; [exact Hreplies|]. cbn. auto.
Qed.

Lemma api_count_levels (rows : list Api.comment_row) :
  Forall (fun row => Api.level row = 1 \/ Api.level row = 2) rows ->
  ApiReport.count_level 1 rows + ApiReport.count_level 2 rows = len rows.
Proof.
  unfold ApiReport.count_level.
  induction 1 as [|row rest Hrow _ IH]; [done|].
  rewrite !filter_cons. repeat case_decide; unfold len in *; cbn [length]; lia.
Qed.


(** X1.  [DouyinAPICrawler.fetch_video_comments] may pass [max_comments],
    but by less than one batch of replies: it returns at most
    [max_comments + 100] rows when replies are fetched, and at most
    [max_comments] rows when they are not (none at all for a cap that is
    not positive). *)
Theorem api_fetch_video_comments_overshoot_bounded
    (rt : runtime) (max_comments : Z) (fetch_replies : bool) (api : feed) (fuel : nat)
    (w : world) (st : world * Api.root_vars) (nodes : list Api.comment_row) :
  Api.fetch_video_comments rt max_comments fetch_replies api fuel w = (st, Ret nodes) ->
  len nodes <= Z.max 0 (max_comments + (if fetch_replies then 100 else 0)).
Proof.
  intros Hrun.
  by destruct (api_fetch_video_comments_threads rt max_comments fetch_replies api fuel
                 w st nodes Hrun).
Qed.

Lemma api_fetch_video_comments_overshoot_bounded_witness :
  exists st nodes,
    Api.fetch_video_comments plain_runtime 1 true generous_reply_feed 10 fresh_world
    = (st, Ret nodes)
    /\ len nodes = 2
    /\ len nodes <= Z.max 0 (1 + 100).
Proof.
  pose (run := Api.fetch_video_comments plain_runtime 1 true generous_reply_feed 10
                 fresh_world).
  assert (exists nodes, run = (fst run, Ret nodes) /\ len nodes = 2) as (nodes & Hrun & Hlen).
  { vm_compute. eexists. split; reflexivity. }
  exists (fst run), nodes. split; [exact Hrun|]. split; [exact Hlen|].
  exact (api_fetch_video_comments_overshoot_bounded _ _ _ _ _ _ _ _ Hrun).
Defined.

(** X2.  The list [fetch_video_comments] returns is one thread after the
    other: the row of a root comment (level 1) followed directly by the
    rows of its replies (level 2, at most 100, none when [fetch_replies] is
    off).  So a reply row never stands before the first root row, and the
    position in the list is what ties a reply to its root. *)
Theorem api_fetch_video_comments_threaded
    (rt : runtime) (max_comments : Z) (fetch_replies : bool) (api : feed) (fuel : nat)
    (w : world) (st : world * Api.root_vars) (nodes : list Api.comment_row) :
  Api.fetch_video_comments rt max_comments fetch_replies api fuel w = (st, Ret nodes) ->
  exists threads,
    nodes = concat threads /\ Forall (api_thread fetch_replies) threads.
Proof.
  intros Hrun.
  by destruct (api_fetch_video_comments_threads rt max_comments fetch_replies api fuel
                 w st nodes Hrun).
Qed.

Lemma api_fetch_video_comments_threaded_witness :
  exists st nodes threads,
    Api.fetch_video_comments plain_runtime 1 true generous_reply_feed 10 fresh_world
    = (st, Ret nodes)
    /\ map Api.comment_id nodes = [PStr "A"; PStr "B"]
    /\ nodes = concat threads /\ Forall (api_thread true) threads.
Proof.
  pose (run := Api.fetch_video_comments plain_runtime 1 true generous_reply_feed 10
                 fresh_world).
  assert (exists nodes, run = (fst run, Ret nodes)
                        /\ map Api.comment_id nodes = [PStr "A"; PStr "B"])
    as (nodes & Hrun & Hids).
  { vm_compute. eexists. split; reflexivity. }
  destruct (api_fetch_video_comments_threaded _ _ _ _ _ _ _ _ Hrun) as (threads & H).
  exists (fst run), nodes, threads. split; [exact Hrun|]. split; [exact Hids|exact H].
Defined.

(** X3.  The counts written for a harvest agree: in the [stats] entry of
    [_save_json], [level1_comments + level2_comments = total_comments], and
    the two figures [process_video] logs (level 1 counted, level 2 taken as
    the rest) are the same two counts, because every row that
    [fetch_video_comments] returns has level 1 or 2. *)
Theorem api_level_counts_add_up
    (rt : runtime) (max_comments : Z) (fetch_replies : bool) (api : feed) (fuel : nat)
    (w : world) (st : world * Api.root_vars) (nodes : list Api.comment_row) :
  Api.fetch_video_comments rt max_comments fetch_replies api fuel w = (st, Ret nodes) ->
  let stats := ApiReport._save_json_stats nodes in
  ApiReport.level1_comments stats + ApiReport.level2_comments stats
  = ApiReport.total_comments stats
  /\ ApiReport.process_video_levels nodes
     = (ApiReport.level1_comments stats, ApiReport.level2_comments stats).
Proof.
  intros Hrun.
  destruct (api_fetch_video_comments_threads rt max_comments fetch_replies api fuel
              w st nodes Hrun) as [Hthreads _].
  pose proof (api_count_levels nodes (api_threads_levels _ _ Hthreads)) as Hsum.
  cbn. split; [done|]. unfold ApiReport.process_video_levels. f_equal. lia.
Qed.

Lemma api_level_counts_add_up_witness :
  exists st nodes,
    Api.fetch_video_comments plain_runtime 1 true generous_reply_feed 10 fresh_world
    = (st, Ret nodes)
    /\ ApiReport._save_json_stats nodes
       = {| ApiReport.total_comments := 2;
            ApiReport.level1_comments := 1;
            ApiReport.level2_comments := 1 |}
    /\ ApiReport.process_video_levels nodes = (1, 1).
Proof.
  pose (run := Api.fetch_video_comments plain_runtime 1 true generous_reply_feed 10
                 fresh_world).
  assert (exists nodes, run = (fst run, Ret nodes)
                        /\ ApiReport._save_json_stats nodes
                           = {| ApiReport.total_comments := 2;
                                ApiReport.level1_comments := 1;
                                ApiReport.level2_comments := 1 |})
    as (nodes & Hrun & Hstats).
  { vm_compute. eexists. split; reflexivity. }
  destruct (api_level_counts_add_up _ _ _ _ _ _ _ _ Hrun) as [_ Hlevels].
  exists (fst run), nodes. split; [exact Hrun|]. split; [exact Hstats|].
  rewrite Hlevels, Hstats. reflexivity.
Defined.

(** * crawl_mix_complete.py: the cap, the links and the failures *)

Section CompleteMore.
Context (rt : runtime) (max_comments : Z) (crawler : feed) (fuel : nat).

Lemma complete_root_page_no_raise (s : world * Complete.root_vars) :
  after (Complete.root_page rt max_comments crawler fuel) s
        (fun _ r => forall e, r <> Raise e).
Proof.
  unfold Complete.root_page. apply after_try_except, after_any.
  intros s' [c|e|]; [done| |done]. by apply after_ret.
Qed.

Lemma complete_get_all_comments_no_raise (w : world) (e : exn) :
  snd (Complete.get_all_comments rt max_comments crawler fuel w) <> Raise e.
Proof.
  assert (after (Complete.get_all_comments_body rt max_comments crawler fuel)
            (w, {| Complete.collected := []; Complete.cursor := PInt 0 |})
            (fun _ r => forall e, r <> Raise e)) as [H].
  { unfold Complete.get_all_comments_body. apply after_bind.
    apply after_while_loop with (inv := fun _ => True); [done|..].
    - intros s0 _ _. by apply after_local.
    - done.
    - intros s0 _ _. eapply after_weaken; [apply complete_root_page_no_raise|].
      intros s' [[|]|e'|] H; cbn; try done; by destruct (H e'). }
  apply H.
Qed.

(** A cap that is not positive: the loop is not entered. *)
Lemma complete_get_all_comments_no_cap (w : world) :
  max_comments <= 0 ->
  snd (Complete.get_all_comments rt max_comments crawler fuel w) = Ret [].
Proof.
  intros Hcap. unfold Complete.get_all_comments, Complete.get_all_comments_body, bind.
  assert (while_loop fuel
            (fun s : world * Complete.root_vars =>
               len (Complete.collected (snd s)) <? max_comments)
            (Complete.root_page rt max_comments crawler fuel)
            (w, {| Complete.collected := []; Complete.cursor := PInt 0 |})
          = ((w, {| Complete.collected := []; Complete.cursor := PInt 0 |}), Ret tt)) as ->.
  { assert ((len (@nil Complete.csv_row) <? max_comments) = false) as Hc
      by (apply Z.ltb_ge; unfold len; cbn [length]; lia).
    destruct fuel; cbn [while_loop snd Complete.collected]; by rewrite Hc. }
  done.
Qed.

End CompleteMore.

(** X4.  [MixCrawler.get_all_comments] keeps the cap: it never returns more
    than [max_comments] rows, replies included (and no row for a cap that
    is not positive), whatever the feed delivers. *)
Theorem complete_get_all_comments_capped
    (rt : runtime) (max_comments : Z) (crawler : feed) (fuel : nat)
    (w : world) (st : world * Complete.root_vars) (nodes : list Complete.csv_row) :
  Complete.get_all_comments rt max_comments crawler fuel w = (st, Ret nodes) ->
  len nodes <= Z.max 0 max_comments.
Proof.
  intros Hrun. destruct (decide (0 <= max_comments)) as [Hcap|Hcap].
  - pose proof (complete_get_all_comments_within_cap rt max_comments crawler fuel
                  w st nodes Hcap Hrun). lia.
  - pose proof (complete_get_all_comments_no_cap rt max_comments crawler fuel w
                  ltac:(lia)) as Hnone.
    rewrite Hrun in Hnone. cbn in Hnone. simplify_eq. unfold len; cbn [length]; lia.
Qed.

Lemma complete_get_all_comments_capped_witness :
  exists st nodes,
    Complete.get_all_comments plain_runtime 2 generous_reply_feed 10 fresh_world
    = (st, Ret nodes)
    /\ map Complete.cid nodes = [PStr "A"; PStr "B"]
    /\ len nodes <= Z.max 0 2.
Proof.
  pose (run := Complete.get_all_comments plain_runtime 2 generous_reply_feed 10 fresh_world).
  assert (exists nodes, run = (fst run, Ret nodes)
                        /\ map Complete.cid nodes = [PStr "A"; PStr "B"])
    as (nodes & Hrun & Hids).
  { vm_compute. eexists. split; reflexivity. }
  exists (fst run), nodes. split; [exact Hrun|]. split; [exact Hids|].
  exact (complete_get_all_comments_capped _ _ _ _ _ _ _ Hrun).
Defined.

(** X5.  In the rows [MixCrawler.get_all_comments] returns, every level-2
    row comes after a level-1 row whose comment id is the reply's parent
    id: no reply row is written without its root. *)
Theorem complete_get_all_comments_replies_linked
    (rt : runtime) (max_comments : Z) (crawler : feed) (fuel : nat)
    (w : world) (st : world * Complete.root_vars) (nodes : list Complete.csv_row) :
  Complete.get_all_comments rt max_comments crawler fuel w = (st, Ret nodes) ->
  forall i row,
    nodes !! i = Some row ->
    Complete.level row = 2 ->
    exists j root,
      (j < i)%nat /\ nodes !! j = Some root
      /\ Complete.level root = 1 /\ Complete.cid root = Complete.parent_id row.
Proof.
  intros Hrun.
  exact (complete_get_all_comments_linked rt max_comments crawler fuel w st nodes Hrun).
Qed.

Lemma complete_get_all_comments_replies_linked_witness :
  exists st nodes,
    Complete.get_all_comments plain_runtime 1000 generous_reply_feed 10 fresh_world
    = (st, Ret nodes)
    /\ map Complete.cid nodes = [PStr "A"; PStr "B"; PStr "C"]
    /\ map Complete.parent_id nodes = [PStr ""; PStr "A"; PStr "A"]
    /\ forall i row,
         nodes !! i = Some row ->
         Complete.level row = 2 ->
         exists j root,
           (j < i)%nat /\ nodes !! j = Some root
           /\ Complete.level root = 1 /\ Complete.cid root = Complete.parent_id row.
Proof.
  pose (run := Complete.get_all_comments plain_runtime 1000 generous_reply_feed 10
                 fresh_world).
  assert (exists nodes, run = (fst run, Ret nodes)
                        /\ map Complete.cid nodes = [PStr "A"; PStr "B"; PStr "C"]
                        /\ map Complete.parent_id nodes = [PStr ""; PStr "A"; PStr "A"])
    as (nodes & Hrun & Hids & Hparents).
  { vm_compute. eexists. split_and!; reflexivity. }
  exists (fst run), nodes. split; [exact Hrun|]. split; [exact Hids|].
  split; [exact Hparents|].
  exact (complete_get_all_comments_replies_linked _ _ _ _ _ _ _ Hrun).
Defined.

(** X6.  [MixCrawler.get_comment_replies] returns at most [max_needed]
    rows (none when [max_needed] is not positive), each of level 2 and
    with the [comment_id] it was called for as parent id, and leaves the
    caller's locals as they were. *)
Theorem complete_get_comment_replies_rows_of_parent {L : Type}
    (rt : runtime) (crawler : feed) (fuel : nat) (comment_id : pyval) (max_needed : Z)
    (s s' : world * L) (rows : list Complete.csv_row) :
  Complete.get_comment_replies rt crawler fuel comment_id max_needed s = (s', Ret rows) ->
  len rows <= Z.max 0 max_needed
  /\ Forall (fun row => Complete.level row = 2 /\ Complete.parent_id row = comment_id) rows
  /\ snd s' = snd s.
Proof.
  intros Hrun.
  pose proof (complete_get_comment_replies_bound rt crawler fuel comment_id max_needed s)
    as Hbound.
  pose proof (complete_get_comment_replies_rows rt crawler fuel comment_id max_needed s)
    as Hrows.
  destruct (after_elim _ _ _ _ _ Hbound Hrun) as [Hlocals Hlen].
  destruct (after_elim _ _ _ _ _ Hrows Hrun) as [_ Hof].
  split_and!; [by apply Hlen | by apply Hof | done].
Qed.

Lemma complete_get_comment_replies_rows_of_parent_witness :
  exists s' rows,
    Complete.get_comment_replies plain_runtime generous_reply_feed 10 (PStr "A") 1
      (fresh_world, tt)
    = (s', Ret rows)
    /\ map Complete.cid rows = [PStr "B"]
    /\ len rows <= Z.max 0 1
    /\ Forall (fun row => Complete.level row = 2 /\ Complete.parent_id row = PStr "A") rows
    /\ snd s' = tt.
Proof.
  pose (run := Complete.get_comment_replies plain_runtime generous_reply_feed 10 (PStr "A") 1
                 (fresh_world, tt)).
  assert (exists rows, run = (fst run, Ret rows) /\ map Complete.cid rows = [PStr "B"])
    as (rows & Hrun & Hids).
  { vm_compute. eexists. split; reflexivity. }
  exists (fst run), rows. split; [exact Hrun|]. split; [exact Hids|].
  exact (complete_get_comment_replies_rows_of_parent _ _ _ _ _ _ _ _ Hrun).
Defined.

(** X7.  [MixCrawler.get_all_comments] raises nothing, whatever the feed
    does: a call that fails, a malformed page and a comment whose time
    stamp cannot be rendered are all caught inside the loop. *)
Theorem complete_get_all_comments_never_raises
    (rt : runtime) (max_comments : Z) (crawler : feed) (fuel : nat) (w : world) (e : exn) :
  snd (Complete.get_all_comments rt max_comments crawler fuel w) <> Raise e.
Proof. apply complete_get_all_comments_no_raise. Qed.

(** * File names *)

Lemma In_u_replace (c x : N) (r s : ustring) :
  In x (u_replace c r s) -> (In x s /\ x <> c) \/ In x r.
Proof.
  induction s as [|a s IH]; cbn [u_replace]; [done|].
  destruct (N.eqb a c) eqn:Hac.
  - rewrite in_app_iff. intros [?|H]; [by right|].
    destruct (IH H) as [[? ?]|?]; cbn; auto.
  - apply N.eqb_neq in Hac. cbn. intros [<-|H]; [left; auto|].
    destruct (IH H) as [[? ?]|?]; auto.
Qed.

Lemma In_replace_each (cs r s : ustring) (x : N) :
  In x (replace_each cs r s) -> (In x s /\ ~ In x cs) \/ In x r.
Proof.
  unfold replace_each. revert s. induction cs as [|c cs IH]; intros s; cbn.
  - intros H. left. auto.
  - intros H. destruct (IH _ H) as [[Hin Hcs]|?]; [|by right].
    destruct (In_u_replace _ _ _ _ Hin) as [[? ?]|?]; [|by right].
    left. split; [done|]. intros [->|?]; done.
Qed.

Lemma In_u_lstrip (s : ustring) (x : N) : In x (u_lstrip s) -> In x s.
Proof. induction s as [|a s IH]; cbn; [done|]. destruct (u_isspace a); cbn; auto. Qed.

Lemma In_u_rstrip (s : ustring) (x : N) : In x (u_rstrip s) -> In x s.
Proof.
  induction s as [|a s IH]; cbn; [done|].
  destruct (u_rstrip s) as [|b t] eqn:E.
  - destruct (u_isspace a); cbn; [done|]. intros [?|[]]. by left.
  - cbn in *. intros [?|?]; auto.
Qed.

Lemma In_u_strip (s : ustring) (x : N) : In x (u_strip s) -> In x s.
Proof. intros H. by apply In_u_lstrip, In_u_rstrip. Qed.

Lemma length_u_lstrip (s : ustring) : (length (u_lstrip s) <= length s)%nat.
Proof. induction s as [|a s IH]; cbn; [done|]. destruct (u_isspace a); cbn; lia. Qed.

Lemma length_u_rstrip (s : ustring) : (length (u_rstrip s) <= length s)%nat.
Proof.
  induction s as [|a s IH]; cbn; [done|].
  destruct (u_rstrip s) as [|b t]; [destruct (u_isspace a)|]; cbn in *; lia.
Qed.

Lemma len_u_strip (s : ustring) : len (u_strip s) <= len s.
Proof.
  unfold len, u_strip.
  pose proof (length_u_rstrip (u_lstrip s)). pose proof (length_u_lstrip s). lia.
Qed.

Lemma In_firstn_list {A : Type} (n : nat) (l : list A) (x : A) :
  In x (firstn n l) -> In x l.
Proof. intros H. rewrite <- (firstn_skipn n l). apply in_or_app. by left. Qed.

Lemma In_py_slice_to {A : Type} (l : list A) (n : Z) (x : A) :
  In x (Playwright.py_slice_to l n) -> In x l.
Proof. unfold Playwright.py_slice_to. destruct (0 <=? n); apply In_firstn_list. Qed.

Lemma len_py_slice_to {A : Type} (l : list A) (n : Z) :
  0 <= n -> len (Playwright.py_slice_to l n) = Z.min n (len l).
Proof.
  intros Hn. unfold Playwright.py_slice_to.
  assert ((0 <=? n) = true) as -> by (by apply Z.leb_le).
  unfold len. rewrite length_firstn. lia.
Qed.

Lemma u_or_cases (s dflt : ustring) :
  (s = [] /\ u_or s dflt = dflt) \/ (s <> [] /\ u_or s dflt = s).
Proof. destruct s; [by left | by right]. Qed.

(** X8.  [sanitize_filename] of crawl_mix_api.py, on any name (a sequence
    of Unicode code points), never returns the empty name, its result
    holds none of the characters it is meant to remove, and for
    [max_length >= 0] the result has at most [max(max_length, 8)]
    characters (8 for the stand-in name [untitled]). *)
Theorem api_sanitize_filename_safe (name : ustring) (max_length : Z) :
  let file_name := ApiNames.sanitize_filename name max_length in
  file_name <> []
  /\ (forall c, In c ApiNames.invalid_chars -> ~ In c file_name)
  /\ (0 <= max_length -> len file_name <= Z.max max_length 8).
Proof.
  cbn zeta. unfold ApiNames.sanitize_filename.
  set (cleaned := replace_each ApiNames.invalid_chars [] name).
  set (cut := if max_length <? len (u_strip cleaned)
              then Playwright.py_slice_to (u_strip cleaned) max_length
              else u_strip cleaned).
  assert (forall c, In c cut -> In c cleaned) as Hsub.
  { intros c. unfold cut. destruct (max_length <? _).
    - intros H. by apply In_u_strip, (In_py_slice_to _ max_length).
    - apply In_u_strip. }
  split; [|split].
  - destruct (u_or_cases cut (codes "untitled")) as [[_ ->]|[? ->]]; done.
  - intros c Hc Hin.
    destruct (u_or_cases cut (codes "untitled")) as [[_ E]|[_ E]]; rewrite E in Hin.
    + vm_compute in Hc, Hin. intuition congruence.
    + apply Hsub in Hin. by destruct (In_replace_each _ _ _ _ Hin) as [[_ ?]|[]].
  - intros Hmax.
    destruct (u_or_cases cut (codes "untitled")) as [[_ ->]|[_ ->]];
      [change (len (codes "untitled")) with 8; lia|].
    unfold cut. destruct (max_length <? len (u_strip cleaned)) eqn:Hlong.
    + rewrite len_py_slice_to by done. lia.
    + apply Z.ltb_ge in Hlong. lia.
Qed.

(** On a title in Chinese: the ideographic spaces at both ends go, the
    colon and the slash go, the characters stay whole; and a character
    whose last byte in UTF-8 is 0xA0 is kept. *)
Lemma api_sanitize_filename_chinese :
  ApiNames.sanitize_filename spaced_title 50 = [25238; 38899; 21512; 38598]%N
  /\ ApiNames.sanitize_filename spaced_title 3 = [25238; 38899; 21512]%N
  /\ ApiNames.sanitize_filename [20000]%N 50 = [20000]%N
  /\ ApiNames.sanitize_filename [12288; 58]%N 50 = codes "untitled".
Proof. split_and!; reflexivity. Qed.

(** A name that begins with a character that is not white space. *)
Lemma u_lstrip_head (s : ustring) :
  u_lstrip s = [] \/ exists a t, u_lstrip s = a :: t /\ u_isspace a = false.
Proof.
  induction s as [|a s IH]; cbn; [by left|].
  destruct (u_isspace a) eqn:Ha; [done|]. right. eauto.
Qed.

Lemma u_rstrip_head (a : N) (t : ustring) :
  u_isspace a = false -> exists t', u_rstrip (a :: t) = a :: t'.
Proof. intros Ha. cbn. destruct (u_rstrip t); [rewrite Ha|]; eauto. Qed.

Lemma u_strip_head (s : ustring) :
  u_strip s = [] \/ exists a t, u_strip s = a :: t /\ u_isspace a = false.
Proof.
  unfold u_strip. destruct (u_lstrip_head s) as [->|(a & t & -> & Ha)]; [by left|].
  destruct (u_rstrip_head a t Ha) as [t' ->]. right. eauto.
Qed.

Lemma u_strip_keeps_head (a : N) (t : ustring) :
  u_isspace a = false -> exists t', u_strip (a :: t) = a :: t'.
Proof. intros Ha. unfold u_strip. cbn [u_lstrip]. rewrite Ha. by apply u_rstrip_head. Qed.

Lemma u_replace_keeps_head (c a : N) (r t : ustring) :
  u_isspace c = true -> u_isspace a = false ->
  u_replace c r (a :: t) = a :: u_replace c r t.
Proof.
  intros Hc Ha. cbn [u_replace].
  destruct (N.eqb a c) eqn:E; [|done].
  apply N.eqb_eq in E. congruence.
Qed.

Lemma py_slice_to_head {A : Type} (a : A) (t : list A) (n : Z) :
  Playwright.py_slice_to (a :: t) n = []
  \/ exists t', Playwright.py_slice_to (a :: t) n = a :: t'.
Proof.
  unfold Playwright.py_slice_to.
  destruct (0 <=? n).
  - destruct (Z.to_nat n); cbn; eauto.
  - destruct (Z.to_nat _); cbn; eauto.
Qed.

Lemma u_rstrip_idem (s : ustring) : u_rstrip (u_rstrip s) = u_rstrip s.
Proof.
  induction s as [|a s IH]; [done|]. cbn [u_rstrip].
  destruct (u_rstrip s) as [|b t] eqn:E.
  - destruct (u_isspace a) eqn:Ha; [done|]. cbn. by rewrite Ha.
  - cbn [u_rstrip] in *. by rewrite IH.
Qed.

Lemma u_strip_idem (s : ustring) : u_strip (u_strip s) = u_strip s.
Proof.
  destruct (u_strip_head s) as [->|(a & t & E & Ha)]; [done|].
  rewrite E. unfold u_strip at 1. cbn [u_lstrip]. rewrite Ha, <- E.
  unfold u_strip. apply u_rstrip_idem.
Qed.

(** X9.  [sanitize_filename] of crawl_mix_complete.py and
    crawl_mix_playwright.py, on any name (a sequence of Unicode code
    points), never returns the empty name; the result holds none of the
    characters of [invalid], no line feed and no carriage return; it has
    no white space of Unicode at either end ([strip] leaves it as it is);
    and for [max_len >= 0] it has at most [max(max_len, 8)] characters. *)
Theorem complete_sanitize_filename_safe (name : ustring) (max_len : Z) :
  let file_name := CompleteNames.sanitize_filename name max_len in
  file_name <> []
  /\ (forall c, In c (CompleteNames.invalid ++ [10; 13]%N) -> ~ In c file_name)
  /\ u_strip file_name = file_name
  /\ (0 <= max_len -> len file_name <= Z.max max_len 8).
Proof.
  cbn zeta. unfold CompleteNames.sanitize_filename.
  set (cleaned := replace_each CompleteNames.invalid (codes "_") name).
  set (flat := u_replace 13%N (codes " ") (u_replace 10%N (codes " ") (u_strip cleaned))).
  assert (flat = [] \/ exists a t, flat = a :: t /\ u_isspace a = false) as Hflat.
  { unfold flat. destruct (u_strip_head cleaned) as [->|(a & t & -> & Ha)]; [by left|].
    right. rewrite (u_replace_keeps_head 10%N a) by done.
    rewrite (u_replace_keeps_head 13%N a) by done. eauto. }
  assert (exists a t, u_or (Playwright.py_slice_to flat max_len) (codes "untitled") = a :: t
                      /\ u_isspace a = false) as (a & t & Hcut & Ha).
  { destruct Hflat as [->|(a & t & -> & Ha)].
    - exists 117%N, (codes "ntitled").
      assert (Playwright.py_slice_to (@nil N) max_len = []) as ->; [|done].
      unfold Playwright.py_slice_to. destruct (0 <=? max_len); by rewrite firstn_nil.
    - destruct (py_slice_to_head a t max_len) as [->|[t' ->]]; cbn; eauto. }
  split_and!.
  - rewrite Hcut. by destruct (u_strip_keeps_head a t Ha) as [t' ->].
  - intros c Hc Hin. apply In_u_strip in Hin.
    assert (In c flat \/ In c (codes "untitled")) as [Hin'|Hin'].
    { destruct (u_or_cases (Playwright.py_slice_to flat max_len) (codes "untitled"))
        as [[_ E]|[_ E]]; rewrite E in Hin; [by right|].
      left. by apply (In_py_slice_to _ max_len). }
    + unfold flat in Hin'.
      destruct (In_u_replace _ _ _ _ Hin') as [[Hin1 Hcr]|Hsp].
      * destruct (In_u_replace _ _ _ _ Hin1) as [[Hin2 Hlf]|Hsp].
        -- apply In_u_strip in Hin2.
           destruct (In_replace_each _ _ _ _ Hin2) as [[_ Hclean]|Hus].
           ++ apply in_app_or in Hc as [?|[?|[?|[]]]]; congruence.
           ++ vm_compute in Hus, Hc. intuition congruence.
        -- vm_compute in Hsp, Hc. intuition congruence.
      * vm_compute in Hsp, Hc. intuition congruence.
    + vm_compute in Hin', Hc. intuition congruence.
  - apply u_strip_idem.
  - intros Hmax.
    pose proof (len_u_strip (u_or (Playwright.py_slice_to flat max_len) (codes "untitled")))
      as Hstrip.
    destruct (u_or_cases (Playwright.py_slice_to flat max_len) (codes "untitled"))
      as [[_ E]|[_ E]]; rewrite E in Hstrip |- *.
    + change (len (codes "untitled")) with 8 in Hstrip. lia.
    + rewrite len_py_slice_to in Hstrip by done. lia.
Qed.

(** On the title in Chinese: the ideographic spaces at both ends go, the
    colon and the slash become underscores, and a name of one character
    whose last byte in UTF-8 is 0xA0 stays as it is. *)
Lemma complete_sanitize_filename_chinese :
  CompleteNames.sanitize_filename spaced_title 80
  = [25238; 38899; 95; 21512; 95; 38598]%N
  /\ CompleteNames.sanitize_filename [20000]%N 80 = [20000]%N
  /\ CompleteNames.sanitize_filename [12288; 12288]%N 80 = codes "untitled".
Proof. split_and!; reflexivity. Qed.

Lemma in_class_spec (a : N) :
  DrissionNames.in_class a = true <-> In a DrissionNames.invalid_class.
Proof.
  unfold DrissionNames.in_class. rewrite existsb_exists. split.
  - intros (x & ? & ->%N.eqb_eq). done.
  - intros ?. exists a. split; [done|]. apply N.eqb_refl.
Qed.

(** X10.  [sanitize_filename] of crawl_mix_drission.py, on any name (a
    sequence of Unicode code points), for [max_len >= 0]: the result has
    [min(max_len, len(name))] characters (so it is empty for an empty
    name), it holds no character of the class, and nothing beyond the
    first [max_len] characters of [name] reaches it: a suffix appended to
    a name of [max_len] characters or more is lost. *)
Theorem drission_sanitize_filename_shape (name : ustring) (max_len : Z) :
  0 <= max_len ->
  let file_name := DrissionNames.sanitize_filename name max_len in
  len file_name = Z.min max_len (len name)
  /\ (forall c, In c DrissionNames.invalid_class -> ~ In c file_name)
  /\ (max_len <= len name ->
      forall suffix : ustring,
        DrissionNames.sanitize_filename (name ++ suffix) max_len = file_name).
Proof.
  intros Hmax. cbn zeta. unfold DrissionNames.sanitize_filename. split_and!.
  - rewrite len_py_slice_to by done.
    unfold DrissionNames.re_sub_class, len. by rewrite length_map.
  - intros c Hc Hin. apply In_py_slice_to in Hin.
    apply in_map_iff in Hin as (a & Ha & _).
    destruct (DrissionNames.in_class a) eqn:E.
    + subst c. vm_compute in Hc. intuition congruence.
    + subst c. apply in_class_spec in Hc. congruence.
  - intros Hlong suffix. unfold DrissionNames.re_sub_class, Playwright.py_slice_to.
    assert ((0 <=? max_len) = true) as -> by (by apply Z.leb_le).
    rewrite map_app, firstn_app, length_map.
    assert (Z.to_nat max_len - length name = 0)%nat as ->
      by (unfold len in Hlong; lia).
    cbn [firstn]. by rewrite app_nil_r.
Qed.

Lemma drission_sanitize_filename_shape_witness :
  DrissionNames.sanitize_filename seven_characters 4 = [25238; 38899; 21512; 38598]%N
  /\ len seven_characters = 7
  /\ len (DrissionNames.sanitize_filename seven_characters 4)
     = Z.min 4 (len seven_characters)
  /\ DrissionNames.sanitize_filename (codes "a/b?c") 4 = codes "a_b_"
  /\ DrissionNames.sanitize_filename (seven_characters ++ codes "_7001") 4
     = DrissionNames.sanitize_filename seven_characters 4.
Proof.
  destruct (drission_sanitize_filename_shape seven_characters 4 ltac:(lia))
    as (Hlen & _ & Hcut).
  split; [reflexivity|]. split; [reflexivity|]. split; [exact Hlen|].
  split; [reflexivity|]. apply Hcut. vm_compute. discriminate.
Defined.

(** * crawl_mix_drission.py: the API strategy *)

(** A [while] whose passes use up a measure needs no more fuel than the
    measure. *)
Lemma after_while_measured {St : Type} (fuel : nat) (cond : St -> bool) (body : M St ctl)
      (measure : St -> nat) (inv : St -> Prop) (post : St -> result unit -> Prop) (s : St) :
  inv s ->
  (measure s <= fuel)%nat ->
  (forall s0, inv s0 -> cond s0 = true -> (0 < measure s0)%nat) ->
  (forall s0, inv s0 -> cond s0 = false -> post s0 (Ret tt)) ->
  (forall s0, inv s0 -> cond s0 = true ->
     after body s0 (fun s' r =>
       match r with
       | Ret Next => inv s' /\ (measure s' < measure s0)%nat
       | Ret Break => post s' (Ret tt)
       | Raise e => post s' (Raise e)
       | OutOfFuel => post s' OutOfFuel
       end)) ->
  after (while_loop fuel cond body) s post.
Proof.
  intros Hs Hfuel Hpos Hexit Hbody. revert s Hs Hfuel.
  induction fuel as [|n IH]; intros s Hs Hfuel.
  - destruct (cond s) eqn:Hc; [|by apply after_while_exit; auto].
    specialize (Hpos s Hs Hc). lia.
  - destruct (cond s) eqn:Hc; [|by apply after_while_exit; auto].
    apply after_while_step; [done|].
    eapply after_weaken; [by apply Hbody|].
    intros s' [[|]|e|] H; cbn; try done.
    destruct H as [Hinv Hlt]. apply IH; [done|lia].
Qed.

Lemma dict_lookup_set (k : string) (x : pyval) (d : list (string * pyval)) :
  dict_lookup k (Drission.dict_set k x d) = Some x.
Proof.
  induction d as [|[k' v] d IH]; cbn.
  - by rewrite String.eqb_refl.
  - destruct (String.eqb k k') eqn:E; cbn; [by rewrite String.eqb_refl|].
    by rewrite E.
Qed.

Lemma py_setitem_item (v v' : pyval) (k : string) (x : pyval) :
  Drission.py_setitem v k x = Ret v' -> py_item v' k = Ret x.
Proof.
  destruct v; cbn; intros; simplify_eq. cbn. by rewrite dict_lookup_set.
Qed.

Section DrissionApi.
Context (rt : runtime) (max_comments : Z) (crawler : feed).

Lemma drission_api_item_spec (comment : pyval) (s : world * Drission.api_vars) :
  Forall (fun row => py_item row "level" = Ret (PInt 1)) (Drission.api_comments (snd s)) ->
  after (Drission.api_item rt comment) s
        (fun s' r => fst s' = fst s
                     /\ Drission.api_page (snd s') = Drission.api_page (snd s)
                     /\ Forall (fun row => py_item row "level" = Ret (PInt 1))
                               (Drission.api_comments (snd s'))
                     /\ r <> OutOfFuel).
Proof.
  intros Hrows. unfold Drission.api_item.
  repeat first
    [ lazymatch goal with
      | |- match Drission._parse_comment _ ?c with _ => _ end =>
          match goal with
          | H : py_get c "cid" _ = Ret ?x |- _ =>
              destruct (drission_parse_after_cid rt c x H) as (? & ->); cbn beta iota
          end
      end
    | run_step ];
  cbn in *; split_and?; try done.
  all: try no_fuel_needed.
  - apply Forall_app. split; [done|]. constructor; [|constructor].
    by eapply py_setitem_item.
  - match goal with H : Drission.py_setitem ?v _ _ = OutOfFuel |- _ =>
      by destruct v end.
Qed.

Lemma drission_api_items_spec (items : list pyval) (s : world * Drission.api_vars) :
  Forall (fun row => py_item row "level" = Ret (PInt 1)) (Drission.api_comments (snd s)) ->
  after (for_each (Drission.api_item rt) items) s
        (fun s' r => fst s' = fst s
                     /\ Drission.api_page (snd s') = Drission.api_page (snd s)
                     /\ Forall (fun row => py_item row "level" = Ret (PInt 1))
                               (Drission.api_comments (snd s'))
                     /\ r <> OutOfFuel).
Proof.
  intros Hrows.
  apply after_for_each with
    (inv := fun s0 : world * Drission.api_vars =>
              fst s0 = fst s
              /\ Drission.api_page (snd s0) = Drission.api_page (snd s)
              /\ Forall (fun row => py_item row "level" = Ret (PInt 1))
                        (Drission.api_comments (snd s0))); [done|..].
  - by intros s0 (? & ? & ?).
  - intros x s0 _ (Hw & Hp & Hr).
    eapply after_weaken; [by apply drission_api_item_spec|].
    intros s' [[|]|e|] (? & ? & ? & ?); cbn; split_and?; congruence.
Qed.

(** One pass: one more page, one more call of the comment end point, none
    of the reply end point, and nothing escapes. *)
Lemma drission_api_pass_spec (s : world * Drission.api_vars) :
  Forall (fun row => py_item row "level" = Ret (PInt 1)) (Drission.api_comments (snd s)) ->
  after (Drission.api_pass rt crawler) s
        (fun s' r => Drission.api_page (snd s') = Drission.api_page (snd s) + 1
                     /\ root_calls (fst s') = S (root_calls (fst s))
                     /\ reply_calls (fst s') = reply_calls (fst s)
                     /\ Forall (fun row => py_item row "level" = Ret (PInt 1))
                               (Drission.api_comments (snd s'))
                     /\ exists c, r = Ret c).
Proof.
  intros Hrows. unfold Drission.api_pass. apply after_bind, after_assign.
  unfold Drission.api_page_try, await_fetch_video_comments.
  apply after_try_except, after_bind. constructor.
  destruct s as [w v]. cbn in *.
  destruct (api_fetch_video_comments crawler (root_calls w)) as [resp|e];
    cbn; [|apply after_ret; cbn; split_and!; eauto].
  repeat first
    [ lazymatch goal with
      | |- after (for_each (Drission.api_item _) _) _ _ =>
          eapply after_weaken;
          [by apply drission_api_items_spec
          | intros [? ?] [[]|?|] (? & ? & ? & ?); cbn in *; simplify_eq ]
      end
    | run_step ];
  cbn in *; split_and?; eauto.
  all: try no_fuel_needed.
  all: try done.
Qed.

Lemma drission_get_video_comments_api_spec {L : Type} (s : world * L) :
  after (Drission.get_video_comments_api rt max_comments crawler) s
        (fun s' r =>
           snd s' = snd s
           /\ (root_calls (fst s') <= root_calls (fst s) + 200)%nat
           /\ reply_calls (fst s') = reply_calls (fst s)
           /\ exists rows, r = Ret rows
                /\ Forall (fun row => py_item row "level" = Ret (PInt 1)) rows).
Proof.
  unfold Drission.get_video_comments_api, Drission.get_video_comments_api_body.
  apply after_call.
  set (inv := fun s0 : world * Drission.api_vars =>
                0 <= Drission.api_page (snd s0) <= Drission.max_pages
                /\ root_calls (fst s0)
                   = (root_calls (fst s) + Z.to_nat (Drission.api_page (snd s0)))%nat
                /\ reply_calls (fst s0) = reply_calls (fst s)
                /\ Forall (fun row => py_item row "level" = Ret (PInt 1))
                          (Drission.api_comments (snd s0))).
  apply after_bind, after_try_except.
  apply after_while_measured with
    (measure := fun s0 : world * Drission.api_vars =>
                  Z.to_nat (Drission.max_pages - Drission.api_page (snd s0)))
    (inv := inv).
  - unfold inv, Drission.max_pages. cbn. split_and!; try done; lia.
  - cbn. lia.
  - intros s0 (Hp & _) Hc. apply andb_prop in Hc as [Hc _]. bool_to_Z. lia.
  - intros s0 (Hp & Hcalls & Hreply & Hrows) _.
    apply after_local. cbn. split_and!; try done.
    + unfold Drission.max_pages in Hp. lia.
    + eauto.
  - intros s0 (Hp & Hcalls & Hreply & Hrows) Hc.
    apply andb_prop in Hc as [Hc _]. bool_to_Z.
    eapply after_weaken; [by apply drission_api_pass_spec|].
    intros s' r (Hp' & Hcalls' & Hreply' & Hrows' & c & ->).
    assert (inv s') as Hinv'.
    { unfold inv. split_and!; try done; try lia; try congruence. }
    destruct c.
    + split; [done|]. lia.
    + destruct Hinv' as (Hpp & Hcc & Hrr & Hrw).
      apply after_local. cbn. split_and!; try done.
      * unfold Drission.max_pages in Hpp. lia.
      * eauto.
Qed.

End DrissionApi.

(** X11.  [DrissionMixCrawler.get_video_comments_api] always returns a
    list: nothing it meets raises out of it and its loop ends, after at
    most 200 requests to the comment end point and none to the reply end
    point, whatever the feed answers and whatever [max_comments] is. *)
Theorem drission_get_video_comments_api_returns {L : Type}
    (rt : runtime) (max_comments : Z) (crawler : feed) (s : world * L) :
  exists s' rows,
    Drission.get_video_comments_api rt max_comments crawler s = (s', Ret rows)
    /\ snd s' = snd s
    /\ (root_calls (fst s') <= root_calls (fst s) + 200)%nat
    /\ reply_calls (fst s') = reply_calls (fst s).
Proof.
  destruct (Drission.get_video_comments_api rt max_comments crawler s) as [s' r] eqn:Hrun.
  destruct (after_elim _ _ _ _ _
              (drission_get_video_comments_api_spec rt max_comments crawler s) Hrun)
    as (? & ? & ? & rows & -> & _).
  by exists s', rows.
Qed.

(** X12.  Every row [get_video_comments_api] returns is marked level 1,
    also when [_parse_comment] had recognised the record as a reply
    (level 2): the API strategy labels all it collects as root comments. *)
Theorem drission_get_video_comments_api_rows_level_1 {L : Type}
    (rt : runtime) (max_comments : Z) (crawler : feed) (s s' : world * L)
    (rows : list pyval) :
  Drission.get_video_comments_api rt max_comments crawler s = (s', Ret rows) ->
  Forall (fun row => py_item row "level" = Ret (PInt 1)) rows.
Proof.
  intros Hrun.
  destruct (after_elim _ _ _ _ _
              (drission_get_video_comments_api_spec rt max_comments crawler s) Hrun)
    as (_ & _ & _ & rows' & [= <-] & Hrows).
  done.
Qed.

Lemma drission_get_video_comments_api_rows_level_1_witness :
  (exists parsed, Drission._parse_comment plain_runtime reply_record = Ret parsed
                  /\ py_item parsed "level" = Ret (PInt 2))
  /\ exists s' rows,
       Drission.get_video_comments_api plain_runtime 1000 reply_in_root_feed
         (fresh_world, tt) = (s', Ret rows)
       /\ length rows = 1%nat
       /\ Forall (fun row => py_item row "level" = Ret (PInt 1)) rows.
Proof.
  split; [vm_compute; eexists; split; reflexivity|].
  pose (run := Drission.get_video_comments_api plain_runtime 1000 reply_in_root_feed
                 (fresh_world, tt)).
  assert (exists rows, run = (fst run, Ret rows) /\ length rows = 1%nat)
    as (rows & Hrun & Hlen).
  { vm_compute. eexists. split; reflexivity. }
  exists (fst run), rows. split; [exact Hrun|]. split; [exact Hlen|].
  exact (drission_get_video_comments_api_rows_level_1 _ _ _ _ _ _ Hrun).
Defined.

(** * crawl_mix_drission.py: the scrolling loop ends *)

Lemma scroll_keeps_refl (s : Drission.page * Drission.scroll_vars) : scroll_keeps s s.
Proof. split; [done|]. exists []. by rewrite app_nil_r. Qed.

Lemma scroll_keeps_trans (s1 s2 s3 : Drission.page * Drission.scroll_vars) :
  scroll_keeps s1 s2 -> scroll_keeps s2 s3 -> scroll_keeps s1 s3.
Proof.
  intros [Hr1 [n1 Hc1]] [Hr2 [n2 Hc2]]. split; [congruence|].
  exists (n1 ++ n2). by rewrite Hc2, Hc1, app_assoc.
Qed.

Lemma scroll_tame_ret {A : Type} (a : A) : scroll_tame (ret a).
Proof. intros s. apply after_ret. split; [apply scroll_keeps_refl|done]. Qed.

Lemma scroll_tame_lift {A : Type} (r : result A) : r <> OutOfFuel -> scroll_tame (lift r).
Proof. intros H s. apply after_lift. split; [apply scroll_keeps_refl|done]. Qed.

Lemma scroll_tame_local {A : Type} (f : Drission.scroll_vars -> A) :
  scroll_tame (local f).
Proof. intros s. apply after_local. split; [apply scroll_keeps_refl|done]. Qed.

Lemma scroll_tame_assign (f : Drission.scroll_vars -> Drission.scroll_vars) :
  (forall v, Drission.scroll_round (f v) = Drission.scroll_round v
             /\ exists new, Drission.comments (f v) = Drission.comments v ++ new) ->
  scroll_tame (assign f).
Proof. intros H s. apply after_assign. split; [apply H|done]. Qed.

Lemma scroll_tame_bind {A B : Type} (m : M (Drission.page * Drission.scroll_vars) A)
      (k : A -> M (Drission.page * Drission.scroll_vars) B) :
  scroll_tame m -> (forall a, scroll_tame (k a)) -> scroll_tame (bind m k).
Proof.
  intros Hm Hk s. apply after_bind. eapply after_weaken; [apply Hm|].
  intros s1 [a|e|] [Hkeep Hfuel]; cbn; [|done|done].
  eapply after_weaken; [apply Hk|].
  intros s2 r [Hkeep2 ?]. split; [by eapply scroll_keeps_trans|done].
Qed.

Lemma scroll_tame_try_except {A : Type} (m : M (Drission.page * Drission.scroll_vars) A)
      (h : exn -> M (Drission.page * Drission.scroll_vars) A) :
  scroll_tame m -> (forall e, scroll_tame (h e)) -> scroll_tame (try_except m h).
Proof.
  intros Hm Hh s. apply after_try_except. eapply after_weaken; [apply Hm|].
  intros s1 [a|e|] [Hkeep Hfuel]; cbn; [done| |done].
  eapply after_weaken; [apply Hh|].
  intros s2 r [Hkeep2 ?]. split; [by eapply scroll_keeps_trans|done].
Qed.

Lemma scroll_tame_for_each {X : Type}
      (body : X -> M (Drission.page * Drission.scroll_vars) ctl) (items : list X) :
  (forall x, scroll_tame (body x)) -> scroll_tame (for_each body items).
Proof.
  intros Hbody. induction items as [|x rest IH]; cbn [for_each].
  - apply scroll_tame_ret.
  - apply scroll_tame_bind; [apply Hbody|]. intros [|]; [done|apply scroll_tame_ret].
Qed.

(** The browser calls touch the page only, and each of them answers. *)
Lemma scroll_tame_page {A : Type} (m : M (Drission.page * Drission.scroll_vars) A) :
  (forall p v, snd (fst (m (p, v))) = v /\ snd (m (p, v)) <> OutOfFuel) ->
  scroll_tame m.
Proof.
  intros H [p v]. constructor. destruct (H p v) as [Hv Hr].
  destruct (m (p, v)) as [[p' v'] r]. cbn in *. subst v'.
  split; [|done]. split; [done|]. exists []. by rewrite app_nil_r.
Qed.

Section DrissionScroll.
Context (rt : runtime) (max_comments : Z) (driver : Drission.browser) (expected_count : Z).

Lemma scroll_tame_act (a : Drission.action) : scroll_tame (Drission.act a).
Proof. by apply scroll_tame_page. Qed.

Lemma scroll_tame_wait_packet : scroll_tame (Drission.wait_packet driver).
Proof.
  apply scroll_tame_page. intros p v. cbn. split; [done|].
  by destruct (Drission.listen_wait driver (Drission.waits p)).
Qed.

Lemma scroll_tame_read_clock : scroll_tame (Drission.read_clock driver).
Proof. by apply scroll_tame_page. Qed.

Lemma scroll_tame_read_scroll_position : scroll_tame (Drission.read_scroll_position driver).
Proof. by apply scroll_tame_page. Qed.

Lemma scroll_tame_check_captcha : scroll_tame (Drission.check_captcha driver).
Proof. by apply scroll_tame_page. Qed.

Lemma scroll_tame_handle_captcha : scroll_tame (Drission.handle_captcha driver).
Proof.
  apply scroll_tame_page. intros p v. cbn. split; [done|].
  by destruct (Drission._handle_captcha driver (Drission.captcha_prompts p)).
Qed.

Lemma scroll_tame_read_end_marker : scroll_tame (Drission.read_end_marker driver).
Proof.
  apply scroll_tame_page. intros p v. cbn. split; [done|].
  by destruct (Drission.html_has_end_marker driver (Drission.html_reads p)).
Qed.

Lemma drission_parse_settled (comment : pyval) :
  Drission._parse_comment rt comment <> OutOfFuel.
Proof.
  destruct comment as [| | | | |d]; try done.
  by destruct (drission_parse_dict rt d) as [row ->].
Qed.

Lemma py_hash_settled (v : pyval) : py_hash v <> OutOfFuel.
Proof. unfold py_hash. by destruct (key_of v). Qed.

End DrissionScroll.

Ltac scroll_tame_step :=
  lazymatch goal with
  | |- scroll_tame (bind _ _) => apply scroll_tame_bind; [|intros ?]
  | |- scroll_tame (ret _) => apply scroll_tame_ret
  | |- scroll_tame (lift _) =>
      apply scroll_tame_lift;
      first [ apply py_get_settled | apply py_hash_settled | apply drission_parse_settled
            | apply drission_packet_comments_settled ]
  | |- scroll_tame (local _) => apply scroll_tame_local
  | |- scroll_tame (assign _) =>
      apply scroll_tame_assign; intros ?; cbn; split;
      [ done | first [ by eexists | by (exists []; rewrite app_nil_r) ] ]
  | |- scroll_tame (try_except _ _) => apply scroll_tame_try_except; [|intros ?]
  | |- scroll_tame (for_each _ _) => apply scroll_tame_for_each; intros ?
  | |- scroll_tame (Drission.act _) => apply scroll_tame_act
  | |- scroll_tame (Drission.wait_packet _) => apply scroll_tame_wait_packet
  | |- scroll_tame (Drission.read_clock _) => apply scroll_tame_read_clock
  | |- scroll_tame (Drission.read_scroll_position _) =>
      apply scroll_tame_read_scroll_position
  | |- scroll_tame (Drission.check_captcha _) => apply scroll_tame_check_captcha
  | |- scroll_tame (Drission.handle_captcha _) => apply scroll_tame_handle_captcha
  | |- scroll_tame (Drission.read_end_marker _) => apply scroll_tame_read_end_marker
  | |- scroll_tame (if ?b then _ else _) => destruct b
  | |- scroll_tame (match ?x with _ => _ end) => destruct x
  end.

Section DrissionRounds.
Context (rt : runtime) (max_comments : Z) (driver : Drission.browser) (expected_count : Z).

(** After [scroll_round += 1], the rest of a pass is tame. *)
Lemma drission_scroll_pass_spec (s : Drission.page * Drission.scroll_vars) :
  after (Drission.scroll_pass rt driver expected_count) s
        (fun s' r =>
           Drission.scroll_round (snd s') = Drission.scroll_round (snd s) + 1
           /\ (exists new, Drission.comments (snd s') = Drission.comments (snd s) ++ new)
           /\ r <> OutOfFuel).
Proof.
  unfold Drission.scroll_pass. apply after_bind, after_assign.
  lazymatch goal with
  | |- after ?m _ _ => assert (scroll_tame m) as Htame
  end.
  { repeat first
      [ scroll_tame_step
      | progress unfold Drission.check_scroll_effect, Drission.poll_main,
          Drission.read_packet, Drission.main_item, Drission.and_then,
          Drission.captcha_step, Drission.progress_step, Drission.verification_pass,
          Drission.poll_with, Drission.verify_item, Drission.stall_step,
          Drission.expand_step, Drission.bottom_step, Drission.final_item,
          Drission.js_scroll ]. }
  eapply after_weaken; [apply Htame|].
  intros s' r [[Hround [new Hnew]] Hfuel]. destruct s as [p v]. cbn in *.
  split_and!; [done| |done]. by exists new.
Qed.

Lemma drission_scroll_loop_spec (s : Drission.page * Drission.scroll_vars) :
  Drission.scroll_round (snd s) = 0 ->
  after (Drission.scroll_loop rt max_comments driver expected_count) s
        (fun s' r =>
           r = Ret tt
           /\ 0 <= Drission.scroll_round (snd s')
                <= Drission.max_scroll_rounds expected_count
           /\ exists new, Drission.comments (snd s') = Drission.comments (snd s) ++ new).
Proof.
  intros Hstart. unfold Drission.scroll_loop. apply after_try_except.
  assert (300 <= Drission.max_scroll_rounds expected_count) as Hmax
    by (unfold Drission.max_scroll_rounds; lia).
  apply after_while_measured with
    (measure := fun s0 : Drission.page * Drission.scroll_vars =>
                  Z.to_nat (Drission.max_scroll_rounds expected_count
                            - Drission.scroll_round (snd s0)))
    (inv := fun s0 : Drission.page * Drission.scroll_vars =>
              0 <= Drission.scroll_round (snd s0)
                <= Drission.max_scroll_rounds expected_count
              /\ exists new, Drission.comments (snd s0) = Drission.comments (snd s) ++ new).
  - split; [lia|]. exists []. by rewrite app_nil_r.
  - rewrite Hstart. lia.
  - intros s0 [Hr _] Hc. apply andb_prop in Hc as [Hc _]. bool_to_Z. lia.
  - intros s0 [Hr Hnew] _. done.
  - intros s0 [Hr [new Hnew]] Hc. apply andb_prop in Hc as [Hc _]. bool_to_Z.
    eapply after_weaken; [apply drission_scroll_pass_spec|].
    intros s' r (Hround & [new' Hnew'] & Hfuel).
    assert (0 <= Drission.scroll_round (snd s')
              <= Drission.max_scroll_rounds expected_count
            /\ exists n, Drission.comments (snd s') = Drission.comments (snd s) ++ n)
      as Hinv'.
    { split; [lia|]. exists (new ++ new'). by rewrite Hnew', Hnew, app_assoc. }
    destruct r as [[|]|e|]; cbn.
    + split; [done|]. lia.
    + by destruct Hinv'.
    + apply after_ret. by destruct Hinv'.
    + done.
Qed.

Lemma drission_get_video_comments_scroll_spec
      (comments0 : list pyval) (ids0 : gset key) (p : Drission.page) :
  exists s' new,
    Drission.get_video_comments_scroll rt max_comments driver expected_count
      comments0 ids0 p
    = (s', Ret (comments0 ++ new))
    /\ 0 <= Drission.scroll_round (snd s') <= Drission.max_scroll_rounds expected_count.
Proof.
  unfold Drission.get_video_comments_scroll.
  match goal with
  | |- exists s' new, ?m ?s0 = _ /\ _ =>
      assert (after m s0
                (fun s' r =>
                   (exists new, r = Ret (comments0 ++ new))
                   /\ 0 <= Drission.scroll_round (snd s')
                        <= Drission.max_scroll_rounds expected_count)) as [Hafter]
  end.
  { apply after_bind. constructor. cbn.
    apply after_bind, after_assign. cbn.
    apply after_bind. constructor. cbn.
    apply after_bind, after_assign. cbn.
    apply after_bind. constructor. cbn.
    apply after_bind.
    eapply after_weaken; [by apply drission_scroll_loop_spec|].
    intros s' r (-> & Hround & new & Hnew). cbn in *.
    apply after_local. split; [|done]. exists new. by rewrite Hnew. }
  match type of Hafter with
  | context [?m ?s0] => destruct (m s0) as [s' r] eqn:Hrun
  end.
  cbn in Hafter. destruct Hafter as [[new ->] Hround]. by exists s', new.
Qed.

End DrissionRounds.

(** X13.  The scrolling part of [DrissionMixCrawler.get_video_comments]
    always comes to an end and hands back a list: no exception leaves the
    loop (a failing listener, page or captcha prompt included), it makes at
    most [max(300, expected_count // 3)] rounds, and the rows collected when
    the scrolling starts are still there, in place, at the head of the
    result. *)
Theorem drission_get_video_comments_scroll_returns
    (rt : runtime) (max_comments : Z) (driver : Drission.browser) (expected_count : Z)
    (comments0 : list pyval) (ids0 : gset key) (p : Drission.page) :
  exists s' new,
    Drission.get_video_comments_scroll rt max_comments driver expected_count
      comments0 ids0 p
    = (s', Ret (comments0 ++ new))
    /\ 0 <= Drission.scroll_round (snd s') <= Z.max 300 (expected_count / 3).
Proof. apply drission_get_video_comments_scroll_spec. Qed.

(** * crawl_mix_drission.py: [_parse_comment] and [parse_timestamp] *)

(** X14.  [DrissionMixCrawler._parse_comment] is total on dictionaries:
    whatever the fields hold, it returns a dictionary with the keys [cid],
    [text], [user] and [level], and [level] is 1 or 2.  A record that has
    neither a [reply_id] nor a [reply_to_userid] is a root comment
    (level 1). *)
Theorem drission_parse_comment_total (rt : runtime) (comment : list (string * pyval)) :
  exists row,
    Drission._parse_comment rt (PDict comment) = Ret (PDict row)
    /\ dict_lookup "cid" row <> None
    /\ dict_lookup "text" row <> None
    /\ dict_lookup "user" row <> None
    /\ (dict_lookup "level" row = Some (PInt 1) \/ dict_lookup "level" row = Some (PInt 2))
    /\ (dict_lookup "reply_id" comment = None ->
        dict_lookup "reply_to_userid" comment = None ->
        dict_lookup "level" row = Some (PInt 1)).
Proof.
  unfold Drission._parse_comment.
  destruct (Drission._parse_comment_try rt (PDict comment)) as [row|e|] eqn:Htry.
  - revert Htry.
    unfold Drission._parse_comment_try, rbind, py_strip, py_get, py_or.
    repeat (case_match; simplify_eq/=; try done).
    all: intros [= <-]; eexists; split; [reflexivity|]; cbn.
    all: split_and!; try done; try (by left); try (by right).
    all: intros Hid Huser; rewrite ?Hid, ?Huser in *; cbn in *; done.
  - cbn. eexists. split; [reflexivity|]. cbn. split_and!; try done; auto.
  - exfalso. revert Htry.
    unfold Drission._parse_comment_try, rbind, py_strip, py_get.
    repeat (case_match; simplify_eq/=; try done).
Qed.

(** X15.  [parse_timestamp] renders a time stamp given in milliseconds as
    the same time given in seconds: for a number of seconds [t] between
    10^7 and 10^10, [t * 1000 + ms] with [ms] below 1000 gives the same
    string as [t]. *)
Theorem drission_parse_timestamp_millis (rt : runtime) (t ms : Z) :
  10000000 < t <= 10000000000 ->
  0 <= ms < 1000 ->
  Drission.parse_timestamp rt (PInt (t * 1000 + ms))
  = Drission.parse_timestamp rt (PInt t).
Proof.
  intros Ht Hms. unfold Drission.parse_timestamp. cbn [py_eq orb Drission.py_int].
  assert ((t * 1000 + ms =? 0) = false) as -> by lia.
  assert ((t =? 0) = false) as -> by lia.
  assert ((10000000000 <? t * 1000 + ms) = true) as -> by lia.
  assert ((10000000000 <? t) = false) as -> by lia.
  replace ((t * 1000 + ms) / 1000) with t; [done|].
  apply Z.div_unique with ms; lia.
Qed.

Lemma drission_parse_timestamp_millis_witness :
  Drission.parse_timestamp plain_runtime (PInt 1700000000123)
  = Drission.parse_timestamp plain_runtime (PInt 1700000000)
  /\ Drission.parse_timestamp plain_runtime (PInt 1700000000) = "1700000000".
Proof.
  split; [|reflexivity].
  apply (drission_parse_timestamp_millis plain_runtime 1700000000 123); lia.
Defined.

(** * crawl_mix_playwright.py: from the scraped items to the rows *)

Lemma py_eq_2_not_1 (v : pyval) : py_eq v (PInt 2) = true -> py_eq v (PInt 1) = false.
Proof. destruct v as [|[]|z| | |]; cbn; try done. lia. Qed.

Section PlaywrightConvert.
Context (rt : runtime).

Lemma playwright_make_cid_settled (c : pyval) (idx : Z) :
  Playwright.make_cid rt c idx <> OutOfFuel.
Proof.
  unfold Playwright.make_cid, rbind, py_get, py_item. repeat case_match; done.
Qed.

(** One item: a row is appended, made from the item and linked to the
    parent the loop holds, or an exception leaves the rows as they are. *)
Lemma playwright_convert_item_spec (ic : Z * pyval) (s : Playwright.convert_vars) :
  after (Playwright.convert_item rt ic) s
        (fun s' r =>
           (r = Ret Next
            /\ exists row,
                 Playwright.comments s' = Playwright.comments s ++ [row]
                 /\ converted_from row (snd ic)
                 /\ Playwright.parent_cid_var s'
                    = nearest_root_from (Playwright.parent_cid_var s) [row]
                 /\ Playwright.parent_cid row
                    = if py_eq (Playwright.level row) (PInt 2)
                      then Playwright.parent_cid_var s else PStr "")
           \/ ((exists e, r = Raise e)
               /\ Playwright.comments s' = Playwright.comments s)).
Proof.
  destruct ic as [idx c]. unfold Playwright.convert_item.
  pose proof (playwright_make_cid_settled c idx) as Hcid.
  run; cbn in *; try (right; split; [eauto|done]); try no_fuel_needed; try done.
  all: left; split; [done|]; eexists; split; [reflexivity|]; cbn.
  all: unfold converted_from; cbn; simplify_eq.
  all: split_and!; try done.
  all: try match goal with
         | H : py_eq ?v (PInt 1) = _ |- _ => rewrite ?H
         end; try done.
  all: destruct (py_eq _ (PInt 2)) eqn:E2; try done.
  all: apply py_eq_2_not_1 in E2; congruence.
Qed.

Lemma nearest_root_from_cons (parent : pyval) (row : Playwright.comment_row)
      (rows : list Playwright.comment_row) :
  nearest_root_from parent (row :: rows)
  = nearest_root_from (nearest_root_from parent [row]) rows.
Proof. done. Qed.

Lemma parents_linked_cons (parent : pyval) (row : Playwright.comment_row)
      (rows : list Playwright.comment_row) :
  Playwright.parent_cid row
  = (if py_eq (Playwright.level row) (PInt 2) then parent else PStr "") ->
  parents_linked (nearest_root_from parent [row]) rows ->
  parents_linked parent (row :: rows).
Proof.
  intros Hrow Hrows [|i] r Hi; cbn in *.
  - by simplify_eq.
  - rewrite (Hrows i r Hi). destruct (py_eq (Playwright.level r) (PInt 2)); [|done].
    apply nearest_root_from_cons.
Qed.

(** The loop: the new rows are made from a prefix of the items, in order,
    and they are linked. *)
Lemma playwright_convert_items_spec (items : list (Z * pyval)) (s : Playwright.convert_vars) :
  after (for_each (Playwright.convert_item rt) items) s
        (fun s' r =>
           r <> OutOfFuel
           /\ exists new,
                Playwright.comments s' = Playwright.comments s ++ new
                /\ Forall2 converted_from new (map snd (take (length new) items))
                /\ parents_linked (Playwright.parent_cid_var s) new).
Proof.
  revert s. induction items as [|ic items IH]; intros s; cbn [for_each].
  - apply after_ret. split; [done|]. exists []. rewrite app_nil_r.
    split_and!; [done|constructor|]. by intros i row Hi.
  - apply after_bind. eapply after_weaken; [apply playwright_convert_item_spec|].
    intros s1 r [[-> (row & Hc1 & Hfrom & Hparent & Hlink)] | [[e ->] Hc1]];
      cbn beta iota.
    + eapply after_weaken; [apply IH|].
      intros s2 r2 (Hfuel & new & Hc2 & Hall & Hlinked). split; [done|].
      exists (row :: new). split_and!.
      * by rewrite Hc2, Hc1, <- app_assoc.
      * cbn. by constructor.
      * apply parents_linked_cons; [done|]. by rewrite <- Hparent.
    + split; [done|]. exists []. rewrite app_nil_r.
      split_and!; [done|constructor|]. by intros i row Hi.
Qed.

Lemma playwright_sort_items_spec (items : list pyval) (s : Playwright.convert_vars) :
  after (for_each Playwright.sort_item items) s (fun s' r => s' = s /\ r <> OutOfFuel).
Proof.
  apply after_for_each with (inv := fun s0 => s0 = s); [done|done|].
  intros x s0 _ ->. unfold Playwright.sort_item. run; try done; no_fuel_needed.
Qed.

Lemma enumerate_items {A : Type} (l : list A) : map snd (Playwright.enumerate l) = l.
Proof.
  unfold Playwright.enumerate. generalize 0%nat.
  induction l as [|x l IH]; intros n; cbn; [done|]. by rewrite IH.
Qed.

Lemma playwright_convert_comments_spec (max_comments : Z) (raw_comments : list pyval) :
  exists rows,
    snd (Playwright.convert_comments rt max_comments raw_comments) = Ret rows
    /\ Forall2 converted_from rows
         (take (length rows) (Playwright.py_slice_to raw_comments max_comments))
    /\ parents_linked (PStr "") rows.
Proof.
  unfold Playwright.convert_comments.
  match goal with
  | |- exists rows, snd (?m ?s0) = _ /\ _ =>
      assert (after m s0
                (fun _ r =>
                   exists rows,
                     r = Ret rows
                     /\ Forall2 converted_from rows
                          (take (length rows)
                                (Playwright.py_slice_to raw_comments max_comments))
                     /\ parents_linked (PStr "") rows)) as [Hafter]
  end.
  { apply after_bind.
    apply after_weaken with
      (post := fun s' r =>
                 r = Ret tt
                 /\ Forall2 converted_from (Playwright.comments s')
                      (take (length (Playwright.comments s'))
                            (Playwright.py_slice_to raw_comments max_comments))
                 /\ parents_linked (PStr "") (Playwright.comments s')).
    - assert (Forall2 converted_from []
                (take 0 (Playwright.py_slice_to raw_comments max_comments))
              /\ parents_linked (PStr "") []) as Hnone.
      { split; [rewrite take_0; constructor|]. by intros i row Hi. }
      apply after_try_except, after_bind.
      eapply after_weaken; [apply playwright_sort_items_spec|].
      intros s1 [[]|e|] [-> Hfuel]; cbn beta iota; [|by apply after_ret|done].
      eapply after_weaken; [apply playwright_convert_items_spec|].
      intros s2 r (Hfuel2 & new & Hc & Hall & Hlinked). cbn in Hc, Hlinked.
      rewrite <- Hc in Hall, Hlinked.
      rewrite <- firstn_map in Hall. rewrite enumerate_items in Hall.
      destruct r as [[]|e|]; [done| |done].
      by apply after_ret.
    - intros s' r (-> & Hall & Hlinked). apply after_gets. eauto. }
  match type of Hafter with
  | context [?m ?s0] => destruct (m s0) as [s' r]
  end.
  exact Hafter.
Qed.

End PlaywrightConvert.

(** X16.  The conversion at the end of [PlaywrightMixCrawler.get_video_comments]
    always returns a list, whatever the items hold (an item that lacks a key
    ends the conversion with the rows made so far).  The rows are made from
    the first items, in order and one for one: row [i] carries the content
    and the level of item [i]; so there are no more rows than items in
    [raw_comments[:max_comments]], and at most [max_comments] rows when the
    cap is not negative. *)
Theorem playwright_convert_comments_prefix
    (rt : runtime) (max_comments : Z) (raw_comments : list pyval) :
  exists rows,
    snd (Playwright.convert_comments rt max_comments raw_comments) = Ret rows
    /\ len rows <= len (Playwright.py_slice_to raw_comments max_comments)
    /\ (0 <= max_comments -> len rows <= max_comments)
    /\ forall i row,
         rows !! i = Some row ->
         exists item,
           raw_comments !! i = Some item
           /\ py_item item "content" = Ret (Playwright.text row)
           /\ py_item item "level" = Ret (Playwright.level row).
Proof.
  destruct (playwright_convert_comments_spec rt max_comments raw_comments)
    as (rows & Hrun & Hall & _).
  exists rows. split; [done|].
  pose proof (Forall2_length _ _ _ Hall) as Hlen. rewrite length_take in Hlen.
  assert (len rows <= len (Playwright.py_slice_to raw_comments max_comments)) as Hle
    by (unfold len; lia).
  split_and!; [done| |].
  - intros Hmax. unfold Playwright.py_slice_to in Hle.
    assert ((0 <=? max_comments) = true) as E by (by apply Z.leb_le).
    rewrite E in Hle. unfold len in *. rewrite length_firstn in Hle. lia.
  - intros i row Hi.
    destruct (Forall2_lookup_l _ _ _ _ _ Hall Hi) as (item & Hitem & Hc & Hl).
    exists item. split_and!; [|done|done].
    apply lookup_take_Some in Hitem as [Hitem _].
    unfold Playwright.py_slice_to in Hitem.
    destruct (0 <=? max_comments); by apply lookup_take_Some in Hitem as [Hitem _].
Qed.

(** X17.  In the rows the conversion returns, a level-2 row carries as
    [parent_cid] the id of the nearest level-1 row before it, and the empty
    string when no level-1 row comes before it; a row of any other level
    carries the empty string. *)
Theorem playwright_convert_comments_parents
    (rt : runtime) (max_comments : Z) (raw_comments : list pyval)
    (rows : list Playwright.comment_row) :
  snd (Playwright.convert_comments rt max_comments raw_comments) = Ret rows ->
  forall i row,
    rows !! i = Some row ->
    Playwright.parent_cid row
    = if py_eq (Playwright.level row) (PInt 2)
      then nearest_root_from (PStr "") (take i rows)
      else PStr "".
Proof.
  intros Hrun.
  destruct (playwright_convert_comments_spec rt max_comments raw_comments)
    as (rows' & Hrun' & _ & Hlinked).
  rewrite Hrun in Hrun'. by simplify_eq.
Qed.

Lemma playwright_convert_comments_parents_witness :
  exists rows,
    snd (Playwright.convert_comments plain_runtime 10
           [scraped_item 1 "a"; scraped_item 2 "bb"; scraped_item 1 "ccc";
            scraped_item 2 "d"])
    = Ret rows
    /\ map Playwright.cid rows = [PStr "7"; PStr "8"; PStr "9"; PStr "7"]
    /\ map Playwright.parent_cid rows = [PStr ""; PStr "7"; PStr ""; PStr "9"]
    /\ forall i row,
         rows !! i = Some row ->
         Playwright.parent_cid row
         = if py_eq (Playwright.level row) (PInt 2)
           then nearest_root_from (PStr "") (take i rows)
           else PStr "".
Proof.
  pose (run := Playwright.convert_comments plain_runtime 10
                 [scraped_item 1 "a"; scraped_item 2 "bb"; scraped_item 1 "ccc";
                  scraped_item 2 "d"]).
  assert (exists rows,
             snd run = Ret rows
             /\ map Playwright.cid rows = [PStr "7"; PStr "8"; PStr "9"; PStr "7"]
             /\ map Playwright.parent_cid rows = [PStr ""; PStr "7"; PStr ""; PStr "9"])
    as (rows & Hrun & Hcids & Hparents).
  { vm_compute. eexists. split_and!; reflexivity. }
  exists rows. split; [exact Hrun|]. split; [exact Hcids|]. split; [exact Hparents|].
  exact (playwright_convert_comments_parents _ _ _ _ Hrun).
Defined.

(** * crawl_mix_api.py: [fetch_mix_videos] *)

Lemma indexed_from_nil (first : Z) : indexed_from first [].
Proof. by intros i video Hi. Qed.

Lemma indexed_from_snoc (first : Z) (videos : list pyval) (video aweme_id : pyval) :
  indexed_from first videos ->
  py_item video "index" = Ret (PInt (first + len videos)) ->
  py_item video "aweme_id" = Ret aweme_id ->
  truthy aweme_id = true ->
  indexed_from first (videos ++ [video]).
Proof.
  intros Hall Hindex Hid Htruthy i v Hi.
  apply lookup_app_Some in Hi as [Hi|[Hlen Hi]]; [by apply Hall|].
  apply list_lookup_singleton_Some in Hi as [Hi ->].
  replace i with (length videos) by lia. eauto.
Qed.

Lemma api_video_of_fields (item aweme_id video : pyval) (index : Z) :
  ApiMix.video_of item aweme_id index = Ret video ->
  py_item video "index" = Ret (PInt index) /\ py_item video "aweme_id" = Ret aweme_id.
Proof.
  unfold ApiMix.video_of, ApiMix.get_in, rbind.
  repeat (case_match; simplify_eq/=; try done). by intros [= <-].
Qed.

Lemma api_video_of_settled (item aweme_id : pyval) (index : Z) :
  ApiMix.video_of item aweme_id index <> OutOfFuel.
Proof.
  unfold ApiMix.video_of, ApiMix.get_in, rbind, py_get, py_floordiv.
  repeat (case_match; simplify_eq/=; try done).
Qed.

Section ApiMixVideos.
Context (fetch_user_mix_videos : nat -> outcome pyval) (fuel : nat).

Lemma api_mix_item_spec (item : pyval) (s : nat * ApiMix.mix_vars) :
  after (ApiMix.mix_item item) s
        (fun s' r => fst s' = fst s
                     /\ ApiMix.cursor (snd s') = ApiMix.cursor (snd s)
                     /\ (indexed_from 1 (ApiMix.videos (snd s)) ->
                         indexed_from 1 (ApiMix.videos (snd s')))
                     /\ r <> OutOfFuel).
Proof.
  unfold ApiMix.mix_item.
  pose proof (api_video_of_settled item) as Hsettled.
  run; cbn in *; split_and?; try done; try no_fuel_needed.
  - intros Hall.
    match goal with H : ApiMix.video_of _ _ _ = Ret _ |- _ =>
      apply api_video_of_fields in H as [Hindex Hid] end.
    eapply indexed_from_snoc; [done| |done|].
    + by rewrite Z.add_comm.
    + match goal with H : negb _ = false |- _ => by apply negb_false_iff in H end.
  - match goal with H : ApiMix.video_of _ _ _ = OutOfFuel |- _ =>
      by apply Hsettled in H end.
Qed.

Lemma api_mix_items_spec (items : list pyval) (s : nat * ApiMix.mix_vars) :
  after (for_each ApiMix.mix_item items) s
        (fun s' r => fst s' = fst s
                     /\ ApiMix.cursor (snd s') = ApiMix.cursor (snd s)
                     /\ (indexed_from 1 (ApiMix.videos (snd s)) ->
                         indexed_from 1 (ApiMix.videos (snd s')))
                     /\ r <> OutOfFuel).
Proof.
  apply after_for_each with
    (inv := fun s0 : nat * ApiMix.mix_vars =>
              fst s0 = fst s
              /\ ApiMix.cursor (snd s0) = ApiMix.cursor (snd s)
              /\ (indexed_from 1 (ApiMix.videos (snd s)) ->
                  indexed_from 1 (ApiMix.videos (snd s0)))); [done|..].
  - by intros s0 (? & ? & ?).
  - intros x s0 _ (Hn & Hc & Hv).
    eapply after_weaken; [apply api_mix_item_spec|].
    intros s' [[|]|e|] (? & ? & ? & ?); cbn; split_and?; try congruence; auto.
Qed.

(** One pass of [while True]: one call; the loop goes on only with a
    cursor that differs from the one it held; nothing is raised. *)
Lemma api_mix_page_spec (s : nat * ApiMix.mix_vars) :
  after (ApiMix.mix_page fetch_user_mix_videos) s
        (fun s' r =>
           (indexed_from 1 (ApiMix.videos (snd s)) ->
            indexed_from 1 (ApiMix.videos (snd s')))
           /\ fst s' = S (fst s)
           /\ (r = Ret Break
               \/ (r = OutOfFuel /\ ~ True)
               \/ (r = Ret Next
                   /\ exists resp c,
                        fetch_user_mix_videos (fst s) = Returns resp
                        /\ py_get resp "cursor" (PInt 0) = Ret c
                        /\ ApiMix.cursor (snd s') = c
                        /\ py_eq c (ApiMix.cursor (snd s)) = false))).
Proof.
  unfold ApiMix.mix_page, ApiMix.mix_page_try, ApiMix.await_fetch_user_mix_videos.
  apply after_try_except, after_bind. constructor.
  destruct s as [n v]. cbn in *.
  destruct (fetch_user_mix_videos n) as [resp|e] eqn:Hresp;
    cbn; [|apply after_ret; auto].
  repeat first
    [ lazymatch goal with
      | |- after (for_each ApiMix.mix_item _) _ _ =>
          eapply after_weaken;
          [apply api_mix_items_spec
          | intros [? ?] [[]|?|] (? & ? & ? & ?); cbn in *; simplify_eq ]
      end
    | run_step ];
  cbn in *; split_and?; auto.
  all: try no_fuel_needed.
  right. right. split; [done|]. eexists _, _. split_and!; [done..|]. congruence.
Qed.

Lemma api_fetch_mix_videos_body_indexed (calls : nat) :
  after (ApiMix.fetch_mix_videos_body fetch_user_mix_videos fuel)
        (calls, {| ApiMix.videos := []; ApiMix.cursor := PInt 0 |})
        (fun _ r => (forall e, r <> Raise e)
                    /\ forall l, r = Ret l -> indexed_from 1 l).
Proof.
  unfold ApiMix.fetch_mix_videos_body. apply after_bind.
  apply after_while_loop with
    (inv := fun s0 : nat * ApiMix.mix_vars => indexed_from 1 (ApiMix.videos (snd s0))).
  - apply indexed_from_nil.
  - done.
  - done.
  - intros s0 H0 _. eapply after_weaken; [apply api_mix_page_spec|].
    intros s1 r (Hall & _ & [->|[[-> ?]|[-> _]]]); cbn; try done; [|by apply Hall].
    apply after_local. split; [done|]. intros ? [= <-]. by apply Hall.
Qed.

Lemma api_fetch_mix_videos_stops (calls j : nat) :
  same_cursor (fetch_user_mix_videos (calls + j)%nat)
              (fetch_user_mix_videos (calls + j + 1)%nat) ->
  after (ApiMix.fetch_mix_videos_body fetch_user_mix_videos fuel)
        (calls, {| ApiMix.videos := []; ApiMix.cursor := PInt 0 |})
        (fun s' r => (fst s' <= calls + j + 2)%nat
                     /\ ((j + 2 <= fuel)%nat -> exists videos, r = Ret videos)).
Proof.
  intros Hsame. unfold ApiMix.fetch_mix_videos_body. apply after_bind.
  eapply after_weaken.
  - apply (stops_on_repeated_cursor
             (fun s0 : nat * ApiMix.mix_vars => fst s0)
             (fun s0 => ApiMix.cursor (snd s0))
             fetch_user_mix_videos True); [|exact Hsame].
    intros s0. eapply after_weaken; [apply api_mix_page_spec|].
    intros s' r (_ & ? & ?). done.
  - intros s' [[]|e|] [Hle Hret]; cbn in *.
    + apply after_local. split; [lia|]. eauto.
    + split; [lia|]. intros Hfuel. by specialize (Hret I Hfuel).
    + split; [lia|]. intros Hfuel. by specialize (Hret I Hfuel).
Qed.

End ApiMixVideos.

(** X18.  [DouyinAPICrawler.fetch_mix_videos] raises nothing, and the
    videos it returns are numbered without gaps: the video at position [i]
    (counted from 0) has [index = i + 1], also when items without an id
    were skipped in between, and every video has an [aweme_id] that is not
    empty. *)
Theorem api_fetch_mix_videos_numbered
    (fetch_user_mix_videos : nat -> outcome pyval) (fuel calls : nat) :
  let run := ApiMix.fetch_mix_videos fetch_user_mix_videos fuel calls in
  (forall e, snd run <> Raise e)
  /\ forall videos,
       snd run = Ret videos ->
       forall i video,
         videos !! i = Some video ->
         py_item video "index" = Ret (PInt (1 + Z.of_nat i))
         /\ exists aweme_id,
              py_item video "aweme_id" = Ret aweme_id /\ truthy aweme_id = true.
Proof.
  cbn zeta. unfold ApiMix.fetch_mix_videos.
  destruct (api_fetch_mix_videos_body_indexed fetch_user_mix_videos fuel calls) as [H].
  destruct (ApiMix.fetch_mix_videos_body _ _ _) as [s' r]. cbn in *.
  destruct H as [Hraise Hall]. split; [done|]. intros videos ->. by apply Hall.
Qed.

(** X19.  The [while True] of [fetch_mix_videos] ends when the feed repeats
    itself: if two consecutive answers of the end point are pages with the
    same cursor, no call is made after the second of them, and the method
    returns its list (given fuel for these passes). *)
Theorem api_fetch_mix_videos_stops_on_repeated_cursor
    (fetch_user_mix_videos : nat -> outcome pyval) (fuel calls j : nat) :
  same_cursor (fetch_user_mix_videos (calls + j)%nat)
              (fetch_user_mix_videos (calls + j + 1)%nat) ->
  let run := ApiMix.fetch_mix_videos fetch_user_mix_videos fuel calls in
  (fst (fst run) <= calls + j + 2)%nat
  /\ ((j + 2 <= fuel)%nat -> exists videos, snd run = Ret videos).
Proof.
  intros Hsame. cbn zeta. unfold ApiMix.fetch_mix_videos.
  destruct (api_fetch_mix_videos_stops fetch_user_mix_videos fuel calls j Hsame) as [H].
  by destruct (ApiMix.fetch_mix_videos_body _ _ _) as [s' r].
Qed.

Lemma api_fetch_mix_videos_numbered_witness :
  exists videos,
    snd (ApiMix.fetch_mix_videos mix_feed 5 0) = Ret videos
    /\ map (fun video => py_item video "aweme_id") videos
       = [Ret (PStr "v1"); Ret (PStr "v3")]
    /\ forall i video,
         videos !! i = Some video ->
         py_item video "index" = Ret (PInt (1 + Z.of_nat i))
         /\ exists aweme_id,
              py_item video "aweme_id" = Ret aweme_id /\ truthy aweme_id = true.
Proof.
  destruct (api_fetch_mix_videos_numbered mix_feed 5 0) as [_ Hall].
  assert (exists videos,
             snd (ApiMix.fetch_mix_videos mix_feed 5 0) = Ret videos
             /\ map (fun video => py_item video "aweme_id") videos
                = [Ret (PStr "v1"); Ret (PStr "v3")]) as (videos & Hrun & Hids).
  { vm_compute. eexists. split; reflexivity. }
  exists videos. split; [exact Hrun|]. split; [exact Hids|]. exact (Hall videos Hrun).
Defined.

Lemma api_fetch_mix_videos_stops_on_repeated_cursor_witness :
  let run := ApiMix.fetch_mix_videos stuck_mix_feed 5 0 in
  (fst (fst run) <= 2)%nat /\ exists videos, snd run = Ret videos.
Proof.
  intros run.
  assert (same_cursor (stuck_mix_feed (0 + 0)%nat) (stuck_mix_feed (0 + 0 + 1)%nat))
    as Hsame by (by eexists _, _, _, _).
  destruct (api_fetch_mix_videos_stops_on_repeated_cursor stuck_mix_feed 5 0 0 Hsame)
    as [Hle Hret].
  split; [exact Hle|]. apply Hret. lia.
Defined.

(** * crawl_mix_api.py: [crawl_mix] *)

(** The loop attempts a prefix of its list, and only the last video
    attempted can have been interrupted. *)
Lemma api_crawl_mix_loop_prefix {V : Type} (process_video : V -> Api.video_outcome)
      (videos : list V) (st : Api.stats) (attempted : list V) :
  exists tried rest,
    snd (Api.crawl_mix_loop process_video videos st attempted) = attempted ++ tried
    /\ videos = tried ++ rest
    /\ (forall i video,
          tried !! i = Some video ->
          process_video video = Api.KeyboardInterrupt ->
          S i = length tried /\ rest = drop (S i) videos)
    /\ (rest <> [] -> exists video, last tried = Some video
                                    /\ process_video video = Api.KeyboardInterrupt).
Proof.
  revert st attempted. induction videos as [|video videos IH]; intros st attempted.
  - exists [], []. cbn. rewrite app_nil_r. split_and!; try done.
  - cbn [Api.crawl_mix_loop].
    destruct (process_video video) eqn:Hvideo.
    + destruct (IH {| Api.processed_videos := S (Api.processed_videos st);
                      Api.failed_videos := Api.failed_videos st |}
                   (attempted ++ [video])) as (tried & rest & -> & -> & Hint & Hrest).
      exists (video :: tried), rest. rewrite <- app_assoc. split_and!; try done.
      * intros [|i] v Hi Hv; cbn in *; [congruence|].
        destruct (Hint i v Hi Hv) as [Hlen Hdrop]. split; [by rewrite Hlen|done].
      * intros Hne. destruct (Hrest Hne) as (v & Hlast & Hv). exists v. split; [|done].
        destruct tried; [done|]. by rewrite last_cons_cons.
    + destruct (IH {| Api.processed_videos := Api.processed_videos st;
                      Api.failed_videos := S (Api.failed_videos st) |}
                   (attempted ++ [video])) as (tried & rest & -> & -> & Hint & Hrest).
      exists (video :: tried), rest. rewrite <- app_assoc. split_and!; try done.
      * intros [|i] v Hi Hv; cbn in *; [congruence|].
        destruct (Hint i v Hi Hv) as [Hlen Hdrop]. split; [by rewrite Hlen|done].
      * intros Hne. destruct (Hrest Hne) as (v & Hlast & Hv). exists v. split; [|done].
        destruct tried; [done|]. by rewrite last_cons_cons.
    + exists [video], videos. cbn. split_and!; try done.
      * intros [|i] v Hi Hv; cbn in *; [by rewrite drop_0|done].
      * intros _. by exists video.
Qed.

(** X20.  [DouyinAPICrawler.crawl_mix] attempts the videos from the front
    of the list, in order: the videos attempted are a prefix of the list
    [fetch_mix_videos] returned, of at most [limit] videos when
    [limit > 0] (any other [limit] is no limit at all); and a video
    attempted after which videos are left over is one whose processing
    was interrupted from the keyboard, so that nothing is attempted after
    an interrupt, while a failure of any other kind leaves no video out. *)
Theorem api_crawl_mix_attempts_prefix {V : Type}
    (process_video : V -> Api.video_outcome) (limit : Z) (videos : list V)
    (st : Api.stats) :
  let attempted := snd (ApiRun.crawl_mix process_video limit videos st) in
  (exists rest, videos = attempted ++ rest)
  /\ (0 < limit -> len attempted <= limit)
  /\ (forall i video,
        attempted !! i = Some video ->
        process_video video = Api.KeyboardInterrupt ->
        S i = length attempted)
  /\ (Forall (fun video => process_video video <> Api.KeyboardInterrupt) videos ->
      attempted = if 0 <? limit then Playwright.py_slice_to videos limit else videos).
Proof.
  cbn zeta. unfold ApiRun.crawl_mix.
  destruct videos as [|video0 videos0].
  { cbn [snd]. split_and!; [by exists [] | intros; len_lia | done |].
    intros _. unfold Playwright.py_slice_to.
    destruct (0 <? limit), (0 <=? limit); by rewrite ?firstn_nil. }
  set (videos := video0 :: videos0).
  set (chosen := if 0 <? limit then Playwright.py_slice_to videos limit else videos).
  assert (exists cut, videos = chosen ++ cut) as [cut Hcut].
  { unfold chosen, Playwright.py_slice_to. destruct (0 <? limit) eqn:Hl; [|exists []; by rewrite app_nil_r].
    apply Z.ltb_lt in Hl. assert ((0 <=? limit) = true) as -> by (apply Z.leb_le; lia).
    exists (drop (Z.to_nat limit) videos). by rewrite firstn_skipn. }
  assert (0 < limit -> len chosen <= limit) as Hchosen.
  { intros Hl. unfold chosen, Playwright.py_slice_to.
    assert ((0 <? limit) = true) as -> by (by apply Z.ltb_lt).
    assert ((0 <=? limit) = true) as -> by (apply Z.leb_le; lia).
    unfold len. rewrite length_firstn. lia. }
  destruct (api_crawl_mix_loop_prefix process_video chosen st [])
    as (tried & rest & Hrun & Htried & Hint & Hrest).
  rewrite Hrun. cbn [app]. split_and!.
  - exists (rest ++ cut). by rewrite app_assoc, <- Htried.
  - intros Hl. specialize (Hchosen Hl). rewrite Htried in Hchosen. len_lia.
  - intros i v Hi Hv. by destruct (Hint i v Hi Hv).
  - intros Hall. destruct rest as [|r rest]; [by rewrite Htried, app_nil_r|].
    destruct Hrest as (v & Hlast & Hv); [done|]. exfalso.
    assert (v ∈ videos) as Hin.
    { rewrite Hcut, Htried. apply elem_of_app. left. apply elem_of_app. left.
      apply last_Some in Hlast as [l' ->]. apply elem_of_app. right. by left. }
    rewrite Forall_forall in Hall. by apply (Hall v).
Qed.

Lemma api_crawl_mix_attempts_prefix_witness :
  ApiRun.crawl_mix process_video_interrupted_on_2 0 [1; 2; 3]%nat
    {| Api.processed_videos := 0; Api.failed_videos := 0 |}
  = ({| Api.processed_videos := 1; Api.failed_videos := 0 |}, [1; 2]%nat)
  /\ snd (ApiRun.crawl_mix process_video_failing_on_2 2 [1; 2; 3]%nat
            {| Api.processed_videos := 0; Api.failed_videos := 0 |})
     = [1; 2]%nat.
Proof.
  split; [reflexivity|].
  destruct (api_crawl_mix_attempts_prefix process_video_failing_on_2 2 [1; 2; 3]%nat
              {| Api.processed_videos := 0; Api.failed_videos := 0 |})
    as (_ & _ & _ & Hall).
  rewrite Hall; [reflexivity|]. repeat constructor; discriminate.
Defined.

(** * crawl_mix_complete.py: the rows of the CSV file *)

Lemma dict_lookup_set_ne (k k' : string) (x : pyval) (d : list (string * pyval)) :
  k <> k' -> dict_lookup k (Drission.dict_set k' x d) = dict_lookup k d.
Proof.
  intros Hne. apply String.eqb_neq in Hne.
  induction d as [|[k0 v] d IH]; cbn.
  - by rewrite Hne.
  - destruct (String.eqb k' k0) eqn:E; cbn.
    + apply String.eqb_eq in E as <-. by rewrite Hne.
    + by rewrite IH.
Qed.

Lemma dict_lookup_None_keys (k : string) (d : list (string * pyval)) :
  k ∉ map fst d -> dict_lookup k d = None.
Proof.
  induction d as [|[k0 v] d IH]; cbn; [done|]. intros Hnot.
  destruct (String.eqb k k0) eqn:E.
  - apply String.eqb_eq in E as <-. destruct Hnot. by left.
  - apply IH. intros Hin. apply Hnot. by right.
Qed.

(** Looking up a key in [{**a, **b}], for a [b] without repeated keys. *)
Lemma dict_lookup_merge (k : string) (a b : list (string * pyval)) :
  NoDup (map fst b) ->
  dict_lookup k (CompleteCsv.dict_merge a b)
  = match dict_lookup k b with
    | Some x => Some x
    | None => dict_lookup k a
    end.
Proof.
  unfold CompleteCsv.dict_merge. revert a.
  induction b as [|[k' x] b IH]; intros a Hnd; cbn; [done|].
  apply NoDup_cons in Hnd as [Hk' Hnd]. rewrite IH by done.
  destruct (String.eqb k k') eqn:E.
  - apply String.eqb_eq in E as ->.
    rewrite (dict_lookup_None_keys k' b) by done. apply dict_lookup_set.
  - apply String.eqb_neq in E. by rewrite dict_lookup_set_ne.
Qed.

Lemma complete_row_dict_keys (rt : runtime) (row : Complete.csv_row) :
  exists d, CompleteCsv.row_dict rt row = PDict d
            /\ map fst d = CompleteCsv.fieldnames
            /\ NoDup (map fst d).
Proof.
  eexists. split; [reflexivity|]. split; [reflexivity|].
  cbn [map fst]. apply (bool_decide_unpack _). by vm_compute.
Qed.

Lemma complete_merge_item_cells (rt : runtime) (video_meta : list (string * pyval))
      (row : Complete.csv_row) :
  exists merged,
    CompleteCsv.merge_item (PDict video_meta) (CompleteCsv.row_dict rt row) = Ret merged
    /\ CompleteCsv.csv_cells merged = CompleteCsv.csv_cells (CompleteCsv.row_dict rt row).
Proof.
  destruct (complete_row_dict_keys rt row) as (d & Hd & Hkeys & Hnd).
  unfold CompleteCsv.merge_item.
  assert (py_get (CompleteCsv.row_dict rt row) "层级" (PStr "")
          = Ret (PStr (String.append "comment" (py_str rt (PInt (Complete.level row))))))
    as -> by reflexivity.
  cbn [rbind CompleteCsv.py_startswith].
  assert (is_prefix "comment"
            (String.append "comment" (py_str rt (PInt (Complete.level row)))) = true)
    as -> by reflexivity.
  rewrite Hd. cbn [CompleteCsv.py_merge]. eexists. split; [reflexivity|].
  unfold CompleteCsv.csv_cells. apply map_ext_in. intros k Hk. cbn [py_get]. f_equal.
  rewrite dict_lookup_merge by done.
  rewrite <- Hkeys in Hk.
  destruct (dict_lookup k d) eqn:E; [done|].
  exfalso. revert Hk E. clear. induction d as [|[k0 v] d IH]; cbn; [done|].
  intros [->|Hin]; [by rewrite String.eqb_refl|].
  destruct (String.eqb k k0); [done|]. by apply IH.
Qed.

(** X21.  [MixCrawler.merge_video_and_comments] puts the video's row first
    and changes no cell of a comment row: for rows made by
    [format_comment_row], what [save_csv] writes for the merged row is
    what it would write for the row itself, since a comment row already
    has every column.  In particular the video id of a comment row is the
    comment's own [aweme_id] field (empty when the feed gave none), not
    the id of the video's row. *)
Theorem complete_merge_changes_no_cell
    (rt : runtime) (video_meta : list (string * pyval)) (rows : list Complete.csv_row) :
  exists merged,
    CompleteCsv.merge_video_and_comments (PDict video_meta)
      (map (CompleteCsv.row_dict rt) rows)
    = Ret (PDict video_meta :: merged)
    /\ Forall2 (fun m row =>
                  CompleteCsv.csv_cells m
                  = CompleteCsv.csv_cells (CompleteCsv.row_dict rt row)
                  /\ py_get m "视频ID" (PStr "") = Ret (Complete.aweme_id row))
               merged rows.
Proof.
  unfold CompleteCsv.merge_video_and_comments.
  assert (exists merged,
             CompleteCsv.merge_items (PDict video_meta) (map (CompleteCsv.row_dict rt) rows)
             = Ret merged
             /\ Forall2 (fun m row =>
                           CompleteCsv.csv_cells m
                           = CompleteCsv.csv_cells (CompleteCsv.row_dict rt row))
                        merged rows) as (merged & -> & Hall).
  { induction rows as [|row rows (merged & IH & Hall)]; cbn [map CompleteCsv.merge_items].
    - exists []. split; [done|constructor].
    - destruct (complete_merge_item_cells rt video_meta row) as (m & -> & Hm).
      rewrite IH. cbn. exists (m :: merged). split; [done|]. by constructor. }
  exists merged. split; [done|].
  eapply Forall2_impl; [exact Hall|]. intros m row Hcells. split; [done|].
  apply (f_equal (fun cells => cells !! 1%nat)) in Hcells. cbn in Hcells.
  by simplify_eq.
Qed.

(** * crawl_mix_drission.py: which videos [crawl_mix] takes *)

Lemma drission_choose_range_within (rt : runtime) (headless : bool)
      (start end_ total_count : Z) (first second : DrissionRun.typed) (a b : Z) :
  1 <= total_count ->
  DrissionRun.choose_range rt headless start end_ total_count first second
  = Ret (Some (a, b)) ->
  1 <= a <= b /\ b <= total_count.
Proof.
  intros Htotal. unfold DrissionRun.choose_range, DrissionRun.ask_range,
                        DrissionRun.read_int, rbind.
  repeat (case_match; simplify_eq/=; try done); intros; simplify_eq; bool_to_Z; lia.
Qed.

Lemma drission_py_slice_range {A : Type} (l : list A) (a b : Z) :
  1 <= a <= b -> b <= len l ->
  DrissionRun.py_slice l (a - 1) b
  = take (Z.to_nat (b - a + 1)) (drop (Z.to_nat (a - 1)) l).
Proof.
  intros Hab Hb. unfold DrissionRun.py_slice. cbn zeta.
  assert ((b <? 0) = false) as -> by lia.
  assert ((a - 1 <? 0) = false) as -> by lia.
  do 2 f_equal; lia.
Qed.

Lemma drission_reindex_lookup (start_idx i : Z) (videos selected : list pyval) :
  DrissionRun.reindex start_idx i videos = Ret selected ->
  length selected = length videos
  /\ forall j video,
       selected !! j = Some video ->
       exists original,
         videos !! j = Some original
         /\ Drission.py_setitem original "index" (PInt (start_idx + i + Z.of_nat j))
            = Ret video.
Proof.
  revert i selected. induction videos as [|video videos IH]; intros i selected; cbn.
  - intros [= <-]. split; [done|]. by intros j v Hj.
  - unfold rbind.
    destruct (Drission.py_setitem video "index" (PInt (start_idx + i))) as [v| |] eqn:Hv;
      [|done..].
    destruct (DrissionRun.reindex start_idx (i + 1) videos) as [vs| |] eqn:Hvs; [|done..].
    intros [= <-]. destruct (IH (i + 1) vs Hvs) as [Hlen Hall]. split; [cbn; lia|].
    intros [|j] v' Hj; cbn in *.
    + simplify_eq. exists video. split; [done|]. by rewrite Z.add_0_r.
    + destruct (Hall j v' Hj) as (original & Ho & Hset). exists original. split; [done|].
      rewrite <- Hset. do 2 f_equal. lia.
Qed.

(** X22.  The videos [DrissionMixCrawler.crawl_mix] goes through, whatever
    [start] and [end] are given on the command line or typed at the
    prompts: an interval [a .. b] of the collection with
    [1 <= a <= b <= len(videos)], never empty (a [start] beyond the end
    selects the last video, an [end] before [start] selects the one video
    at [start]); the videos are taken in order, and each is given as
    [index] its number in the whole collection, counted from 1. *)
Theorem drission_crawl_mix_range
    (rt : runtime) (headless : bool) (start end_ : Z) (videos selected : list pyval)
    (first second : DrissionRun.typed) :
  DrissionRun.select_videos rt headless start end_ videos first second
  = Ret (Some selected) ->
  exists a b,
    1 <= a <= b /\ b <= len videos
    /\ len selected = b - a + 1
    /\ forall i video,
         selected !! i = Some video ->
         exists original,
           videos !! (Z.to_nat (a - 1) + i)%nat = Some original
           /\ Drission.py_setitem original "index" (PInt (a + Z.of_nat i)) = Ret video
           /\ py_item video "index" = Ret (PInt (a + Z.of_nat i)).
Proof.
  unfold DrissionRun.select_videos.
  destruct videos as [|video0 videos0]; [done|].
  set (videos := video0 :: videos0).
  assert (1 <= len videos) as Htotal by (unfold videos; len_lia).
  unfold rbind.
  destruct (DrissionRun.choose_range rt headless start end_ (len videos) first second)
    as [[[a b]|]| |] eqn:Hrange; [|done..].
  destruct (drission_choose_range_within _ _ _ _ _ _ _ _ _ Htotal Hrange) as [Hab Hb].
  rewrite drission_py_slice_range by done.
  destruct (DrissionRun.reindex a 0 _) as [chosen| |] eqn:Hre; [|done..].
  intros [= <-]. exists a, b. split; [done|]. split; [done|].
  destruct (drission_reindex_lookup _ _ _ _ Hre) as [Hlen Hall]. split.
  - unfold len in *. rewrite Hlen, length_take, length_drop. lia.
  - intros i video Hi. destruct (Hall i video Hi) as (original & Ho & Hset).
    rewrite Z.add_0_r in Hset.
    apply lookup_take_Some in Ho as [Ho _]. rewrite lookup_drop in Ho.
    exists original. split_and!; [done|done|]. by eapply py_setitem_item.
Qed.

Lemma drission_crawl_mix_range_witness :
  exists selected,
    DrissionRun.select_videos plain_runtime true 5 1
      [mix_video "v1"; mix_video "v2"; mix_video "v3"]
      (DrissionRun.Line "") (DrissionRun.Line "")
    = Ret (Some selected)
    /\ map (fun video => (py_item video "aweme_id", py_item video "index")) selected
       = [(Ret (PStr "v3"), Ret (PInt 3))]
    /\ exists a b,
         1 <= a <= b /\ b <= 3
         /\ len selected = b - a + 1
         /\ forall i video,
              selected !! i = Some video ->
              exists original,
                [mix_video "v1"; mix_video "v2"; mix_video "v3"]
                  !! (Z.to_nat (a - 1) + i)%nat = Some original
                /\ Drission.py_setitem original "index" (PInt (a + Z.of_nat i)) = Ret video
                /\ py_item video "index" = Ret (PInt (a + Z.of_nat i)).
Proof.
  assert (exists selected,
             DrissionRun.select_videos plain_runtime true 5 1
               [mix_video "v1"; mix_video "v2"; mix_video "v3"]
               (DrissionRun.Line "") (DrissionRun.Line "")
             = Ret (Some selected)
             /\ map (fun video => (py_item video "aweme_id", py_item video "index")) selected
                = [(Ret (PStr "v3"), Ret (PInt 3))]) as (selected & Hrun & Hfields).
  { vm_compute. eexists. split; reflexivity. }
  exists selected. split; [exact Hrun|]. split; [exact Hfields|].
  exact (drission_crawl_mix_range _ _ _ _ _ _ _ _ Hrun).
Defined.

(** * crawl_mix_complete.py: [crawl_mix_complete] *)

Section CompleteCrawl.
Context (fetch_user_mix_videos : nat -> outcome pyval)
        (process_single_video : nat -> outcome unit)
        (fuel : nat).

Lemma crawl_state_ok_weaken (s : CompleteRun.crawl_world * CompleteRun.crawl_vars) :
  crawl_state_ok process_single_video 0 s -> crawl_state_ok process_single_video 1 s.
Proof.
  intros (? & ? & Hclean). split_and!; [done..|].
  intros k e Hk. specialize (Hclean k e Hk). lia.
Qed.

Lemma complete_video_item_spec (video : pyval)
      (s : CompleteRun.crawl_world * CompleteRun.crawl_vars) :
  crawl_state_ok process_single_video 0 s ->
  after (CompleteRun.video_item process_single_video video) s
        (fun s' r => (r = Ret Next /\ crawl_state_ok process_single_video 0 s')
                     \/ ((exists e, r = Raise e)
                         /\ crawl_state_ok process_single_video 1 s')).
Proof.
  intros (Htotal & Hnum & Hclean). unfold CompleteRun.video_item.
  apply after_bind, after_assign. apply after_bind, after_local.
  apply after_bind. constructor. destruct s as [w v]. cbn in *.
  assert (numbered_from_1
            (CompleteRun.attempted w
             ++ [(CompleteRun.total_videos v + 1, video)])) as Hnum'.
  { intros i idx vid Hi. apply lookup_app_Some in Hi as [Hi|[Hlen Hi]]; [by eapply Hnum|].
    apply list_lookup_singleton_Some in Hi as [Hi [= <- <-]].
    rewrite Htotal. unfold len. lia. }
  destruct (process_single_video (length (CompleteRun.attempted w))) as [[]|e] eqn:Hcall;
    cbn.
  - apply after_ret. left. split; [done|]. split_and!; cbn; [len_lia|done|].
    intros k e Hk. specialize (Hclean k e Hk). rewrite length_app. cbn.
    assert (k <> length (CompleteRun.attempted w)) by congruence. lia.
  - right. split; [eauto|]. split_and!; cbn; [len_lia|done|].
    intros k e' Hk. specialize (Hclean k e' Hk). rewrite length_app. cbn. lia.
Qed.

Lemma complete_video_items_spec (items : list pyval)
      (s : CompleteRun.crawl_world * CompleteRun.crawl_vars) :
  crawl_state_ok process_single_video 0 s ->
  after (for_each (CompleteRun.video_item process_single_video) items) s
        (fun s' r => (r = Ret tt /\ crawl_state_ok process_single_video 0 s')
                     \/ ((exists e, r = Raise e)
                         /\ crawl_state_ok process_single_video 1 s')).
Proof.
  intros Hok.
  apply after_for_each with (inv := crawl_state_ok process_single_video 0); [done|..].
  - intros s0 H0. by left.
  - intros x s0 _ H0. eapply after_weaken; [by apply complete_video_item_spec|].
    intros s' r [[-> ?]|[[e ->] ?]]; cbn; [done|]. right. eauto.
Qed.

Lemma complete_crawl_page_spec (s : CompleteRun.crawl_world * CompleteRun.crawl_vars) :
  crawl_state_ok process_single_video 0 s ->
  after (CompleteRun.crawl_page fetch_user_mix_videos process_single_video) s
        (fun s' r => (r = Ret Next /\ crawl_state_ok process_single_video 0 s')
                     \/ (r = Ret Break /\ crawl_state_ok process_single_video 1 s')).
Proof.
  intros Hok. pose proof (crawl_state_ok_weaken s Hok) as Hweak.
  unfold CompleteRun.crawl_page, CompleteRun.crawl_page_try,
         CompleteRun.await_fetch_user_mix_videos.
  apply after_try_except, after_bind. constructor.
  destruct s as [w v]. cbn in *.
  assert (forall slack,
            crawl_state_ok process_single_video slack (w, v) ->
            crawl_state_ok process_single_video slack
              ({| CompleteRun.mix_calls := S (CompleteRun.mix_calls w);
                  CompleteRun.attempted := CompleteRun.attempted w |}, v)) as Hcall
    by (by intros slack (? & ? & ?)).
  destruct (fetch_user_mix_videos (CompleteRun.mix_calls w)) as [resp|e];
    cbn; [|apply after_ret; right; auto].
  repeat first
    [ lazymatch goal with
      | |- after (for_each (CompleteRun.video_item _) _) _ _ =>
          eapply after_weaken;
          [ apply complete_video_items_spec; by apply Hcall
          | intros [? ?] ? [[-> Hnext]|[[? ->] Hraised]]; cbn beta iota ]
      end
    | run_step ];
  cbn in *; try (right; split; [done|]; by apply Hcall).
  all: try no_fuel_needed.
  all: try (apply after_ret; right; split; [done|]; by apply Hcall).
  all: try (apply after_ret; by right).
  all: try (right; split; [done|]; by apply crawl_state_ok_weaken).
  all: try (right; split; [done|]; apply crawl_state_ok_weaken;
            by destruct Hnext as (? & ? & ?)).
  all: try (right; by split).
  all: left; split; [done|]; by destruct Hnext as (? & ? & ?).
Qed.

Lemma complete_crawl_mix_complete_spec (cookie_ok : bool) :
  let run := CompleteRun.crawl_mix_complete fetch_user_mix_videos process_single_video
               fuel cookie_ok in
  crawl_state_ok process_single_video 1 (fst run)
  /\ (forall e, snd run <> Raise e)
  /\ (forall n, snd run = Ret n -> n = len (CompleteRun.attempted (fst (fst run))))
  /\ (cookie_ok = false ->
      CompleteRun.mix_calls (fst (fst run)) = 0%nat
      /\ CompleteRun.attempted (fst (fst run)) = []).
Proof.
  cbn zeta. unfold CompleteRun.crawl_mix_complete.
  set (s0 := ({| CompleteRun.mix_calls := 0; CompleteRun.attempted := [] |},
              {| CompleteRun.cursor := PInt 0; CompleteRun.page := 1;
                 CompleteRun.total_videos := 0 |})).
  assert (crawl_state_ok process_single_video 0 s0) as Hstart.
  { split_and!; [done| |cbn; lia]. by intros i idx vid Hi. }
  destruct cookie_ok; cbn [negb].
  - match goal with
    | |- context [?m s0] =>
        assert (after m s0
                  (fun s' r =>
                     crawl_state_ok process_single_video 1 s'
                     /\ (forall e, r <> Raise e)
                     /\ forall n, r = Ret n
                                  -> n = len (CompleteRun.attempted (fst s')))) as [Hafter]
    end.
    { apply after_bind.
      apply after_while_loop with (inv := crawl_state_ok process_single_video 0);
        [done|done| |].
      - intros s1 H1 _. split_and!; [by apply crawl_state_ok_weaken|done..].
      - intros s1 H1 _. eapply after_weaken; [by apply complete_crawl_page_spec|].
        intros s2 r [[-> ?]|[-> Hok]]; cbn; [done|].
        apply after_local. split_and!; [done|done|].
        intros n [= <-]. by destruct Hok as (? & _). }
    match type of Hafter with
    | context [?m s0] => destruct (m s0) as [s' r]
    end.
    cbn in *. destruct Hafter as (? & ? & ?). split_and!; try done.
  - cbn. split_and!; try done.
    + by apply crawl_state_ok_weaken.
    + by intros n [= <-].
Qed.

End CompleteCrawl.

(** X23.  [MixCrawler.crawl_mix_complete] raises nothing, and it calls
    [process_single_video] with the numbers 1, 2, 3, ... in order, across
    the pages.  A call that raises is the last one: the exception ends the
    whole run, and no later video of the collection is processed.  The
    total it prints is the number of calls made, and with a cookie that
    [verify_cookie] refuses it requests nothing and processes nothing. *)
Theorem complete_crawl_stops_at_first_failure
    (fetch_user_mix_videos : nat -> outcome pyval)
    (process_single_video : nat -> outcome unit) (fuel : nat) (cookie_ok : bool) :
  let run := CompleteRun.crawl_mix_complete fetch_user_mix_videos process_single_video
               fuel cookie_ok in
  let attempted := CompleteRun.attempted (fst (fst run)) in
  (forall e, snd run <> Raise e)
  /\ (forall i video_index video,
        attempted !! i = Some (video_index, video) -> video_index = Z.of_nat i + 1)
  /\ (forall k e, process_single_video k = Throws e -> (length attempted <= k + 1)%nat)
  /\ (forall n, snd run = Ret n -> n = len attempted)
  /\ (cookie_ok = false ->
      CompleteRun.mix_calls (fst (fst run)) = 0%nat /\ attempted = []).
Proof.
  cbn zeta.
  destruct (complete_crawl_mix_complete_spec fetch_user_mix_videos process_single_video
              fuel cookie_ok) as ((_ & Hnum & Hlast) & Hraise & Htotal & Hcookie).
  split_and!; done.
Qed.

Lemma complete_crawl_stops_at_first_failure_witness :
  let run := CompleteRun.crawl_mix_complete one_page_of_three
               process_single_video_failing_on_second 5 true in
  map fst (CompleteRun.attempted (fst (fst run))) = [1; 2]
  /\ snd run = Ret 2
  /\ (length (CompleteRun.attempted (fst (fst run))) <= 1 + 1)%nat.
Proof.
  intros run. split; [reflexivity|]. split; [reflexivity|].
  destruct (complete_crawl_stops_at_first_failure one_page_of_three
              process_single_video_failing_on_second 5 true) as (_ & _ & Hlast & _).
  exact (Hlast 1%nat (UpstreamError "disk full") eq_refl).
Defined.



(** * crawl_mix_drission.py: no id twice in the scrolling harvest *)

Section ScrollGrows.
Context (rt : runtime).

Lemma scroll_grows_same (s s' : Drission.page * Drission.scroll_vars) :
  Drission.comments (snd s') = Drission.comments (snd s) ->
  Drission.comment_ids (snd s') = Drission.comment_ids (snd s) ->
  scroll_grows rt s s'.
Proof.
  intros Hc Hi. exists [], []. rewrite Hc, Hi, app_nil_r. cbn.
  split_and!; [done|constructor|constructor| |by rewrite (left_id_L ∅ (∪))].
  by intros k ?%elem_of_nil.
Qed.

Lemma scroll_grows_refl (s : Drission.page * Drission.scroll_vars) : scroll_grows rt s s.
Proof. by apply scroll_grows_same. Qed.

Lemma scroll_grows_trans (s1 s2 s3 : Drission.page * Drission.scroll_vars) :
  scroll_grows rt s1 s2 -> scroll_grows rt s2 s3 -> scroll_grows rt s1 s3.
Proof.
  intros (n1 & k1 & Hc1 & Hr1 & Hd1 & Hf1 & Hs1) (n2 & k2 & Hc2 & Hr2 & Hd2 & Hf2 & Hs2).
  exists (n1 ++ n2), (k1 ++ k2).
  assert (forall k, k ∈ k1 -> k ∈ k2 -> False) as Hapart.
  { intros k Hk1 Hk2. apply (Hf2 k Hk2). rewrite Hs1.
    by apply elem_of_union_l, elem_of_list_to_set. }
  split_and!.
  - by rewrite Hc2, Hc1, app_assoc.
  - by apply Forall2_app.
  - apply NoDup_app. split_and!; [done| |done]. intros k Hk1 Hk2. by apply (Hapart k).
  - intros k [Hk|Hk]%elem_of_app; [by apply Hf1|].
    intros Hin. apply (Hf2 k Hk). rewrite Hs1. by apply elem_of_union_r.
  - rewrite Hs2, Hs1, list_to_set_app_L, (assoc_L (∪)).
    by rewrite (comm_L (∪) (list_to_set k2)).
Qed.

(** One row appended for one id newly registered. *)
Lemma scroll_grows_one (s s' : Drission.page * Drission.scroll_vars) (row : pyval) (k : key) :
  Drission.comments (snd s') = Drission.comments (snd s) ++ [row] ->
  Drission.comment_ids (snd s') = {[k]} ∪ Drission.comment_ids (snd s) ->
  k ∉ Drission.comment_ids (snd s) ->
  row_of_id rt row k ->
  scroll_grows rt s s'.
Proof.
  intros Hc Hi Hk Hrow. exists [row], [k]. rewrite Hc, Hi. cbn.
  split_and!; [done|by repeat constructor|apply NoDup_singleton| |].
  - by intros k' ->%list_elem_of_singleton.
  - by rewrite (right_id_L ∅ (∪)).
Qed.

(** The ids added are as many as the rows. *)
Lemma size_with_new_keys (keys : list key) (ids : gset key) :
  NoDup keys -> (forall k, k ∈ keys -> k ∉ ids) ->
  size (list_to_set keys ∪ ids) = (size ids + length keys)%nat.
Proof.
  intros Hd Hf. rewrite size_union, size_list_to_set; [lia|done|].
  intros k Hk%elem_of_list_to_set Hin. by apply (Hf k).
Qed.

(** What the ids say of the number of rows. *)
Lemma scroll_grows_size (s s' : Drission.page * Drission.scroll_vars) :
  scroll_grows rt s s' ->
  exists new,
    Drission.comments (snd s') = Drission.comments (snd s) ++ new
    /\ size (Drission.comment_ids (snd s'))
       = (size (Drission.comment_ids (snd s)) + length new)%nat.
Proof.
  intros (new & keys & Hc & Hr & Hd & Hf & Hs). exists new. split; [done|].
  by rewrite Hs, size_with_new_keys, (Forall2_length _ _ _ Hr).
Qed.

Lemma scroll_neat_ret {A : Type} (a : A) : scroll_neat rt (ret a).
Proof. intros s. apply after_ret, scroll_grows_refl. Qed.

Lemma scroll_neat_lift {A : Type} (r : result A) : scroll_neat rt (lift r).
Proof. intros s. apply after_lift, scroll_grows_refl. Qed.

Lemma scroll_neat_local {A : Type} (f : Drission.scroll_vars -> A) : scroll_neat rt (local f).
Proof. intros s. apply after_local, scroll_grows_refl. Qed.

Lemma scroll_neat_assign (f : Drission.scroll_vars -> Drission.scroll_vars) :
  (forall v, Drission.comments (f v) = Drission.comments v
             /\ Drission.comment_ids (f v) = Drission.comment_ids v) ->
  scroll_neat rt (assign f).
Proof.
  intros H s. apply after_assign. destruct (H (snd s)). by apply scroll_grows_same.
Qed.

Lemma scroll_neat_bind {A B : Type} (m : M (Drission.page * Drission.scroll_vars) A)
      (k : A -> M (Drission.page * Drission.scroll_vars) B) :
  scroll_neat rt m -> (forall a, scroll_neat rt (k a)) -> scroll_neat rt (bind m k).
Proof.
  intros Hm Hk s. apply after_bind. eapply after_weaken; [apply Hm|].
  intros s1 [a|e|] Hgrow; cbn; [|done|done].
  eapply after_weaken; [apply Hk|].
  intros s2 r Hgrow2. by eapply scroll_grows_trans.
Qed.

Lemma scroll_neat_try_except {A : Type} (m : M (Drission.page * Drission.scroll_vars) A)
      (h : exn -> M (Drission.page * Drission.scroll_vars) A) :
  scroll_neat rt m -> (forall e, scroll_neat rt (h e)) -> scroll_neat rt (try_except m h).
Proof.
  intros Hm Hh s. apply after_try_except. eapply after_weaken; [apply Hm|].
  intros s1 [a|e|] Hgrow; cbn; [done| |done].
  eapply after_weaken; [apply Hh|].
  intros s2 r Hgrow2. by eapply scroll_grows_trans.
Qed.

Lemma scroll_neat_for_each {X : Type}
      (body : X -> M (Drission.page * Drission.scroll_vars) ctl) (items : list X) :
  (forall x, scroll_neat rt (body x)) -> scroll_neat rt (for_each body items).
Proof.
  intros Hbody. induction items as [|x rest IH]; cbn [for_each].
  - apply scroll_neat_ret.
  - apply scroll_neat_bind; [apply Hbody|]. intros [|]; [done|apply scroll_neat_ret].
Qed.

Lemma scroll_neat_while (fuel : nat) (cond : Drission.page * Drission.scroll_vars -> bool)
      (body : M (Drission.page * Drission.scroll_vars) ctl) :
  scroll_neat rt body -> scroll_neat rt (while_loop fuel cond body).
Proof.
  intros Hbody s.
  apply after_while_loop with (inv := fun s0 => scroll_grows rt s s0);
    [apply scroll_grows_refl|done|done|].
  intros s0 H0 _. eapply after_weaken; [apply Hbody|].
  intros s1 r H1. assert (scroll_grows rt s s1) by (by eapply scroll_grows_trans).
  by destruct r as [[|]|e|].
Qed.

Lemma scroll_neat_page {A : Type} (m : M (Drission.page * Drission.scroll_vars) A) :
  (forall p v, snd (fst (m (p, v))) = v) -> scroll_neat rt m.
Proof.
  intros H [p v]. constructor. specialize (H p v).
  destruct (m (p, v)) as [[p' v'] r]. cbn in *. subst v'. by apply scroll_grows_same.
Qed.

End ScrollGrows.

(** Runs a loop body that registers a comment; where it comes to
    [_parse_comment], the row it gives is named and its equation kept. *)
Ltac scroll_item_run rt :=
  repeat first
    [ lazymatch goal with
      | |- match Drission._parse_comment _ ?c with _ => _ end =>
          match goal with
          | H : py_get c "cid" _ = Ret ?x |- _ =>
              let Hp := fresh "Hparse" in
              destruct (drission_parse_after_cid rt c x H) as (? & Hp);
              rewrite Hp; cbn beta iota
          end
      end
    | run_step ].

(** The state after a row was appended for a new id. *)
Ltac scroll_item_grown :=
  eapply scroll_grows_one;
  [ cbn; reflexivity
  | cbn; reflexivity
  | match goal with H : bool_decide _ = false |- _ =>
      by apply bool_decide_eq_false_1 in H end
  | eexists _, _; split_and!;
    [ eassumption
    | eassumption
    | first [ by left | right; eexists; by split ] ] ].

Section DrissionDedup.
Context (rt : runtime) (driver : Drission.browser).

(** The three loop bodies that register a comment: a row is appended
    exactly when an id is newly registered, and it is the row of the
    record with that id. *)
Lemma drission_main_item_grows (comment : pyval) :
  scroll_neat rt (Drission.main_item rt comment).
Proof.
  intros s. unfold Drission.main_item. scroll_item_run rt;
  cbn; try (by apply scroll_grows_same); scroll_item_grown.
Qed.

Lemma drission_verify_item_grows (comment : pyval) :
  scroll_neat rt (Drission.verify_item rt comment).
Proof.
  intros s. unfold Drission.verify_item. scroll_item_run rt;
  cbn; try (by apply scroll_grows_same); scroll_item_grown.
Qed.

Lemma drission_final_item_grows (comment : pyval) :
  scroll_neat rt (Drission.final_item rt comment).
Proof.
  intros s. unfold Drission.final_item. scroll_item_run rt;
  cbn; try (by apply scroll_grows_same); scroll_item_grown.
Qed.

End DrissionDedup.

Ltac scroll_neat_step :=
  lazymatch goal with
  | |- scroll_neat _ (bind _ _) => apply scroll_neat_bind; [|intros ?]
  | |- scroll_neat _ (ret _) => apply scroll_neat_ret
  | |- scroll_neat _ (lift _) => apply scroll_neat_lift
  | |- scroll_neat _ (local _) => apply scroll_neat_local
  | |- scroll_neat _ (assign _) => apply scroll_neat_assign; intros ?; by cbn
  | |- scroll_neat _ (try_except _ _) => apply scroll_neat_try_except; [|intros ?]
  | |- scroll_neat _ (for_each _ _) => apply scroll_neat_for_each; intros ?
  | |- scroll_neat _ (while_loop _ _ _) => apply scroll_neat_while
  | |- scroll_neat _ (Drission.main_item _ _) => apply drission_main_item_grows
  | |- scroll_neat _ (Drission.verify_item _ _) => apply drission_verify_item_grows
  | |- scroll_neat _ (Drission.final_item _ _) => apply drission_final_item_grows
  | |- scroll_neat _ (Drission.act _) => by apply scroll_neat_page
  | |- scroll_neat _ (Drission.wait_packet _) => by apply scroll_neat_page
  | |- scroll_neat _ (Drission.read_clock _) => by apply scroll_neat_page
  | |- scroll_neat _ (Drission.read_scroll_position _) => by apply scroll_neat_page
  | |- scroll_neat _ (Drission.check_captcha _) => by apply scroll_neat_page
  | |- scroll_neat _ (Drission.handle_captcha _) => by apply scroll_neat_page
  | |- scroll_neat _ (Drission.read_end_marker _) => by apply scroll_neat_page
  | |- scroll_neat _ (if ?b then _ else _) => destruct b
  | |- scroll_neat _ (match ?x with _ => _ end) => destruct x
  end.

Ltac scroll_neat_solve :=
  repeat first
    [ scroll_neat_step
    | progress unfold Drission.scroll_loop, Drission.scroll_pass,
        Drission.check_scroll_effect, Drission.poll_main,
        Drission.read_packet, Drission.and_then,
        Drission.captcha_step, Drission.progress_step,
        Drission.verification_pass, Drission.poll_with,
        Drission.stall_step, Drission.expand_step, Drission.bottom_step,
        Drission.js_scroll ].

Ltac scroll_grows_chain :=
  repeat (eapply scroll_grows_trans; [eassumption|]); apply scroll_grows_refl.

(** One more statement of a sequence, with what it leaves grown. *)
Ltac scroll_neat_next rt :=
  apply after_bind; eapply after_weaken;
  [ lazymatch goal with
    | |- after ?m _ _ =>
        let H := fresh "Hneat" in
        assert (scroll_neat rt m) as H by scroll_neat_solve; apply H
    end
  | intros ? [?| |] ?; cbn beta iota;
    [ | split; [scroll_grows_chain | done] .. ] ].

Section DrissionHarvest.
Context (rt : runtime) (max_comments : Z) (driver : Drission.browser) (expected_count : Z).

Lemma drission_get_video_comments_scroll_grows
      (comments0 : list pyval) (ids0 : gset key) (p : Drission.page) :
  let run := Drission.get_video_comments_scroll rt max_comments driver expected_count
               comments0 ids0 p in
  exists new keys,
    Drission.comments (snd (fst run)) = comments0 ++ new
    /\ Forall2 (row_of_id rt) new keys
    /\ NoDup keys
    /\ (forall k, k ∈ keys -> k ∉ ids0)
    /\ Drission.comment_ids (snd (fst run)) = list_to_set keys ∪ ids0
    /\ forall rows, snd run = Ret rows -> rows = comments0 ++ new.
Proof.
  cbn zeta.
  destruct (Drission.get_video_comments_scroll rt max_comments driver expected_count
              comments0 ids0 p) as [s' r] eqn:Hrun.
  unfold Drission.get_video_comments_scroll in Hrun.
  match type of Hrun with
  | ?m ?s0 = _ =>
      assert (after m s0
                (fun s' r =>
                   scroll_grows rt s0 s'
                   /\ forall rows, r = Ret rows -> rows = Drission.comments (snd s')))
        as Hafter
  end.
  { do 6 (scroll_neat_next rt).
    apply after_local. split; [scroll_grows_chain | by intros ? [= <-]]. }
  destruct (after_elim _ _ _ _ _ Hafter Hrun) as [(new & keys & Hc & Hr & Hd & Hf & Hs) Hrows].
  cbn in Hc, Hf, Hs. exists new, keys. cbn [fst snd]. split_and!; [done..|].
  intros rows Hret. by rewrite (Hrows rows Hret).
Qed.

End DrissionHarvest.

(** X25.  The scrolling part of [DrissionMixCrawler.get_video_comments]
    appends a row only for an id it registers as new.  The rows it adds
    to those of the first load answer one to one, in order, to ids that
    are pairwise distinct and were not registered before; each row is
    what [_parse_comment] makes of a record with that id, the id being
    the record's [cid], or [str(id)] where the loop falls back on it, as
    the set [comment_ids] holds it.  After the run [comment_ids] is the
    set it was with these ids added, so the rows added are as many as the
    ids added, and a first load with as many rows as ids gives a result
    with as many rows as ids.  The ids are those of the records: the
    [cid] that [_parse_comment] writes into a row is not what the set
    holds, and the statement says nothing of it. *)
Theorem drission_scroll_appends_new_ids_only
    (rt : runtime) (max_comments : Z) (driver : Drission.browser) (expected_count : Z)
    (comments0 : list pyval) (ids0 : gset key) (p : Drission.page) :
  let run := Drission.get_video_comments_scroll rt max_comments driver expected_count
               comments0 ids0 p in
  exists (new : list pyval) (keys : list key),
    snd run = Ret (comments0 ++ new)
    /\ Forall2 (row_of_id rt) new keys
    /\ NoDup keys
    /\ (forall k, k ∈ keys -> k ∉ ids0)
    /\ Drission.comment_ids (snd (fst run)) = list_to_set keys ∪ ids0
    /\ size (Drission.comment_ids (snd (fst run))) = (size ids0 + length new)%nat
    /\ (length comments0 = size ids0 ->
        length (comments0 ++ new) = size (Drission.comment_ids (snd (fst run)))).
Proof.
  cbn zeta.
  destruct (drission_get_video_comments_scroll_grows rt max_comments driver expected_count
              comments0 ids0 p) as (new & keys & _ & Hr & Hd & Hf & Hs & Hrows).
  destruct (drission_get_video_comments_scroll_spec rt max_comments driver expected_count
              comments0 ids0 p) as (s' & new' & Hrun & _).
  rewrite Hrun in Hrows, Hs |- *. cbn in *.
  exists new, keys. rewrite <- (Hrows _ eq_refl).
  assert (size (Drission.comment_ids (snd s')) = (size ids0 + length new)%nat) as Hsize.
  { by rewrite Hs, size_with_new_keys, (Forall2_length _ _ _ Hr). }
  split_and!; [done..|].
  intros Hfirst. rewrite Hsize, (Hrows _ eq_refl), length_app. lia.
Qed.

Lemma drission_scroll_appends_new_ids_only_witness :
  let run := Drission.get_video_comments_scroll plain_runtime 1000 repeating_browser 3
               [] ∅ Drission.fresh_page in
  (exists rows, snd run = Ret rows /\ length rows = 3%nat)
  /\ exists (new : list pyval) (keys : list key),
       snd run = Ret ([] ++ new)
       /\ Forall2 (row_of_id plain_runtime) new keys
       /\ NoDup keys
       /\ (forall k, k ∈ keys -> k ∉ (∅ : gset key))
       /\ Drission.comment_ids (snd (fst run)) = list_to_set keys ∪ ∅
       /\ size (Drission.comment_ids (snd (fst run))) = (size (∅ : gset key) + length new)%nat
       /\ (length (@nil pyval) = size (∅ : gset key) ->
           length ([] ++ new) = size (Drission.comment_ids (snd (fst run)))).
Proof.
  intros run. split.
  - vm_compute. eexists. split; reflexivity.
  - exact (drission_scroll_appends_new_ids_only plain_runtime 1000 repeating_browser 3
             [] ∅ Drission.fresh_page).
Defined.

(** * crawl_mix_drission.py: no id twice in the API strategy *)

Lemma drission_parse_gives_dict (rt : runtime) (comment row : pyval) :
  Drission._parse_comment rt comment = Ret row -> exists d, row = PDict d.
Proof.
  unfold Drission._parse_comment.
  destruct (Drission._parse_comment_try rt comment) as [row'|e|] eqn:Htry.
  - intros [= <-]. unfold Drission._parse_comment_try, rbind in Htry.
    repeat case_match; simplify_eq; eauto.
  - unfold rbind. intros Hrow. repeat case_match; simplify_eq; eauto.
  - done.
Qed.

Lemma api_rows_of_ids_size (rt : runtime) (v : Drission.api_vars) :
  api_rows_of_ids rt v ->
  length (Drission.api_comments v) = size (Drission.api_comment_ids v).
Proof.
  intros (keys & Hr & Hd & ->).
  by rewrite size_list_to_set, (Forall2_length _ _ _ Hr).
Qed.

Lemma api_rows_of_ids_add (rt : runtime) (v v' : Drission.api_vars) (row : pyval) (k : key) :
  api_rows_of_ids rt v ->
  Drission.api_comments v' = Drission.api_comments v ++ [row] ->
  Drission.api_comment_ids v' = {[k]} ∪ Drission.api_comment_ids v ->
  k ∉ Drission.api_comment_ids v ->
  api_row_of_id rt row k ->
  api_rows_of_ids rt v'.
Proof.
  intros (keys & Hr & Hd & Hs) Hc Hi Hk Hrow. exists (keys ++ [k]).
  rewrite Hc, Hi, Hs. split_and!.
  - apply Forall2_app; [done|by repeat constructor].
  - apply NoDup_app. split_and!; [done| |apply NoDup_singleton].
    intros k' Hin ->%list_elem_of_singleton. apply Hk. rewrite Hs.
    by apply elem_of_list_to_set.
  - rewrite list_to_set_app_L. cbn. rewrite (right_id_L ∅ (∪)). apply (comm_L (∪)).
Qed.

Section DrissionApiDedup.
Context (rt : runtime) (max_comments : Z) (crawler : feed).

Lemma drission_api_item_dedup (comment : pyval) (s : world * Drission.api_vars) :
  api_rows_of_ids rt (snd s) ->
  after (Drission.api_item rt comment) s (fun s' _ => api_rows_of_ids rt (snd s')).
Proof.
  intros Hinv. unfold Drission.api_item.
  repeat first
    [ lazymatch goal with
      | |- match Drission._parse_comment _ ?c with _ => _ end =>
          match goal with
          | H : py_get c "cid" _ = Ret ?x |- _ =>
              let Hp := fresh "Hparse" in
              destruct (drission_parse_after_cid rt c x H) as (? & Hp);
              rewrite Hp;
              destruct (drission_parse_gives_dict _ _ _ Hp) as [? ->];
              cbn beta iota
          end
      end
    | run_step ];
  cbn in *; try done.
  all: eapply api_rows_of_ids_add; [exact Hinv|cbn; reflexivity|cbn; reflexivity| |].
  all: try match goal with H : bool_decide _ = false |- _ =>
             by apply bool_decide_eq_false_1 in H end.
  all: eexists _, _, _; split_and!; eassumption.
Qed.

Lemma drission_api_pass_dedup (s : world * Drission.api_vars) :
  api_rows_of_ids rt (snd s) ->
  after (Drission.api_pass rt crawler) s (fun s' _ => api_rows_of_ids rt (snd s')).
Proof.
  intros Hinv. unfold Drission.api_pass. apply after_bind, after_assign.
  unfold Drission.api_page_try, await_fetch_video_comments.
  apply after_try_except, after_bind. constructor.
  destruct s as [w v]. cbn in *.
  destruct (api_fetch_video_comments crawler (root_calls w)) as [resp|e];
    cbn; [|by apply after_ret].
  repeat first
    [ lazymatch goal with
      | |- after (for_each (Drission.api_item _) _) _ _ =>
          eapply after_weaken;
          [ apply after_for_each with
              (inv := fun s0 : world * Drission.api_vars => api_rows_of_ids rt (snd s0))
              (post := fun (s0 : world * Drission.api_vars) (_ : result unit) =>
                         api_rows_of_ids rt (snd s0));
            [ done | done
            | intros ? ? _ ?; eapply after_weaken;
              [ by apply drission_api_item_dedup | by intros ? [[|]|?|] ? ] ]
          | intros [? ?] [[]|?|] ?; cbn beta iota ]
      end
    | run_step ];
  cbn in *; done.
Qed.

Lemma drission_get_video_comments_api_body_dedup (w : world) :
  after (Drission.get_video_comments_api_body rt max_comments crawler)
        (w, {| Drission.api_comments := []; Drission.api_comment_ids := ∅;
               Drission.api_cursor := PInt 0; Drission.api_page := 0 |})
        (fun s' r => api_rows_of_ids rt (snd s')).
Proof.
  assert (api_rows_of_ids rt
            {| Drission.api_comments := []; Drission.api_comment_ids := ∅;
               Drission.api_cursor := PInt 0; Drission.api_page := 0 |}) as Hstart.
  { exists []. cbn. split_and!; [constructor|constructor|done]. }
  unfold Drission.get_video_comments_api_body. apply after_bind.
  apply after_weaken with
    (post := fun (s' : world * Drission.api_vars) (_ : result unit) =>
               api_rows_of_ids rt (snd s')).
  - apply after_try_except.
    apply after_while_loop with
      (inv := fun s0 : world * Drission.api_vars => api_rows_of_ids rt (snd s0));
      [done|done|done|].
    intros s0 H0 _. eapply after_weaken; [by apply drission_api_pass_dedup|].
    intros s1 [[|]|e|] H1; cbn; try done; by apply after_ret.
  - intros s' [[]|e|] H; cbn; try done.
Qed.

End DrissionApiDedup.

(** X26.  [DrissionMixCrawler.get_video_comments_api] returns no record id
    twice.  Run from its initial locals, the rows it returns are its list
    [comments]; they answer one to one, in order, to pairwise distinct
    ids, each row being what [_parse_comment] makes of a record with that
    [cid], with [level] set to 1; these ids are the set [comment_ids], so
    the rows are as many as the ids, whatever the pages of the feed
    repeat.  The ids are the [cid]s of the records as the set holds them:
    of the [cid] that [_parse_comment] writes into a row the statement
    says nothing. *)
Theorem drission_get_video_comments_api_no_duplicates
    (rt : runtime) (max_comments : Z) (crawler : feed) (w : world)
    (s' : world * Drission.api_vars) (rows : list pyval) :
  Drission.get_video_comments_api_body rt max_comments crawler
    (w, {| Drission.api_comments := []; Drission.api_comment_ids := ∅;
           Drission.api_cursor := PInt 0; Drission.api_page := 0 |})
  = (s', Ret rows) ->
  (exists keys : list key,
     Forall2 (api_row_of_id rt) rows keys
     /\ NoDup keys
     /\ Drission.api_comment_ids (snd s') = list_to_set keys)
  /\ length rows = size (Drission.api_comment_ids (snd s'))
  /\ rows = Drission.api_comments (snd s').
Proof.
  intros Hrun.
  assert (rows = Drission.api_comments (snd s')) as Hrows.
  { revert Hrun. unfold Drission.get_video_comments_api_body, bind, local, gets.
    destruct (try_except _ _ _) as [s1 [[]|e|]]; by intros [= <- <-]. }
  pose proof (after_elim _ _ _ _ _
                (drission_get_video_comments_api_body_dedup rt max_comments crawler w)
                Hrun) as Hinv.
  cbn beta in Hinv. split_and!; [by rewrite Hrows| |done].
  rewrite Hrows. by apply (api_rows_of_ids_size rt).
Qed.

Lemma drission_get_video_comments_api_no_duplicates_witness :
  exists s' rows,
    Drission.get_video_comments_api_body plain_runtime 1000 overlapping_feed
      (fresh_world, {| Drission.api_comments := []; Drission.api_comment_ids := ∅;
                       Drission.api_cursor := PInt 0; Drission.api_page := 0 |})
    = (s', Ret rows)
    /\ root_calls (fst s') = 2%nat
    /\ length rows = 1%nat
    /\ (exists keys : list key,
          Forall2 (api_row_of_id plain_runtime) rows keys
          /\ NoDup keys
          /\ Drission.api_comment_ids (snd s') = list_to_set keys)
    /\ length rows = size (Drission.api_comment_ids (snd s')).
Proof.
  pose (run := Drission.get_video_comments_api_body plain_runtime 1000 overlapping_feed
                 (fresh_world,
                  {| Drission.api_comments := []; Drission.api_comment_ids := ∅;
                     Drission.api_cursor := PInt 0; Drission.api_page := 0 |})).
  assert (exists rows, run = (fst run, Ret rows)
                       /\ root_calls (fst (fst run)) = 2%nat
                       /\ length rows = 1%nat) as (rows & Hrun & Hcalls & Hlen).
  { vm_compute. eexists. split_and!; reflexivity. }
  exists (fst run), rows. split; [exact Hrun|]. split; [exact Hcalls|].
  split; [exact Hlen|].
  destruct (drission_get_video_comments_api_no_duplicates _ _ _ _ _ _ Hrun)
    as (Hkeys & Hsize & _).
  by split.
Defined.

(** The ids that are pairwise distinct are those of the records.  The
    [cid] written into a row can repeat: where [_parse_comment] falls back
    on its [except] branch it writes [str(cid)], and the records with the
    [cid]s 5 and '5' and a null [text] give two rows with the [cid] '5'. *)
Lemma drission_written_cid_can_repeat :
  exists s' row1 row2,
    Drission.get_video_comments_api_body plain_runtime 1000 similar_ids_feed
      (fresh_world, {| Drission.api_comments := []; Drission.api_comment_ids := ∅;
                       Drission.api_cursor := PInt 0; Drission.api_page := 0 |})
    = (s', Ret [row1; row2])
    /\ py_get row1 "cid" PNone = Ret (PStr "5")
    /\ py_get row2 "cid" PNone = Ret (PStr "5")
    /\ size (Drission.api_comment_ids (snd s')) = 2%nat.
Proof. vm_compute. eexists _, _, _. split_and!; reflexivity. Qed.

(** * crawl_mix_api.py: time stamps in milliseconds *)

(** X27.  [DouyinAPICrawler._parse_comment] reads a [create_time] given in
    milliseconds as the same time in seconds: for a number of seconds [t]
    with [10^7 < t <= 10^10], a record whose [create_time] is
    [t * 1000 + ms], [ms] below 1000, gives the very row the record gives
    with [create_time = t]. *)
Theorem api_parse_comment_millis
    (rt : runtime) (comment : list (string * pyval)) (level t ms : Z) :
  10000000 < t <= 10000000000 ->
  0 <= ms < 1000 ->
  Api._parse_comment rt (PDict (("create_time", PInt (t * 1000 + ms)) :: comment)) level
  = Api._parse_comment rt (PDict (("create_time", PInt t) :: comment)) level.
Proof.
  intros Ht Hms.
  assert ((t * 1000 + ms) / 1000 = t) as Hdiv
    by (symmetry; apply Z.div_unique with ms; lia).
  assert (Api._parse_comment_try rt
            (PDict (("create_time", PInt (t * 1000 + ms)) :: comment)) level
          = Api._parse_comment_try rt (PDict (("create_time", PInt t) :: comment)) level)
    as Htry.
  { unfold Api._parse_comment_try, py_get.
    change (dict_lookup "create_time" (("create_time", PInt (t * 1000 + ms)) :: comment))
      with (Some (PInt (t * 1000 + ms))).
    change (dict_lookup "create_time" (("create_time", PInt t) :: comment))
      with (Some (PInt t)).
    repeat match goal with
           | |- context [dict_lookup ?k (("create_time", ?x) :: comment)] =>
               change (dict_lookup k (("create_time", x) :: comment))
                 with (dict_lookup k comment)
           end.
    unfold py_gt, py_floordiv, id. cbn [rbind from_option as_num].
    assert ((10000000000 <? t * 1000 + ms) = true) as -> by lia.
    assert ((10000000000 <? t) = false) as -> by lia.
    cbn [rbind]. by rewrite Hdiv. }
  unfold Api._parse_comment. rewrite Htry.
  destruct (Api._parse_comment_try rt (PDict (("create_time", PInt t) :: comment)) level);
    done.
Qed.

Lemma api_parse_comment_millis_witness :
  Api._parse_comment plain_runtime
    (PDict [("create_time", PInt 1700000000123); ("cid", PStr "A")]) 1
  = Api._parse_comment plain_runtime
      (PDict [("create_time", PInt 1700000000); ("cid", PStr "A")]) 1.
Proof.
  apply (api_parse_comment_millis plain_runtime [("cid", PStr "A")] 1 1700000000 123); lia.
Defined.
